(** * StretchTimer: a shallow embedding of [stretch_timer.py]

    The development follows the source file top to bottom: the content
    catalog and the themes, the application object ([StretchTimerApp]),
    the countdown loop ([timer_loop]), the quiet-hours evaluator
    ([is_quiet_hours]), the reminder dispatcher ([trigger_stretch]), the
    popup ([show_stretch_popup]) and the settings store ([load_settings],
    [save_settings]).

    Conventions.
    - Python integers are [Z]; Python [str] is [string] (the model covers
      ASCII text: the library's digit class is wider on other code points).
    - A Python call that may raise is a computation in the [result] monad;
      [try ... except] is [try_except] with the list of caught classes.
    - [datetime.now()], [random.choice] and the outcome of writing the
      settings file are inputs of the functions that use them.
    - Tk widgets are not part of the state, except for what the properties
      below observe: the popups on screen, the callbacks registered with
      [after], and the log of sounds and desktop notifications.
    - The countdown thread and the UI thread are interleaved at the
      granularity of one loop iteration and one UI callback. *)

From Stdlib Require Import ZArith Lia Bool List Ascii String.
From stdpp Require Import gmap strings list fin_maps pretty.

Local Open Scope string_scope.
Local Open Scope Z_scope.

(* ===================================================================== *)
(** ** Exceptions and the [result] monad *)
(* ===================================================================== *)

(** The exception classes the source can meet. *)
Inductive exn : Type :=
  | ValueError
  | JSONDecodeError
  | UnicodeDecodeError
  | OSError
  | KeyError
  | TypeError
  | RecursionError.

Definition exn_eqb (a b : exn) : bool :=
  match a, b with
  | ValueError, ValueError
  | JSONDecodeError, JSONDecodeError
  | UnicodeDecodeError, UnicodeDecodeError
  | OSError, OSError
  | KeyError, KeyError
  | TypeError, TypeError
  | RecursionError, RecursionError => true
  | _, _ => false
  end.

(** [isinstance e cls]: Python's class hierarchy. [json.JSONDecodeError]
    and [UnicodeDecodeError] derive from [ValueError]; [IOError] is an
    alias of [OSError]. *)
Definition isinstance (e cls : exn) : bool :=
  match e, cls with
  | JSONDecodeError, ValueError => true
  | UnicodeDecodeError, ValueError => true
  | _, _ => exn_eqb e cls
  end.

Definition IOError : exn := OSError.

(** Outcome of a Python call. [Unmodelled] marks the places where the
    source hands Tk a value that is not of the variable's type: what Tcl
    makes of it is not represented, and nothing is proved about it. *)
Inductive result (A : Type) : Type :=
  | Ok (a : A)
  | Raise (e : exn)
  | Unmodelled.

Arguments Ok {A} a.
Arguments Raise {A} e.
Arguments Unmodelled {A}.

#[export] Instance result_ret : MRet result := @Ok.

#[export] Instance result_bind : MBind result :=
  fun A B (k : A -> result B) (c : result A) =>
    match c with
    | Ok a => k a
    | Raise e => Raise e
    | Unmodelled => Unmodelled
    end.

(** [try: body except (classes): handler]. *)
Definition try_except {A : Type} (body : result A) (classes : list exn)
    (handler : result A) : result A :=
  match body with
  | Raise e => if existsb (isinstance e) classes then handler else Raise e
  | r => r
  end.

(* ===================================================================== *)
(** ** Time of day ([datetime.time]) and [strptime(_, "%H:%M")] *)
(* ===================================================================== *)

Record time : Type := mk_time {
  hour : Z;
  minute : Z;
  second : Z;
  microsecond : Z
}.

(** A [datetime.time] object always has its fields in range. *)
Definition valid_time (t : time) : Prop :=
  0 <= hour t < 24 /\ 0 <= minute t < 60 /\
  0 <= second t < 60 /\ 0 <= microsecond t < 1000000.

(** Microseconds since midnight: the position of [t] on the day's line. *)
Definition of_midnight (t : time) : Z :=
  ((hour t * 60 + minute t) * 60 + second t) * 1000000 + microsecond t.

(** [time.__le__] and [time.__ge__] compare the tuples
    [(hour, minute, second, microsecond)]. *)
Definition time_cmp (a b : time) : comparison :=
  match hour a ?= hour b with
  | Eq => match minute a ?= minute b with
          | Eq => match second a ?= second b with
                  | Eq => microsecond a ?= microsecond b
                  | c => c
                  end
          | c => c
          end
  | c => c
  end.

Definition time_le (a b : time) : bool :=
  match time_cmp a b with Gt => false | _ => true end.

Definition time_ge (a b : time) : bool :=
  match time_cmp a b with Lt => false | _ => true end.

Definition is_digit (c : ascii) : bool :=
  let n := nat_of_ascii c in (Nat.leb 48 n && Nat.leb n 57)%bool.

Definition digit_val (c : ascii) : Z := Z.of_nat (nat_of_ascii c) - 48.

Definition in_range (c lo hi : ascii) : bool :=
  (Nat.leb (nat_of_ascii lo) (nat_of_ascii c)
   && Nat.leb (nat_of_ascii c) (nat_of_ascii hi))%bool.

(** The directive [%H] is the regular expression [2[0-3]|[0-1]\d|\d]:
    the ways it can match a prefix of [s], in the order the matcher tries
    them, each with the value read and the rest of the input. *)
Definition re_H (s : list ascii) : list (Z * list ascii) :=
  match s with
  | c1 :: c2 :: r =>
      (if (Ascii.eqb c1 "2" && in_range c2 "0" "3")%bool
       then [(20 + digit_val c2, r)] else [])
      ++ (if (in_range c1 "0" "1" && is_digit c2)%bool
          then [(10 * digit_val c1 + digit_val c2, r)] else [])
      ++ (if is_digit c1 then [(digit_val c1, c2 :: r)] else [])
  | [c1] => if is_digit c1 then [(digit_val c1, [])] else []
  | [] => []
  end.

(** The directive [%M] is [[0-5]\d|\d]. *)
Definition re_M (s : list ascii) : list (Z * list ascii) :=
  match s with
  | c1 :: c2 :: r =>
      (if (in_range c1 "0" "5" && is_digit c2)%bool
       then [(10 * digit_val c1 + digit_val c2, r)] else [])
      ++ (if is_digit c1 then [(digit_val c1, c2 :: r)] else [])
  | [c1] => if is_digit c1 then [(digit_val c1, [])] else []
  | [] => []
  end.

(** All matches of [%H:%M] at the start of [s], in backtracking order. *)
Definition re_HM (s : list ascii) : list (Z * Z * list ascii) :=
  flat_map (fun '(h, r) =>
      match r with
      | c :: r' =>
          if Ascii.eqb c ":" then map (fun '(m, r'') => (h, m, r'')) (re_M r')
          else []
      | [] => []
      end) (re_H s).

(** [datetime.strptime(s, "%H:%M").time()]: the first match is taken; no
    match, or input left after it, is a [ValueError]. *)
Definition strptime_HM (s : string) : result time :=
  match re_HM (list_ascii_of_string s) with
  | (h, m, []) :: _ => Ok (mk_time h m 0 0)
  | _ => Raise ValueError
  end.

(* ===================================================================== *)
(** ** Content catalog *)
(* ===================================================================== *)

(** An entry of the catalog: a dict with keys ['name'], ['duration'] and
    ['steps']. *)
Record Exercise : Type := mkExercise {
  name : string;
  duration : string;
  steps : list string
}.

Definition BREATHING_EXERCISES : list Exercise :=
  [
    mkExercise "Box Breathing" "1 min"
      ["Inhale slowly for 4 seconds";
       "Hold your breath for 4 seconds";
       "Exhale slowly for 4 seconds";
       "Hold empty for 4 seconds, repeat 3x"];
    mkExercise "4-7-8 Relaxing Breath" "1 min"
      ["Inhale quietly through nose for 4 seconds";
       "Hold your breath for 7 seconds";
       "Exhale completely through mouth for 8 seconds";
       "Repeat 3 times"];
    mkExercise "Deep Belly Breathing" "1 min"
      ["Place hand on belly, relax shoulders";
       "Inhale deeply, feel belly rise";
       "Exhale slowly, feel belly fall";
       "Repeat 5-6 slow breaths"];
    mkExercise "Energizing Breath" "30 sec"
      ["Take a quick sniff-sniff-sniff through nose";
       "Exhale fully through mouth with a 'hah'";
       "This is one cycle";
       "Repeat 5 cycles, feel more alert"];
    mkExercise "Calming Exhale Focus" "1 min"
      ["Inhale naturally for 4 seconds";
       "Exhale slowly for 6-8 seconds";
       "Focus only on the long exhale";
       "Repeat 5 times"];
    mkExercise "Three-Part Breath" "1 min"
      ["Inhale: fill belly first, then ribs, then chest";
       "One smooth breath filling bottom to top";
       "Exhale: empty chest, ribs, then belly";
       "Repeat 4-5 times slowly"]
  ].

Definition EYE_EXERCISES : list Exercise :=
  [
    mkExercise "Eye Focus - Window Gaze" "20 sec"
      ["Look out a window at the farthest point";
       "Focus on that distant point for 20 seconds";
       "Let your eye muscles fully relax"];
    mkExercise "Eye Focus - Near and Far" "30 sec"
      ["Focus on your thumb 10 inches away for 5 sec";
       "Look at something 20+ feet away for 5 sec";
       "Alternate back and forth 5 times"];
    mkExercise "20-20-20 Rule" "20 sec"
      ["Find an object at least 20 feet away";
       "Focus on it for 20 seconds";
       "Blink naturally and breathe"];
    mkExercise "Eye Relaxation - Palming" "20 sec"
      ["Rub palms together to warm them";
       "Cup warm palms over closed eyes";
       "Relax in the darkness for 20 seconds"];
    mkExercise "Eye Circles" "30 sec"
      ["Keep head still, look up";
       "Slowly circle eyes clockwise";
       "Do 5 full circles";
       "Reverse: 5 circles counter-clockwise"];
    mkExercise "Rapid Blinking" "20 sec"
      ["Blink rapidly for 10 seconds";
       "Close eyes and relax for 5 seconds";
       "Blink rapidly again for 5 seconds";
       "Helps refresh tear film"]
  ].

Definition STRETCHES : list Exercise :=
  [
    mkExercise "Neck Half-Rolls" "1 minute"
      ["Stand straight, relax your shoulders";
       "Drop chin to chest gently";
       "Roll head to right ear, then back to chest";
       "Roll head to left ear, then back to chest";
       "Do 5 half-circles each direction (avoid rolling back)"];
    mkExercise "Neck Side Stretch" "30 seconds"
      ["Stand tall with shoulders relaxed";
       "Tilt your right ear toward right shoulder";
       "Use right hand to gently press head further";
       "Hold for 15 seconds, feel the stretch";
       "Switch to the left side and repeat"];
    mkExercise "Chin Tucks" "30 seconds"
      ["Stand with your back against a wall";
       "Pull your chin straight back (make a double chin)";
       "Keep your eyes level, don't tilt head";
       "Hold for 5 seconds";
       "Release and repeat 10 times"];
    mkExercise "Neck Rotation" "30 seconds"
      ["Stand tall, face forward";
       "Slowly turn head to look over right shoulder";
       "Hold for 5 seconds";
       "Return to center, then look left";
       "Repeat 5 times each side"];
    mkExercise "Forward Neck Stretch" "20 seconds"
      ["Stand with good posture";
       "Interlace fingers behind your head";
       "Gently pull chin toward chest";
       "Feel the stretch in the back of your neck";
       "Hold for 20 seconds, breathe slowly"];
    mkExercise "Shoulder Rolls" "1 minute"
      ["Stand relaxed with arms at your sides";
       "Raise shoulders up toward your ears";
       "Roll them backward in large circles";
       "Do 10 backward rolls";
       "Then 10 forward rolls"];
    mkExercise "Shoulder Shrugs" "30 seconds"
      ["Stand relaxed, arms at sides";
       "Raise shoulders up to your ears";
       "Hold for 5 seconds";
       "Release and let them drop";
       "Repeat 10 times"];
    mkExercise "Cross-Body Arm Stretch" "30 seconds"
      ["Extend right arm across your chest";
       "Use left hand to press it closer";
       "Hold for 15 seconds";
       "Switch arms";
       "Hold left arm for 15 seconds"];
    mkExercise "Chest Opener" "15 seconds"
      ["Stand tall with good posture";
       "Clasp hands behind your back";
       "Squeeze shoulder blades together";
       "Lift arms slightly while squeezing";
       "Hold 15 seconds, breathe deeply"];
    mkExercise "Reach for the Ceiling" "10 seconds"
      ["Stand tall with feet shoulder-width apart";
       "Raise both arms straight overhead";
       "Interlace your fingers, palms facing up";
       "Push upward and feel the stretch";
       "Hold for 10 seconds, breathe deeply"];
    mkExercise "Standing Toe Touch" "15 seconds"
      ["Stand with feet hip-width apart";
       "Bend forward slowly from hips";
       "Reach toward shins or toes";
       "Keep knees soft, stop if back hurts";
       "Hold 15 seconds, breathe"];
    mkExercise "Torso Twist" "30 seconds"
      ["Stand with feet shoulder-width apart";
       "Place hands on hips";
       "Twist upper body to the left";
       "Hold 3 seconds, return to center";
       "Twist right. Repeat 10 times each side"];
    mkExercise "Side Bends" "30 seconds"
      ["Stand with feet shoulder-width apart";
       "Raise right arm overhead";
       "Lean slowly to the left";
       "Hold 10 seconds, feel the stretch";
       "Switch sides and repeat"];
    mkExercise "Wrist Circles" "30 seconds"
      ["Extend both arms in front of you";
       "Make fists with both hands";
       "Rotate wrists in circles";
       "10 circles clockwise";
       "10 circles counter-clockwise"];
    mkExercise "Arm Circles" "30 seconds"
      ["Stand with feet shoulder-width apart";
       "Extend arms straight out to sides";
       "Make small circles, gradually larger";
       "10 circles forward";
       "10 circles backward"];
    mkExercise "Wrist Flexor Stretch" "30 seconds"
      ["Extend right arm, palm facing up";
       "Use left hand to pull fingers down";
       "Hold 15 seconds, feel forearm stretch";
       "Switch hands and repeat";
       "Great for typing strain relief"];
    mkExercise "One Leg Balance" "1 minute"
      ["Stand near a wall for support if needed";
       "Lift your right foot off the ground";
       "Balance on left leg for 30 seconds";
       "Switch legs";
       "Balance on right leg for 30 seconds"];
    mkExercise "Calf Raises" "30 seconds"
      ["Stand with feet hip-width apart";
       "Rise up onto your toes";
       "Hold for 2 seconds at the top";
       "Lower heels back down slowly";
       "Repeat 15 times"];
    mkExercise "March in Place" "1-2 minutes"
      ["Stand with feet together";
       "Lift right knee up high";
       "Lower it, lift left knee";
       "Swing arms naturally as you march";
       "Continue for 1-2 minutes"];
    mkExercise "Standing Quad Stretch" "30 seconds"
      ["Stand near wall for balance";
       "Grab right ankle behind you";
       "Pull heel toward buttock";
       "Keep knees together, hold 15 sec";
       "Switch legs and repeat"];
    mkExercise "Standing Hip Flexor Stretch" "30 seconds"
      ["Take a big step forward with right foot";
       "Lower into a shallow lunge";
       "Tuck tailbone, feel front of left hip stretch";
       "Hold 15 seconds";
       "Switch legs and repeat"]
  ].
(** The two kinds of secondary exercise, ["eye"] and ["breathing"]. *)
Inductive secondary_type : Type := eye | breathing.

Definition secondary_type_eqb (a b : secondary_type) : bool :=
  match a, b with
  | eye, eye | breathing, breathing => true
  | _, _ => false
  end.

(** [random.choice(seq)] with the generator's draw [r] as an input: the
    element at position [r mod len(seq)]. *)
Definition choice (seq : list Exercise) (r : nat) : Exercise :=
  nth (r mod length seq)%nat seq (mkExercise "" "" []).

(** The draws one call of [trigger_stretch] consumes. *)
Record Draws : Type := mkDraws {
  draw_stretch : nat;
  draw_secondary : nat
}.

(* ===================================================================== *)
(** ** Themes *)
(* ===================================================================== *)

Record Palette : Type := mkPalette {
  bg : string;
  fg : string;
  accent : string;
  accent_hover : string;
  card_bg : string;
  success : string;
  warning : string;
  step_bg : string;
  step_num : string
}.

Definition light_palette : Palette :=
  mkPalette "#f0f4f8" "#1a202c" "#4299e1" "#3182ce" "#ffffff"
            "#48bb78" "#ed8936" "#f7fafc" "#4299e1".

Definition dark_palette : Palette :=
  mkPalette "#1a202c" "#e2e8f0" "#63b3ed" "#4299e1" "#2d3748"
            "#68d391" "#f6ad55" "#374151" "#63b3ed".

Definition THEMES : gmap string Palette :=
  <["light" := light_palette]> (<["dark" := dark_palette]> ∅).

(* ===================================================================== *)
(** ** The application object *)
(* ===================================================================== *)

(** The nine attributes that [save_settings] persists. Apart from
    [theme], each is a Tk variable in the source, read with [.get()] and
    written with [.set()]. *)
Record Settings : Type := mkSettings {
  interval_minutes : Z;
  quiet_enabled : bool;
  quiet_start : string;
  quiet_end : string;
  theme : string;
  custom_message : string;
  popup_timeout_seconds : Z;
  popup_persistent : bool;
  sound_enabled : bool
}.

Definition set_interval_minutes (v : Z) (x : Settings) : Settings :=
  mkSettings v (quiet_enabled x) (quiet_start x) (quiet_end x) (theme x)
    (custom_message x) (popup_timeout_seconds x) (popup_persistent x)
    (sound_enabled x).

Definition set_quiet_enabled (v : bool) (x : Settings) : Settings :=
  mkSettings (interval_minutes x) v (quiet_start x) (quiet_end x) (theme x)
    (custom_message x) (popup_timeout_seconds x) (popup_persistent x)
    (sound_enabled x).

Definition set_quiet_start (v : string) (x : Settings) : Settings :=
  mkSettings (interval_minutes x) (quiet_enabled x) v (quiet_end x)
    (theme x) (custom_message x) (popup_timeout_seconds x)
    (popup_persistent x) (sound_enabled x).

Definition set_quiet_end (v : string) (x : Settings) : Settings :=
  mkSettings (interval_minutes x) (quiet_enabled x) (quiet_start x) v
    (theme x) (custom_message x) (popup_timeout_seconds x)
    (popup_persistent x) (sound_enabled x).

Definition set_theme (v : string) (x : Settings) : Settings :=
  mkSettings (interval_minutes x) (quiet_enabled x) (quiet_start x)
    (quiet_end x) v (custom_message x) (popup_timeout_seconds x)
    (popup_persistent x) (sound_enabled x).

Definition set_custom_message (v : string) (x : Settings) : Settings :=
  mkSettings (interval_minutes x) (quiet_enabled x) (quiet_start x)
    (quiet_end x) (theme x) v (popup_timeout_seconds x)
    (popup_persistent x) (sound_enabled x).

Definition set_popup_timeout_seconds (v : Z) (x : Settings) : Settings :=
  mkSettings (interval_minutes x) (quiet_enabled x) (quiet_start x)
    (quiet_end x) (theme x) (custom_message x) v (popup_persistent x)
    (sound_enabled x).

Definition set_popup_persistent (v : bool) (x : Settings) : Settings :=
  mkSettings (interval_minutes x) (quiet_enabled x) (quiet_start x)
    (quiet_end x) (theme x) (custom_message x) (popup_timeout_seconds x) v
    (sound_enabled x).

Definition set_sound_enabled (v : bool) (x : Settings) : Settings :=
  mkSettings (interval_minutes x) (quiet_enabled x) (quiet_start x)
    (quiet_end x) (theme x) (custom_message x) (popup_timeout_seconds x)
    (popup_persistent x) v.

(** The timer state of [__init__]. [start_time] is a timestamp in
    seconds. *)
Record Session : Type := mkSession {
  running : bool;
  paused : bool;
  stretch_count : Z;
  start_time : option Z;
  remaining_seconds : Z;
  current_stretch : option Exercise;
  current_secondary_exercise : option Exercise;
  last_secondary_type : secondary_type
}.

Definition set_running (v : bool) (x : Session) : Session :=
  mkSession v (paused x) (stretch_count x) (start_time x)
    (remaining_seconds x) (current_stretch x)
    (current_secondary_exercise x) (last_secondary_type x).

Definition set_paused (v : bool) (x : Session) : Session :=
  mkSession (running x) v (stretch_count x) (start_time x)
    (remaining_seconds x) (current_stretch x)
    (current_secondary_exercise x) (last_secondary_type x).

Definition set_stretch_count (v : Z) (x : Session) : Session :=
  mkSession (running x) (paused x) v (start_time x) (remaining_seconds x)
    (current_stretch x) (current_secondary_exercise x)
    (last_secondary_type x).

Definition set_start_time (v : option Z) (x : Session) : Session :=
  mkSession (running x) (paused x) (stretch_count x) v
    (remaining_seconds x) (current_stretch x)
    (current_secondary_exercise x) (last_secondary_type x).

Definition set_remaining_seconds (v : Z) (x : Session) : Session :=
  mkSession (running x) (paused x) (stretch_count x) (start_time x) v
    (current_stretch x) (current_secondary_exercise x)
    (last_secondary_type x).

Definition set_current_stretch (v : option Exercise) (x : Session) : Session :=
  mkSession (running x) (paused x) (stretch_count x) (start_time x)
    (remaining_seconds x) v (current_secondary_exercise x)
    (last_secondary_type x).

Definition set_current_secondary_exercise (v : option Exercise) (x : Session) : Session :=
  mkSession (running x) (paused x) (stretch_count x) (start_time x)
    (remaining_seconds x) (current_stretch x) v (last_secondary_type x).

Definition set_last_secondary_type (v : secondary_type) (x : Session) : Session :=
  mkSession (running x) (paused x) (stretch_count x) (start_time x)
    (remaining_seconds x) (current_stretch x)
    (current_secondary_exercise x) v.

(** How a popup window left the screen, if it did. *)
Inductive PopupState : Type := Shown | Dismissed | TimedOut.

(** A [Toplevel] created by [show_stretch_popup], with what it displays. *)
Record Popup : Type := mkPopup {
  popup_id : nat;
  popup_message : string;
  popup_stretch : Exercise;
  popup_secondary : Exercise;
  popup_secondary_type : secondary_type;
  popup_count : Z;
  popup_state : PopupState
}.

(** The callbacks the source registers with [after]:
    [root.after(0, self.trigger_stretch)] and the popup's auto-close. *)
Inductive Callback : Type :=
  | CbTrigger
  | CbClose (id : nat).

(** A registered callback and the clock value (ms) at which it is due. *)
Record Timer : Type := mkTimer {
  due : Z;
  action : Callback
}.

(** What the reminder emits besides the popup. *)
Inductive Effect : Type :=
  | Sound
  | Notify (title message : string).

(** The toolkit: windows in creation order, pending [after] callbacks
    ordered by due time, its millisecond clock, and the effect log. *)
Record Tk : Type := mkTk {
  toplevels : list Popup;
  timers : list Timer;
  clock : Z;
  log : list Effect
}.

Definition set_toplevels (v : list Popup) (x : Tk) : Tk :=
  mkTk v (timers x) (clock x) (log x).

Definition set_timers (v : list Timer) (x : Tk) : Tk :=
  mkTk (toplevels x) v (clock x) (log x).

Definition set_clock (v : Z) (x : Tk) : Tk :=
  mkTk (toplevels x) (timers x) v (log x).

Definition set_log (v : list Effect) (x : Tk) : Tk :=
  mkTk (toplevels x) (timers x) (clock x) v.

Record App : Type := mkApp {
  settings : Settings;
  session : Session;
  colors : Palette;
  root : Tk
}.

Definition set_settings (v : Settings) (x : App) : App :=
  mkApp v (session x) (colors x) (root x).

Definition set_session (v : Session) (x : App) : App :=
  mkApp (settings x) v (colors x) (root x).

Definition set_colors (v : Palette) (x : App) : App :=
  mkApp (settings x) (session x) v (root x).

Definition set_root (v : Tk) (x : App) : App :=
  mkApp (settings x) (session x) (colors x) v.

(** Shorthands for updates through the nesting. *)
Definition with_settings (f : Settings -> Settings) (self : App) : App :=
  set_settings (f (settings self)) self.

Definition with_session (f : Session -> Session) (self : App) : App :=
  set_session (f (session self)) self.

Definition with_root (f : Tk -> Tk) (self : App) : App :=
  set_root (f (root self)) self.

(** [HAS_PLYER]: whether the optional notification library was imported.
    It is fixed for a run of the program. *)
Record Platform : Type := mkPlatform {
  HAS_PLYER : bool
}.

Definition with_remaining_seconds (v : Z) : App -> App :=
  with_session (set_remaining_seconds v).

(* ===================================================================== *)
(** ** The toolkit: [after], the event loop, closing a window *)
(* ===================================================================== *)

(** Pending callbacks are kept by due time, first registered first. *)
Fixpoint insert_timer (t : Timer) (q : list Timer) : list Timer :=
  match q with
  | [] => [t]
  | u :: q' => if due t <? due u then t :: q else u :: insert_timer t q'
  end.

(** [widget.after(ms, callback)]. *)
Definition after (ms : Z) (cb : Callback) (tk : Tk) : Tk :=
  set_timers (insert_timer (mkTimer (clock tk + Z.max 0 ms) cb) (timers tk)) tk.

Definition emit (e : Effect) (tk : Tk) : Tk :=
  set_log (log tk ++ [e]) tk.

Definition set_popup_state (st : PopupState) (p : Popup) : Popup :=
  mkPopup (popup_id p) (popup_message p) (popup_stretch p)
    (popup_secondary p) (popup_secondary_type p) (popup_count p) st.

(** [popup.destroy()] on window [id], recorded as [how]; a window that is
    no longer on screen is left as it is. *)
Definition close_popup (how : PopupState) (id : nat) (tk : Tk) : Tk :=
  set_toplevels
    (map (fun p =>
            if (Nat.eqb (popup_id p) id)
            then match popup_state p with
                 | Shown => set_popup_state how p
                 | _ => p
                 end
            else p)
         (toplevels tk)) tk.

(* ===================================================================== *)
(** ** Timer control: [start_timer], [stop_timer], [toggle_pause] *)
(* ===================================================================== *)

Definition start_timer (now : Z) (self : App) : App :=
  with_session (fun s =>
    set_remaining_seconds (interval_minutes (settings self) * 60)
      (set_start_time (Some now)
        (set_stretch_count 0
          (set_paused false
            (set_running true s))))) self.

Definition stop_timer (self : App) : App :=
  with_session (fun s => set_paused false (set_running false s)) self.

Definition toggle_timer (now : Z) (self : App) : App :=
  if running (session self) then stop_timer self else start_timer now self.

Definition toggle_pause (self : App) : App :=
  with_session (fun s => set_paused (negb (paused s)) s) self.

(* ===================================================================== *)
(** ** Quiet hours: [is_quiet_hours] *)
(* ===================================================================== *)

Definition is_quiet_hours (self : App) (now : time) : result bool :=
  if negb (quiet_enabled (settings self)) then mret false
  else
    try_except
      (start ← strptime_HM (quiet_start (settings self));
       end_ ← strptime_HM (quiet_end (settings self));
       if time_le start end_
       then mret (time_le start now && time_le now end_)%bool
       else mret (time_ge now start || time_le now end_)%bool)
      [ValueError]
      (mret false).

(* ===================================================================== *)
(** ** The popup: [show_stretch_popup] *)
(* ===================================================================== *)

Definition show_stretch_popup (stretch secondary_exercise : Exercise)
    (ty : secondary_type) (self : App) : App :=
  let id := length (toplevels (root self)) in
  let popup :=
    mkPopup id (custom_message (settings self)) stretch secondary_exercise
      ty (stretch_count (session self)) Shown in
  let self := with_root (fun tk => set_toplevels (toplevels tk ++ [popup]) tk)
                self in
  (* Auto-close after timeout (unless persistent mode is enabled) *)
  if negb (popup_persistent (settings self)) then
    let timeout_ms := popup_timeout_seconds (settings self) * 1000 in
    with_root (after timeout_ms (CbClose id)) self
  else self.

(* ===================================================================== *)
(** ** The reminder: [trigger_stretch] *)
(* ===================================================================== *)

Definition trigger_stretch (pf : Platform) (d : Draws) (self : App) : App :=
  let self :=
    with_session (fun s => set_stretch_count (stretch_count s + 1) s) self in
  let stretch := choice STRETCHES (draw_stretch d) in
  (* Alternate between eye and breathing exercises *)
  let '(secondary_exercise, ty) :=
    if secondary_type_eqb (last_secondary_type (session self)) breathing
    then (choice EYE_EXERCISES (draw_secondary d), eye)
    else (choice BREATHING_EXERCISES (draw_secondary d), breathing) in
  let self :=
    with_session (fun s =>
      set_current_secondary_exercise (Some secondary_exercise)
        (set_current_stretch (Some stretch)
          (set_last_secondary_type ty s))) self in
  (* Play sound (if enabled) *)
  let self :=
    if sound_enabled (settings self) then with_root (emit Sound) self
    else self in
  (* Desktop notification *)
  let self :=
    if HAS_PLYER pf then
      let secondary_label :=
        match ty with eye => "Eye Break" | breathing => "Breathing" end in
      let title := custom_message (settings self) ++ " - " ++ name stretch in
      let message :=
        "+ " ++ secondary_label ++ ": " ++ name secondary_exercise in
      with_root (emit (Notify title message)) self
    else self in
  (* Show popup *)
  let self := show_stretch_popup stretch secondary_exercise ty self in
  (* Reset timer *)
  with_remaining_seconds (interval_minutes (settings self) * 60) self.

(* ===================================================================== *)
(** ** The countdown: one iteration of [timer_loop] *)
(* ===================================================================== *)

(** The body of [while self.running: ...], up to [time.sleep(1)]. When
    [running] is false the loop has ended and nothing happens. *)
Definition timer_loop_body (now : time) (self : App) : result App :=
  if running (session self) then
    if negb (paused (session self)) then
      if remaining_seconds (session self) <=? 0 then
        quiet ← is_quiet_hours self now;
        let self :=
          if negb quiet then with_root (after 0 CbTrigger) self else self in
        mret (with_remaining_seconds
                (interval_minutes (settings self) * 60) self)
      else
        mret (with_remaining_seconds
                (remaining_seconds (session self) - 1) self)
    else mret self
  else mret self.

(** The UI thread's event loop runs the first pending callback, if it is
    due. *)
Definition run_callback (pf : Platform) (d : Draws) (cb : Callback)
    (self : App) : App :=
  match cb with
  | CbTrigger => trigger_stretch pf d self
  | CbClose id => with_root (close_popup TimedOut id) self
  end.

Definition run_due (pf : Platform) (d : Draws) (self : App) : App :=
  match timers (root self) with
  | t :: q =>
      if due t <=? clock (root self)
      then run_callback pf d (action t) (with_root (set_timers q) self)
      else self
  | [] => self
  end.

(* ===================================================================== *)
(** ** The settings store: [save_settings], [load_settings] *)
(* ===================================================================== *)

#[local] Set Warnings "-register-all".

(** What [json.load] returns (numbers with a fraction are not
    represented). *)
Inductive jvalue : Type :=
  | JNull
  | JBool (b : bool)
  | JInt (n : Z)
  | JStr (s : string)
  | JArr (l : list jvalue)
  | JObj (m : gmap string jvalue).

(** The settings file as [load_settings] meets it, by what [open] and
    [json.load] make of it. Its text is not modelled: [Json v] is a
    file from which [json.load] returns [v], as it does from one that
    was written by [json.dump(d, f, indent=2)], with [v] the dict [d];
    text on which [json.load] raises is one of the other kinds,
    whatever value it would denote. *)
Inductive settings_file : Type :=
  | NoFile        (* os.path.exists is false *)
  | Unreadable    (* open or read raises IOError *)
  | Undecodable   (* the bytes are not text in the locale's encoding *)
  | NotJson       (* text that json.load rejects *)
  | TooDeep       (* JSON nested beyond the interpreter's recursion limit *)
  | HugeNumber    (* JSON with an integer literal of more digits than
                     int() converts (sys.get_int_max_str_digits) *)
  | Json (v : jvalue).

(** How [open(SETTINGS_FILE, "w")] followed by [json.dump] goes. *)
Inductive write_outcome : Type :=
  | WriteOk
  | OpenFails     (* IOError before the file is touched *)
  | WriteBreaks.  (* IOError after the file was truncated *)

Definition path_exists (file : settings_file) : bool :=
  match file with NoFile => false | _ => true end.

(** [with open(SETTINGS_FILE, "r") as f: json.load(f)]. *)
Definition json_load (file : settings_file) : result jvalue :=
  match file with
  | NoFile => Raise OSError
  | Unreadable => Raise OSError
  | Undecodable => Raise UnicodeDecodeError
  | NotJson => Raise JSONDecodeError
  | TooDeep => Raise RecursionError
  | HugeNumber => Raise ValueError
  | Json v => Ok v
  end.

Fixpoint contains_str (needle hay : string) : bool :=
  (String.prefix needle hay
   || match hay with
      | EmptyString => false
      | String _ hay' => contains_str needle hay'
      end)%bool.

(** [key in settings], for a string [key]. *)
Definition py_contains (key : string) (settings : jvalue) : result bool :=
  match settings with
  | JObj m => Ok (bool_decide (is_Some (m !! key)))
  | JArr l =>
      Ok (existsb (fun v => match v with
                            | JStr s => String.eqb s key
                            | _ => false
                            end) l)
  | JStr s => Ok (contains_str key s)
  | JNull | JBool _ | JInt _ => Raise TypeError
  end.

(** [settings[key]], for a string [key]. *)
Definition py_getitem (settings : jvalue) (key : string) : result jvalue :=
  match settings with
  | JObj m => match m !! key with
              | Some v => Ok v
              | None => Raise KeyError
              end
  | _ => Raise TypeError
  end.

(** [var.set(v)] for the three classes of Tk variable, on values of the
    variable's own type. *)
Definition IntVar_set (v : jvalue) : result Z :=
  match v with JInt n => Ok n | _ => Unmodelled end.

Definition BooleanVar_set (v : jvalue) : result bool :=
  match v with JBool b => Ok b | _ => Unmodelled end.

Definition StringVar_set (v : jvalue) : result string :=
  match v with JStr s => Ok s | _ => Unmodelled end.

(** [self.theme = v; self.colors = THEMES[self.theme]]. *)
Definition load_theme (v : jvalue) (self : App) : result App :=
  match v with
  | JStr s =>
      match THEMES !! s with
      | Some c => Ok (set_colors c (with_settings (set_theme s) self))
      | None => Raise KeyError
      end
  | JArr _ | JObj _ => Raise TypeError
  | JNull | JBool _ | JInt _ => Raise KeyError
  end.

(** [if key in settings: apply(settings[key])]. *)
Definition load_field (key : string) (settings : jvalue)
    (apply : jvalue -> App -> result App) (self : App) : result App :=
  present ← py_contains key settings;
  if (present : bool) then
    v ← py_getitem settings key;
    apply v self
  else mret self.

Definition via {A : Type} (conv : jvalue -> result A)
    (setter : A -> Settings -> Settings) (v : jvalue) (self : App)
    : result App :=
  a ← conv v; mret (with_settings (setter a) self).

(** The two caught classes can only come from [open] and [json.load],
    before any attribute is written, so the handler resumes from the
    state at entry. *)
Definition load_settings (file : settings_file) (self : App) : result App :=
  try_except
    (if path_exists file then
       settings ← json_load file;
       self ← load_field "interval_minutes" settings
                (via IntVar_set set_interval_minutes) self;
       self ← load_field "quiet_enabled" settings
                (via BooleanVar_set set_quiet_enabled) self;
       self ← load_field "quiet_start" settings
                (via StringVar_set set_quiet_start) self;
       self ← load_field "quiet_end" settings
                (via StringVar_set set_quiet_end) self;
       self ← load_field "theme" settings load_theme self;
       self ← load_field "custom_message" settings
                (via StringVar_set set_custom_message) self;
       self ← load_field "popup_timeout_seconds" settings
                (via IntVar_set set_popup_timeout_seconds) self;
       self ← load_field "popup_persistent" settings
                (via BooleanVar_set set_popup_persistent) self;
       load_field "sound_enabled" settings
         (via BooleanVar_set set_sound_enabled) self
     else mret self)
    [JSONDecodeError; IOError]
    (mret self).

(** The dict that [save_settings] dumps. *)
Definition settings_dict (self : App) : gmap string jvalue :=
  let s := settings self in
  <["interval_minutes" := JInt (interval_minutes s)]>
  (<["quiet_enabled" := JBool (quiet_enabled s)]>
  (<["quiet_start" := JStr (quiet_start s)]>
  (<["quiet_end" := JStr (quiet_end s)]>
  (<["theme" := JStr (theme s)]>
  (<["custom_message" := JStr (custom_message s)]>
  (<["popup_timeout_seconds" := JInt (popup_timeout_seconds s)]>
  (<["popup_persistent" := JBool (popup_persistent s)]>
  (<["sound_enabled" := JBool (sound_enabled s)]> ∅)))))))).

(** [save_settings]: the file afterwards. An [IOError] is swallowed. *)
Definition save_settings (self : App) (o : write_outcome)
    (file : settings_file) : settings_file :=
  match o with
  | WriteOk => Json (JObj (settings_dict self))
  | OpenFails => file
  | WriteBreaks => NotJson
  end.

(* ===================================================================== *)
(** ** [__init__] *)
(* ===================================================================== *)

Definition default_settings : Settings :=
  mkSettings 45 false "18:00" "08:00" "light" "Time to Stretch!"
             180 false true.

(** The attributes as [__init__] sets them before [load_settings]. *)
Definition fresh_app : App :=
  mkApp default_settings
        (mkSession false false 0 None 0 None None breathing)
        light_palette
        (mkTk [] [] 0 []).

Definition init (file : settings_file) : result App :=
  load_settings file fresh_app.

(* ===================================================================== *)
(** ** The rest of the UI callbacks *)
(* ===================================================================== *)

Definition toggle_theme (self : App) : App :=
  let t := if String.eqb (theme (settings self)) "light"
           then "dark" else "light" in
  let self := with_settings (set_theme t) self in
  match THEMES !! t with
  | Some c => set_colors c self
  | None => self
  end.

(* ===================================================================== *)
(** ** The running program: interleaved events *)
(* ===================================================================== *)

Record World : Type := mkWorld {
  self : App;
  file : settings_file
}.

(** What can happen next. The countdown thread contributes [EvTick]; the
    rest are the UI thread's: the event loop running a due callback, time
    passing, and the user's actions. Writing a field of the settings is
    what the widget bound to the variable does; the callbacks that save
    carry the outcome of the write. *)
Inductive Event : Type :=
  | EvTick (now : time)
  | EvIdle (d : Draws)
  | EvElapse (ms : Z)
  | EvToggleTimer (now : Z)
  | EvTogglePause
  | EvNow (d : Draws)
  | EvDone (id : nat)
  | EvToggleTheme (o : write_outcome)
  | EvSetInterval (n : Z)
  | EvUpdateInterval (o : write_outcome)
  | EvSetQuietEnabled (b : bool)
  | EvSetQuietStart (s : string)
  | EvSetQuietEnd (s : string)
  | EvSetPopupTimeout (n : Z)
  | EvSetPersistent (b : bool) (o : write_outcome)
  | EvSetSound (b : bool) (o : write_outcome)
  | EvSave (o : write_outcome).

Definition on_app (f : App -> App) (w : World) : World :=
  mkWorld (f (self w)) (file w).

Definition then_save (o : write_outcome) (w : World) : World :=
  mkWorld (self w) (save_settings (self w) o (file w)).

Definition step (pf : Platform) (ev : Event) (w : World) : result World :=
  match ev with
  | EvTick now =>
      a ← timer_loop_body now (self w); mret (mkWorld a (file w))
  | EvIdle d => mret (on_app (run_due pf d) w)
  | EvElapse ms =>
      mret (on_app (with_root (fun tk =>
              set_clock (clock tk + Z.max 0 ms) tk)) w)
  | EvToggleTimer now => mret (on_app (toggle_timer now) w)
  | EvTogglePause =>
      (* the Pause button is enabled only while the timer runs *)
      if running (session (self w)) then mret (on_app toggle_pause w)
      else mret w
  | EvNow d => mret (on_app (trigger_stretch pf d) w)
  | EvDone id => mret (on_app (with_root (close_popup Dismissed id)) w)
  | EvToggleTheme o => mret (then_save o (on_app toggle_theme w))
  | EvSetInterval n =>
      mret (on_app (with_settings (set_interval_minutes n)) w)
  | EvUpdateInterval o => mret (then_save o w)
  | EvSetQuietEnabled b =>
      mret (on_app (with_settings (set_quiet_enabled b)) w)
  | EvSetQuietStart s => mret (on_app (with_settings (set_quiet_start s)) w)
  | EvSetQuietEnd s => mret (on_app (with_settings (set_quiet_end s)) w)
  | EvSetPopupTimeout n =>
      mret (on_app (with_settings (set_popup_timeout_seconds n)) w)
  | EvSetPersistent b o =>
      mret (then_save o (on_app (with_settings (set_popup_persistent b)) w))
  | EvSetSound b o =>
      mret (then_save o (on_app (with_settings (set_sound_enabled b)) w))
  | EvSave o => mret (then_save o w)
  end.

Fixpoint run (pf : Platform) (evs : list Event) (w : World) : result World :=
  match evs with
  | [] => mret w
  | ev :: evs' => w' ← step pf ev w; run pf evs' w'
  end.

(* ===================================================================== *)
(** ** Vocabulary of the properties *)
(* ===================================================================== *)

(** Whether a string is accepted as ["HH:MM"]. *)
Definition parses (s : string) : bool :=
  match strptime_HM s with Ok _ => true | _ => false end.

(** The two-digit rendering of [f"{h:02d}:{m:02d}"], for [0 <= h, m < 100]. *)
Definition digit_char (n : Z) : ascii := ascii_of_nat (Z.to_nat (48 + n)).

Definition two_digits (n : Z) : string :=
  String (digit_char (n / 10)) (String (digit_char (n mod 10)) EmptyString).

Definition hhmm (h m : Z) : string := two_digits h ++ ":" ++ two_digits m.

(** The suppression window on the day's line, as the specification words
    it: a closed interval when [start <= end], and from [start] through
    midnight to [end] otherwise. *)
Definition in_window (start end_ now : time) : bool :=
  if of_midnight start <=? of_midnight end_
  then ((of_midnight start <=? of_midnight now)
        && (of_midnight now <=? of_midnight end_))%bool
  else ((of_midnight start <=? of_midnight now)
        || (of_midnight now <=? of_midnight end_))%bool.

(** The secondary types of the popups shown so far, oldest first. *)
Definition shown_types (self : App) : list secondary_type :=
  map popup_secondary_type (toplevels (root self)).

(** Neighbours differ. *)
Fixpoint alternates (l : list secondary_type) : Prop :=
  match l with
  | a :: (b :: _) as l' => a <> b /\ alternates l'
  | _ => True
  end.

(** The other secondary type. *)
Definition other_type (t : secondary_type) : secondary_type :=
  match t with eye => breathing | breathing => eye end.

(** [eye, breathing, eye, ...]: the type at position [i], from 0. *)
Definition nth_type (i : nat) : secondary_type :=
  if Nat.even i then eye else breathing.

(** The first [n] of them. *)
Definition eye_first (n : nat) : list secondary_type :=
  map nth_type (List.seq 0 n).

(** Consecutive calls of [trigger_stretch], one per element of [ds]. *)
Definition trigger_many (pf : Platform) (ds : list Draws) (self : App) : App :=
  fold_left (fun a d => trigger_stretch pf d a) ds self.

(** The catalog a secondary exercise of type [ty] is drawn from. *)
Definition catalog_of (ty : secondary_type) : list Exercise :=
  match ty with eye => EYE_EXERCISES | breathing => BREATHING_EXERCISES end.

(** The popup one call of [trigger_stretch] opens. *)
Definition popup_of (d : Draws) (self : App) : Popup :=
  let ty := other_type (last_secondary_type (session self)) in
  mkPopup (length (toplevels (root self)))
          (custom_message (settings self))
          (choice STRETCHES (draw_stretch d))
          (choice (catalog_of ty) (draw_secondary d))
          ty
          (stretch_count (session self) + 1)
          Shown.

(** One iteration of [timer_loop], given the answer of [is_quiet_hours]. *)
Definition tick_with (quiet : bool) (self : App) : App :=
  if (running (session self) && negb (paused (session self)))%bool then
    if remaining_seconds (session self) <=? 0 then
      with_remaining_seconds (interval_minutes (settings self) * 60)
        (if quiet then self else with_root (after 0 CbTrigger) self)
    else
      with_remaining_seconds (remaining_seconds (session self) - 1) self
  else self.

(** What the popups show, oldest first: the secondary type and the
    secondary exercise. *)
Definition reminders (self : App) : list (secondary_type * Exercise) :=
  map (fun p => (popup_secondary_type p, popup_secondary p))
      (toplevels (root self)).

(** The state of an application whose popups, from the first, went eye,
    breathing, eye, ..., each with an exercise of its catalog, and whose
    [last_secondary_type] is that of the latest. *)
Definition eye_first_state (self : App) : Prop :=
  let n := length (reminders self) in
  map fst (reminders self) = eye_first n /\
  last_secondary_type (session self) = other_type (nth_type n) /\
  Forall (fun r => In (snd r) (catalog_of (fst r))) (reminders self).

(** Window identifiers are positions and every pending auto-close is for
    a window that exists; moreover, if [watched] names a window, it
    exists, no auto-close is pending for it, and its state satisfies [P].
    Stated on the window list and the pending callbacks. *)
Definition window_kept (P : PopupState -> Prop) (watched : option nat)
    (tls : list Popup) (tms : list Timer) : Prop :=
  (forall (i : nat) (p : Popup), tls !! i = Some p -> popup_id p = i) /\
  (forall (t : Timer) (j : nat),
      In t tms -> action t = CbClose j ->
      (j < length tls)%nat /\ watched <> Some j) /\
  (forall id : nat, watched = Some id ->
      exists p, tls !! id = Some p /\ P (popup_state p)).

(** The same, for an application. *)
Definition popup_kept (P : PopupState -> Prop) (watched : option nat)
    (self : App) : Prop :=
  window_kept P watched (toplevels (root self)) (timers (root self)).

(** The toolkit is consistent: no window is watched. *)
Definition tk_ok (tk : Tk) : Prop :=
  window_kept (fun _ => True) None (toplevels tk) (timers tk).

(** The timer that [show_stretch_popup] registers when the popup is not
    persistent. *)
Definition auto_close (self : App) : Timer :=
  mkTimer (clock (root self)
           + Z.max 0 (popup_timeout_seconds (settings self) * 1000))
          (CbClose (length (toplevels (root self)))).

(** The auto-close [t0] of window [id] is in force. Window identifiers
    are positions, [t0] is the only close registered for [id], and the
    window is on screen with [t0] pending, or it was timed out, which
    happens no sooner than [t0] is due, or, where [may_dismiss] allows
    for it, it was dismissed. Stated on the window list, the pending
    callbacks and the clock. *)
Definition close_scheduled (may_dismiss : bool) (t0 : Timer) (id : nat)
    (tls : list Popup) (tms : list Timer) (clk : Z) : Prop :=
  (forall (i : nat) (p : Popup), tls !! i = Some p -> popup_id p = i) /\
  (forall t : Timer, In t tms -> action t = CbClose id -> t = t0) /\
  exists p : Popup,
    tls !! id = Some p /\
    match popup_state p with
    | Shown => In t0 tms
    | TimedOut => due t0 <= clk
    | Dismissed => may_dismiss = true
    end.

(** The same, for an application. *)
Definition closes (may_dismiss : bool) (t0 : Timer) (id : nat)
    (self : App) : Prop :=
  close_scheduled may_dismiss t0 id
    (toplevels (root self)) (timers (root self)) (clock (root self)).

(** A fresh application showing its first popup, which is not
    persistent. *)
Definition fresh_shown : App :=
  show_stretch_popup (choice STRETCHES 0) (choice EYE_EXERCISES 0) eye
    fresh_app.

(** A fresh application with persistent popups, and the same showing its
    first popup. *)
Definition persistent_app : App :=
  with_settings (set_popup_persistent true) fresh_app.

Definition persistent_shown : App :=
  show_stretch_popup (choice STRETCHES 0) (choice EYE_EXERCISES 0) eye
    persistent_app.

(** A one-minute timer, just started, quiet hours off. *)
Definition one_minute_app : App :=
  start_timer 0 (with_settings (set_interval_minutes 1) fresh_app).

(** The ranges of section 3 of the specification. *)
Definition valid_settings (s : Settings) : Prop :=
  1 <= interval_minutes s <= 120 /\
  parses (quiet_start s) = true /\
  parses (quiet_end s) = true /\
  (theme s = "light" \/ theme s = "dark") /\
  10 <= popup_timeout_seconds s <= 300.

(** Reading a partial record: the value under [key] if there is one of
    the field's type, and the value held before otherwise. *)
Definition int_field (m : gmap string jvalue) (key : string) (held : Z) : Z :=
  match m !! key with Some (JInt n) => n | _ => held end.

Definition bool_field (m : gmap string jvalue) (key : string) (held : bool)
    : bool :=
  match m !! key with Some (JBool b) => b | _ => held end.

Definition str_field (m : gmap string jvalue) (key : string) (held : string)
    : string :=
  match m !! key with Some (JStr s) => s | _ => held end.

Definition merged (m : gmap string jvalue) (s : Settings) : Settings :=
  mkSettings
    (int_field m "interval_minutes" (interval_minutes s))
    (bool_field m "quiet_enabled" (quiet_enabled s))
    (str_field m "quiet_start" (quiet_start s))
    (str_field m "quiet_end" (quiet_end s))
    (str_field m "theme" (theme s))
    (str_field m "custom_message" (custom_message s))
    (int_field m "popup_timeout_seconds" (popup_timeout_seconds s))
    (bool_field m "popup_persistent" (popup_persistent s))
    (bool_field m "sound_enabled" (sound_enabled s)).

Definition is_int (v : jvalue) : Prop := exists n, v = JInt n.
Definition is_bool (v : jvalue) : Prop := exists b, v = JBool b.
Definition is_str (v : jvalue) : Prop := exists s, v = JStr s.
Definition is_theme (v : jvalue) : Prop := v = JStr "light" \/ v = JStr "dark".

(** A record, possibly partial, whose present fields hold values of the
    types of section 3 of the specification. *)
Definition typed_record (m : gmap string jvalue) : Prop :=
  (forall v, m !! "interval_minutes" = Some v -> is_int v) /\
  (forall v, m !! "quiet_enabled" = Some v -> is_bool v) /\
  (forall v, m !! "quiet_start" = Some v -> is_str v) /\
  (forall v, m !! "quiet_end" = Some v -> is_str v) /\
  (forall v, m !! "theme" = Some v -> is_theme v) /\
  (forall v, m !! "custom_message" = Some v -> is_str v) /\
  (forall v, m !! "popup_timeout_seconds" = Some v -> is_int v) /\
  (forall v, m !! "popup_persistent" = Some v -> is_bool v) /\
  (forall v, m !! "sound_enabled" = Some v -> is_bool v).

(** Two applications that differ at most in their settings and colours. *)
Definition same_run (a b : App) : Prop :=
  session a = session b /\ root a = root b.

(** [0 <= remaining_seconds <= interval_minutes * 60]. *)
Definition within_interval (self : App) : Prop :=
  0 <= remaining_seconds (session self)
    <= interval_minutes (settings self) * 60.

(** [raised_only cur evs]: no interval change in [evs] picks a value below
    the one configured before it ([cur] at the start). *)
Fixpoint raised_only (cur : Z) (evs : list Event) : Prop :=
  match evs with
  | [] => True
  | EvSetInterval n :: evs' => cur <= n /\ raised_only n evs'
  | _ :: evs' => raised_only cur evs'
  end.

Definition is_trigger (t : Timer) : bool :=
  match action t with CbTrigger => true | CbClose _ => false end.

(** The trigger requests among the pending callbacks. *)
Definition pending_triggers (self : App) : nat :=
  length (List.filter is_trigger (timers (root self))).

Definition no_plyer : Platform := mkPlatform false.

Definition noon : time := mk_time 12 0 0 0.

(** A fresh application with quiet hours switched on from 22:00 to
    06:00. *)
Definition night_app : App :=
  with_settings (fun s =>
    set_quiet_end "06:00" (set_quiet_start "22:00" (set_quiet_enabled true s)))
    fresh_app.

(** A timer started at night whose countdown has reached zero. *)
Definition expired_at_night : World :=
  mkWorld (with_remaining_seconds 0 (start_timer 0 night_app)) NoFile.

Definition time_eqb (a b : time) : bool :=
  ((hour a =? hour b) && (minute a =? minute b)
   && (second a =? second b) && (microsecond a =? microsecond b))%bool.

(** [hhmm h m] is read back as [h:m]. *)
Definition reads_back (h m : nat) : bool :=
  match strptime_HM (hhmm (Z.of_nat h) (Z.of_nat m)) with
  | Ok t => time_eqb t (mk_time (Z.of_nat h) (Z.of_nat m) 0 0)
  | _ => false
  end.

(* ===================================================================== *)
(** ** More of the program, and the vocabulary of its properties *)
(* ===================================================================== *)

(** [on_close]: the loop is told to end and the settings are saved; the
    window and its popups then go with [root.destroy()]. *)
Definition on_close (o : write_outcome) (w : World) : World :=
  let a := with_session (set_running false) (self w) in
  mkWorld a (save_settings a o (file w)).

(** *** [play_notification_sound] *)

(** What the function depends on: [sys.platform], whether [winsound] was
    imported, and which of the calls it makes raise. *)
Record SoundEnv : Type := mkSoundEnv {
  sys_platform : string;
  HAS_WINSOUND : bool;
  PlaySound_raises : bool;
  Popen_raises : list string -> bool;
  bell_raises : bool
}.

(** What was made to sound. *)
Inductive Played : Type :=
  | SystemExclamation
  | Launched (cmd : list string)
  | Bell.

Definition sound_commands : list (list string) :=
  [ ["paplay"; "/usr/share/sounds/freedesktop/stereo/complete.oga"];
    ["paplay"; "/usr/share/sounds/freedesktop/stereo/bell.oga"];
    ["aplay"; "/usr/share/sounds/freedesktop/stereo/complete.oga"];
    ["canberra-gtk-play"; "-i"; "complete"];
    ["canberra-gtk-play"; "-i"; "bell"] ].

(** [for cmd in sound_commands: try: Popen(cmd); return True
    except (FileNotFoundError, OSError): continue]. *)
Fixpoint try_commands (env : SoundEnv) (cmds : list (list string))
    : option (list string) :=
  match cmds with
  | [] => None
  | cmd :: rest =>
      if Popen_raises env cmd then try_commands env rest else Some cmd
  end.

(** The fallback: [if root: try: root.bell(); return True], then
    [return False]. *)
Definition bell_fallback (env : SoundEnv) (root : bool)
    : bool * list Played :=
  if root then
    if bell_raises env then (false, []) else (true, [Bell])
  else (false, []).

(** The value returned, and what was played. [root] says whether a root
    window was passed. *)
Definition play_notification_sound (env : SoundEnv) (root : bool)
    : bool * list Played :=
  if (String.eqb (sys_platform env) "win32" && HAS_WINSOUND env)%bool then
    if PlaySound_raises env then bell_fallback env root
    else (true, [SystemExclamation])
  else if String.prefix "linux" (sys_platform env) then
    match try_commands env sound_commands with
    | Some cmd => (true, [Launched cmd])
    | None => bell_fallback env root
    end
  else bell_fallback env root.

(** *** The texts on display *)

(** [f"{n:02d}"]. *)
Definition fmt_02d (n : Z) : string :=
  if ((0 <=? n) && (n <? 10))%bool then "0" ++ pretty n else pretty n.

(** The text [timer_loop] puts on the timer label. *)
Definition timer_text (remaining : Z) : string :=
  let mins := remaining / 60 in
  let secs := remaining mod 60 in
  fmt_02d mins ++ ":" ++ fmt_02d secs.

(** The text [stop_timer] and [update_interval] put there. *)
Definition stopped_text (interval : Z) : string := fmt_02d interval ++ ":00".

(** The text of [update_stats], from [int(elapsed)]. *)
Definition duration_text (elapsed : Z) : string :=
  let hours := elapsed / 3600 in
  let remainder := elapsed mod 3600 in
  let minutes := remainder / 60 in
  let seconds := remainder mod 60 in
  if 0 <? hours then pretty hours ++ ":" ++ fmt_02d minutes
  else pretty minutes ++ ":" ++ fmt_02d seconds.

(** [update_stats] at time [now] (seconds): the new text of the duration
    label, [shown] being the old one. *)
Definition update_stats (now : Z) (a : App) (shown : string) : string :=
  match start_time (session a) with
  | Some t => duration_text (now - t)
  | None => shown
  end.

(** *** The controls of the main window *)

(** The widgets that the timer callbacks configure. *)
Record Controls : Type := mkControls {
  start_btn_text : string;
  pause_btn_text : string;
  pause_btn_enabled : bool;
  status_text : string;
  count_text : string
}.

(** As [setup_ui] creates them. *)
Definition initial_controls : Controls :=
  mkControls "Start" "Pause" false "Ready to start" "0".

Definition start_timer_controls (c : Controls) : Controls :=
  mkControls "Stop" (pause_btn_text c) true "Timer running..." (count_text c).

Definition stop_timer_controls (c : Controls) : Controls :=
  mkControls "Start" "Pause" false "Timer stopped" (count_text c).

(** [toggle_pause], [paused] being the flag after the toggle. *)
Definition toggle_pause_controls (paused : bool) (c : Controls) : Controls :=
  if paused
  then mkControls (start_btn_text c) "Resume" (pause_btn_enabled c)
                  "Paused" (count_text c)
  else mkControls (start_btn_text c) "Pause" (pause_btn_enabled c)
                  "Timer running..." (count_text c).

(** [trigger_stretch]: [count_value] shows the counter after the
    increment. *)
Definition trigger_stretch_controls (a : App) (c : Controls) : Controls :=
  mkControls (start_btn_text c) (pause_btn_text c) (pause_btn_enabled c)
             (status_text c) (pretty (stretch_count (session a) + 1)).

(** Whether the event loop is about to run a reminder. *)
Definition trigger_is_due (a : App) : bool :=
  match timers (root a) with
  | t :: _ =>
      ((due t <=? clock (root a))
       && match action t with CbTrigger => true | CbClose _ => false end)%bool
  | [] => false
  end.

(** One event, on the program and its controls. A click on a disabled
    button does nothing. *)
Definition ui_step (pf : Platform) (ev : Event) (wc : World * Controls)
    : result (World * Controls) :=
  let '(w, c) := wc in
  match ev with
  | EvToggleTimer now =>
      if running (session (self w))
      then mret (on_app stop_timer w, stop_timer_controls c)
      else mret (on_app (start_timer now) w, start_timer_controls c)
  | EvTogglePause =>
      if pause_btn_enabled c
      then mret (on_app toggle_pause w,
                 toggle_pause_controls (negb (paused (session (self w)))) c)
      else mret (w, c)
  | EvNow d =>
      mret (on_app (trigger_stretch pf d) w,
            trigger_stretch_controls (self w) c)
  | EvIdle d =>
      mret (on_app (run_due pf d) w,
            if trigger_is_due (self w)
            then trigger_stretch_controls (self w) c else c)
  | _ => w' ← step pf ev w; mret (w', c)
  end.

Fixpoint ui_run (pf : Platform) (evs : list Event) (wc : World * Controls)
    : result (World * Controls) :=
  match evs with
  | [] => mret wc
  | ev :: evs' => wc' ← ui_step pf ev wc; ui_run pf evs' wc'
  end.

(** The controls say what the timer does. *)
Definition controls_agree (a : App) (c : Controls) : Prop :=
  pause_btn_enabled c = running (session a) /\
  start_btn_text c = (if running (session a) then "Stop" else "Start") /\
  pause_btn_text c = (if paused (session a) then "Resume" else "Pause") /\
  (paused (session a) = true -> running (session a) = true) /\
  (running (session a) = true ->
   status_text c = if paused (session a) then "Paused"
                   else "Timer running...") /\
  (running (session a) = false ->
   status_text c = "Ready to start" \/ status_text c = "Timer stopped").

(** What the controls show depends on [running], [paused] and the
    popups' numbers only. *)
Definition shows (a : App) (c : Controls) : Prop :=
  controls_agree a c /\
  count_text c = pretty (List.last (map popup_count (toplevels (root a))) 0).

(** [self.colors] is the palette of [self.theme]. *)
Definition theme_ok (a : App) : Prop :=
  THEMES !! theme (settings a) = Some (colors a).

(** The exercises on display in the main window: none yet, or a stretch
    of the catalog with a secondary exercise of the catalog that
    [last_secondary_type] names. *)
Definition current_ok (a : App) : Prop :=
  match current_stretch (session a),
        current_secondary_exercise (session a) with
  | None, None => True
  | Some st, Some sec =>
      In st STRETCHES /\
      In sec (catalog_of (last_secondary_type (session a)))
  | _, _ => False
  end.

(** The counter is between zero and the number of popups ever shown, and
    every popup carries a number from one up. *)
Definition counted (a : App) : Prop :=
  0 <= stretch_count (session a) /\
  stretch_count (session a) <= Z.of_nat (length (toplevels (root a))) /\
  Forall (fun p => 1 <= popup_count p) (toplevels (root a)).

(** [p'] is the window [p] later on: what it displays is the same, and if
    [p] had left the screen, [p'] has left it the same way. *)
Definition later_popup (p p' : Popup) : Prop :=
  popup_id p' = popup_id p /\
  popup_message p' = popup_message p /\
  popup_stretch p' = popup_stretch p /\
  popup_secondary p' = popup_secondary p /\
  popup_secondary_type p' = popup_secondary_type p /\
  popup_count p' = popup_count p /\
  (popup_state p <> Shown -> popup_state p' = popup_state p).

(** Every window of [tl] is still in [tl'], at its place. *)
Definition grown (tl tl' : list Popup) : Prop :=
  forall (i : nat) (p : Popup),
    tl !! i = Some p -> exists p', tl' !! i = Some p' /\ later_popup p p'.

Definition is_sound (e : Effect) : bool :=
  match e with Sound => true | Notify _ _ => false end.

Definition sounds (a : App) : nat :=
  length (List.filter is_sound (log (root a))).

Definition notifications (a : App) : nat :=
  length (List.filter (fun e => negb (is_sound e)) (log (root a))).

(** Since a state with [l0] popups, [n0] notifications and [s0] sounds,
    [k] reminders were shown: each with a notification if the library is
    there, each with at most one sound. *)
Definition tallied (pf : Platform) (l0 n0 s0 : nat) (a : App) : Prop :=
  exists k : nat,
    length (toplevels (root a)) = (l0 + k)%nat /\
    notifications a = (n0 + (if HAS_PLYER pf then k else 0))%nat /\
    (sounds a <= s0 + k)%nat.

(** The sound is off and [n0] sounds were played. *)
Definition muted (n0 : nat) (a : App) : Prop :=
  sound_enabled (settings a) = false /\ sounds a = n0.

(** A settings file that is the one found at startup, or what a write of
    the program left. *)
Definition left_behind (f0 f : settings_file) : Prop :=
  f = f0 \/ f = NotJson \/
  exists a, theme_ok a /\ f = Json (JObj (settings_dict a)).

(** The keys [load_settings] looks for. *)
Definition SETTINGS_KEYS : list string :=
  ["interval_minutes"; "quiet_enabled"; "quiet_start"; "quiet_end";
   "theme"; "custom_message"; "popup_timeout_seconds"; "popup_persistent";
   "sound_enabled"].

(** The application with the two quiet-hours strings exchanged. *)
Definition swap_quiet (a : App) : App :=
  with_settings (fun s =>
    set_quiet_end (quiet_start s) (set_quiet_start (quiet_end s) s)) a.

(** Popups do not stay: the persistent mode is off, and every popup on
    screen has its auto-close pending. *)
Definition closing (a : App) : Prop :=
  popup_persistent (settings a) = false /\
  forall p : Popup,
    In p (toplevels (root a)) -> popup_state p = Shown ->
    exists t : Timer,
      In t (timers (root a)) /\ action t = CbClose (popup_id p).

(** The event does not turn the persistent mode on. *)
Definition leaves_persistent_off (ev : Event) : bool :=
  match ev with
  | EvSetPersistent true _ => false
  | _ => true
  end.

(** A window after a click on its Done button. *)
Definition dismissed (p : Popup) : Popup :=
  match popup_state p with
  | Shown => set_popup_state Dismissed p
  | _ => p
  end.

(** Whether the lookups of [load_settings] fail on a value that is no
    record: [key in v] raises on a value that is no container; on an
    array or a string it answers, and [v[key]] raises as soon as the
    answer is yes for one of the keys, that is, when a key is an element
    of the array, or occurs in the string. *)
Definition trips_lookup (v : jvalue) : bool :=
  match v with
  | JNull | JBool _ | JInt _ => true
  | JArr l =>
      existsb (fun key =>
                 existsb (fun x => match x with
                                   | JStr s => String.eqb s key
                                   | _ => false
                                   end) l)
              SETTINGS_KEYS
  | JStr s => existsb (fun key => contains_str key s) SETTINGS_KEYS
  | JObj _ => false
  end.

(** *** The countdown threads *)

(** [start_timer] starts a thread on [timer_loop], and [stop_timer] only
    clears [running]: a thread leaves the loop when it next evaluates
    [while self.running]. The program, with the number of threads that
    are in the loop. *)
Record Threaded : Type := mkThreaded {
  world : World;
  loops : nat
}.

(** One event. [EvTick] is a thread of the loop evaluating the loop
    condition: it leaves the loop, or runs the body and sleeps. Without
    a thread in the loop there is no such event. *)
Definition thread_step (pf : Platform) (ev : Event) (t : Threaded)
    : result Threaded :=
  match ev with
  | EvTick now =>
      match loops t with
      | O => mret t
      | S n =>
          if running (session (self (world t)))
          then w ← step pf ev (world t); mret (mkThreaded w (loops t))
          else mret (mkThreaded (world t) n)
      end
  | EvToggleTimer _ =>
      w ← step pf ev (world t);
      mret (mkThreaded w
              (if running (session (self (world t))) then loops t
               else S (loops t)))
  | _ => w ← step pf ev (world t); mret (mkThreaded w (loops t))
  end.

Fixpoint thread_run (pf : Platform) (evs : list Event) (t : Threaded)
    : result Threaded :=
  match evs with
  | [] => mret t
  | ev :: evs' => t' ← thread_step pf ev t; thread_run pf evs' t'
  end.

(** Stop and Start again, at each of the given times, before a thread of
    the loop looks at [running]. *)
Definition restarts (ts : list Z) : list Event :=
  flat_map (fun now => [EvToggleTimer now; EvToggleTimer now]) ts.

(** Just started again: running, not paused, the full interval ahead. *)
Definition restarted (i : Z) (t : Threaded) : Prop :=
  running (session (self (world t))) = true /\
  paused (session (self (world t))) = false /\
  interval_minutes (settings (self (world t))) = i /\
  remaining_seconds (session (self (world t))) = i * 60.

(* ===================================================================== *)
(** * Properties *)
(* ===================================================================== *)

(** Records are opened into their fields so that projections of updated
    records compute. *)
Ltac open_app a :=
  destruct a as [[? ? ? ? ? ? ? ? ?] [? ? ? ? ? ? ? ?] ? [? ? ? ?]].

Ltac open_world w :=
  let a := fresh "a" in destruct w as [a ?]; open_app a.

Ltac split_ifs :=
  repeat match goal with
         | |- context [if ?b then _ else _] => destruct b eqn:?
         end.

(** ** Quiet hours *)

Section QuietHours.

Lemma is_digit_val (c : ascii) :
  is_digit c = true -> 0 <= digit_val c <= 9.
Proof.
  unfold is_digit, digit_val. cbv zeta.
  rewrite andb_true_iff, !Nat.leb_le. lia.
Qed.

Lemma in_range_val (c lo hi : ascii) :
  in_range c lo hi = true -> digit_val lo <= digit_val c <= digit_val hi.
Proof.
  unfold in_range, digit_val.
  rewrite andb_true_iff, !Nat.leb_le. lia.
Qed.

Lemma re_H_range (s : list ascii) (h : Z) (r : list ascii) :
  In (h, r) (re_H s) -> 0 <= h < 24.
Proof.
  destruct s as [|c1 [|c2 s]]; simpl.
  - tauto.
  - destruct (is_digit c1) eqn:D1; simpl; [|tauto].
    intros [[= <- _]|[]]. apply is_digit_val in D1. lia.
  - rewrite !in_app_iff. intros [H|[H|H]].
    + destruct (Ascii.eqb c1 "2" && in_range c2 "0" "3")%bool eqn:E;
        simpl in H; [|tauto].
      destruct H as [[= <- _]|[]].
      apply andb_true_iff in E as [_ E]. apply in_range_val in E.
      change (digit_val "0") with 0 in E. change (digit_val "3") with 3 in E.
      lia.
    + destruct (in_range c1 "0" "1" && is_digit c2)%bool eqn:E;
        simpl in H; [|tauto].
      destruct H as [[= <- _]|[]].
      apply andb_true_iff in E as [E1 E2].
      apply in_range_val in E1. apply is_digit_val in E2.
      change (digit_val "0") with 0 in E1.
      change (digit_val "1") with 1 in E1. lia.
    + destruct (is_digit c1) eqn:D1; simpl in H; [|tauto].
      destruct H as [[= <- _]|[]]. apply is_digit_val in D1. lia.
Qed.

Lemma re_M_range (s : list ascii) (m : Z) (r : list ascii) :
  In (m, r) (re_M s) -> 0 <= m < 60.
Proof.
  destruct s as [|c1 [|c2 s]]; simpl.
  - tauto.
  - destruct (is_digit c1) eqn:D1; simpl; [|tauto].
    intros [[= <- _]|[]]. apply is_digit_val in D1. lia.
  - rewrite in_app_iff. intros [H|H].
    + destruct (in_range c1 "0" "5" && is_digit c2)%bool eqn:E;
        simpl in H; [|tauto].
      destruct H as [[= <- _]|[]].
      apply andb_true_iff in E as [E1 E2].
      apply in_range_val in E1. apply is_digit_val in E2.
      change (digit_val "0") with 0 in E1.
      change (digit_val "5") with 5 in E1. lia.
    + destruct (is_digit c1) eqn:D1; simpl in H; [|tauto].
      destruct H as [[= <- _]|[]]. apply is_digit_val in D1. lia.
Qed.

Lemma re_HM_range (s : list ascii) (h m : Z) (r : list ascii) :
  In (h, m, r) (re_HM s) -> 0 <= h < 24 /\ 0 <= m < 60.
Proof.
  unfold re_HM. rewrite in_flat_map. intros [[h' r'] [HH HM]].
  destruct r' as [|c r']; [destruct HM|].
  destruct (Ascii.eqb c ":"); [|destruct HM].
  apply in_map_iff in HM as [[m' r''] [[= -> -> ->] HM]].
  split; [eapply re_H_range | eapply re_M_range]; eassumption.
Qed.

(** A parsed time is a time of day on the minute. *)
Lemma strptime_HM_valid (s : string) (t : time) :
  strptime_HM s = Ok t ->
  valid_time t /\ second t = 0 /\ microsecond t = 0.
Proof.
  unfold strptime_HM.
  destruct (re_HM (list_ascii_of_string s)) as [|[[h m] r] l] eqn:E;
    [discriminate|].
  destruct r; [|discriminate]. intros [= <-].
  assert (In (h, m, []) (re_HM (list_ascii_of_string s))) as HIn
    by (rewrite E; left; reflexivity).
  apply re_HM_range in HIn. unfold valid_time; simpl. lia.
Qed.

(** The parser raises nothing but [ValueError]. *)
Lemma strptime_HM_cases (s : string) :
  (exists t, strptime_HM s = Ok t) \/ strptime_HM s = Raise ValueError.
Proof.
  unfold strptime_HM.
  destruct (re_HM (list_ascii_of_string s)) as [|[[h m] [|c r]] l]; eauto.
Qed.

Lemma parses_false (s : string) :
  parses s = false -> strptime_HM s = Raise ValueError.
Proof.
  unfold parses. destruct (strptime_HM_cases s) as [[t ->]| ->];
    [discriminate|reflexivity].
Qed.

(** On times of day, the tuple order is the order of the day's line. *)
Lemma time_le_of_midnight (a b : time) :
  valid_time a -> valid_time b ->
  time_le a b = (of_midnight a <=? of_midnight b).
Proof.
  unfold valid_time, time_le, time_cmp, of_midnight.
  intros Ha Hb.
  destruct (Z.compare_spec (hour a) (hour b));
    [destruct (Z.compare_spec (minute a) (minute b));
       [destruct (Z.compare_spec (second a) (second b));
          [destruct (Z.compare_spec (microsecond a) (microsecond b))|..]
       |..]
    |..];
    symmetry; first [apply Z.leb_le | apply Z.leb_gt]; lia.
Qed.

Lemma time_ge_of_midnight (a b : time) :
  valid_time a -> valid_time b ->
  time_ge a b = (of_midnight b <=? of_midnight a).
Proof.
  unfold valid_time, time_ge, time_cmp, of_midnight.
  intros Ha Hb.
  destruct (Z.compare_spec (hour a) (hour b));
    [destruct (Z.compare_spec (minute a) (minute b));
       [destruct (Z.compare_spec (second a) (second b));
          [destruct (Z.compare_spec (microsecond a) (microsecond b))|..]
       |..]
    |..];
    symmetry; first [apply Z.leb_le | apply Z.leb_gt]; lia.
Qed.

(** [is_quiet_hours] always returns a Boolean. *)
Lemma is_quiet_hours_total (self : App) (now : time) :
  exists b : bool, is_quiet_hours self now = Ok b.
Proof.
  unfold is_quiet_hours.
  destruct (quiet_enabled (settings self)); simpl; [|eauto].
  destruct (strptime_HM_cases (quiet_start (settings self))) as [[s ->]| ->];
    simpl; [|eauto].
  destruct (strptime_HM_cases (quiet_end (settings self))) as [[e ->]| ->];
    simpl; [|eauto].
  destruct (time_le s e); simpl; eauto.
Qed.

(** Disabled quiet hours never suppress. *)
Lemma is_quiet_hours_disabled (self : App) (now : time) :
  quiet_enabled (settings self) = false -> is_quiet_hours self now = Ok false.
Proof. unfold is_quiet_hours. intros ->. reflexivity. Qed.

(** C1: with quiet hours enabled and both strings accepted as "HH:MM",
    [is_quiet_hours] returns, for every time of day [now], whether [now]
    lies in the window: between start and end, both included, when
    start <= end, and at or after start or at or before end when the
    window wraps midnight. *)
Theorem quiet_hours_window (self : App) (now start end_ : time) :
  quiet_enabled (settings self) = true ->
  strptime_HM (quiet_start (settings self)) = Ok start ->
  strptime_HM (quiet_end (settings self)) = Ok end_ ->
  valid_time now ->
  is_quiet_hours self now = Ok (in_window start end_ now).
Proof.
  intros He Hs Hend Hnow.
  destruct (strptime_HM_valid _ _ Hs) as [Vs _].
  destruct (strptime_HM_valid _ _ Hend) as [Ve _].
  unfold is_quiet_hours, in_window. rewrite He, Hs, Hend. simpl.
  rewrite (time_le_of_midnight start end_), (time_le_of_midnight start now),
    (time_le_of_midnight now end_), (time_ge_of_midnight now start)
    by assumption.
  destruct (of_midnight start <=? of_midnight end_); reflexivity.
Qed.

(** C7: [is_quiet_hours] returns false, and raises nothing, whenever
    quiet hours are disabled and whenever the start or the end string is
    not accepted as "HH:MM", whatever the current time. *)
Theorem quiet_hours_fail_open (self : App) (now : time) :
  quiet_enabled (settings self) = false \/
  parses (quiet_start (settings self)) = false \/
  parses (quiet_end (settings self)) = false ->
  is_quiet_hours self now = Ok false.
Proof.
  intros [Hd|Hp]; [apply is_quiet_hours_disabled; assumption|].
  unfold is_quiet_hours.
  destruct (quiet_enabled (settings self)); [simpl|reflexivity].
  destruct Hp as [Hp|Hp]; apply parses_false in Hp.
  - rewrite Hp. reflexivity.
  - rewrite Hp.
    destruct (strptime_HM_cases (quiet_start (settings self)))
      as [[s ->]| ->]; reflexivity.
Qed.

Lemma time_eqb_eq (a b : time) : time_eqb a b = true -> a = b.
Proof.
  unfold time_eqb. rewrite !andb_true_iff, !Z.eqb_eq.
  destruct a, b; simpl. intros [[[-> ->] ->] ->]. reflexivity.
Qed.

(** Every "HH:MM" with [0 <= HH < 24] and [0 <= MM < 60] is accepted, and
    read as that hour and minute. *)
Lemma strptime_HM_hhmm (h m : Z) :
  0 <= h < 24 -> 0 <= m < 60 ->
  strptime_HM (hhmm h m) = Ok (mk_time h m 0 0).
Proof.
  intros Hh Hm.
  assert (forallb (fun h' => forallb (reads_back h') (seq 0 60)) (seq 0 24)
          = true) as Hall by (vm_compute; reflexivity).
  rewrite forallb_forall in Hall.
  assert (In (Z.to_nat h) (seq 0 24)) as Ih by (apply in_seq; lia).
  assert (In (Z.to_nat m) (seq 0 60)) as Im by (apply in_seq; lia).
  specialize (Hall _ Ih). rewrite forallb_forall in Hall.
  specialize (Hall _ Im). unfold reads_back in Hall.
  rewrite !Z2Nat.id in Hall by lia.
  destruct (strptime_HM (hhmm h m)) as [t| |]; try discriminate Hall.
  f_equal. apply time_eqb_eq. assumption.
Qed.

(** The scenario of the specification: 22:00 to 06:00 suppresses at 23:30
    and not at 12:00. *)
Example night_2330 : is_quiet_hours night_app (mk_time 23 30 0 0) = Ok true.
Proof. reflexivity. Qed.

Example night_1200 : is_quiet_hours night_app noon = Ok false.
Proof. reflexivity. Qed.

(** Both ends belong to the window, to the microsecond. *)
Example night_end_included :
  is_quiet_hours night_app (mk_time 6 0 0 0) = Ok true /\
  is_quiet_hours night_app (mk_time 6 0 0 1) = Ok false /\
  is_quiet_hours night_app (mk_time 22 0 0 0) = Ok true /\
  is_quiet_hours night_app (mk_time 21 59 59 999999) = Ok false.
Proof. repeat split; reflexivity. Qed.

Lemma quiet_hours_window_witness :
  is_quiet_hours night_app (mk_time 23 30 0 0) = Ok true.
Proof.
  apply (quiet_hours_window night_app (mk_time 23 30 0 0)
           (mk_time 22 0 0 0) (mk_time 6 0 0 0)).
  - reflexivity.
  - reflexivity.
  - reflexivity.
  - unfold valid_time; simpl; lia.
Defined.

Lemma quiet_hours_fail_open_witness :
  is_quiet_hours
    (with_settings (set_quiet_start "25:00") night_app) (mk_time 23 30 0 0)
  = Ok false.
Proof.
  apply quiet_hours_fail_open.
  right; left. reflexivity.
Defined.

End QuietHours.

(** ** The reminder dispatcher *)

Section Dispatcher.

Variable pf : Platform.

(** The branches of [trigger_stretch] and [show_stretch_popup] are
    decided by four flags; on each combination both sides compute. *)
Ltac by_flags_of self :=
  destruct self as [[? ? ? ? ? ? ? [|] [|]] [? ? ? ? ? ? ? [|]] ? ?];
  reflexivity.

Ltac by_cases_of self := destruct pf as [[|]]; by_flags_of self.

Lemma choice_In (seq : list Exercise) (r : nat) :
  seq <> [] -> In (choice seq r) seq.
Proof.
  intros Hne. unfold choice. apply nth_In.
  apply Nat.mod_upper_bound. destruct seq; [congruence|discriminate].
Qed.

Lemma choice_catalog (ty : secondary_type) (r : nat) :
  In (choice (catalog_of ty) r) (catalog_of ty).
Proof. apply choice_In. destruct ty; discriminate. Qed.

Lemma trigger_stretch_settings (d : Draws) (self : App) :
  settings (trigger_stretch pf d self) = settings self.
Proof.
  by_cases_of self.
Qed.

Lemma trigger_stretch_session (d : Draws) (self : App) :
  session (trigger_stretch pf d self) =
  let ss := session self in
  let ty := other_type (last_secondary_type ss) in
  mkSession (running ss) (paused ss) (stretch_count ss + 1) (start_time ss)
    (interval_minutes (settings self) * 60)
    (Some (choice STRETCHES (draw_stretch d)))
    (Some (choice (catalog_of ty) (draw_secondary d)))
    ty.
Proof.
  by_cases_of self.
Qed.

Lemma trigger_stretch_toplevels (d : Draws) (self : App) :
  toplevels (root (trigger_stretch pf d self)) =
  (toplevels (root self) ++ [popup_of d self])%list.
Proof.
  by_cases_of self.
Qed.

Lemma trigger_stretch_timers (d : Draws) (self : App) :
  timers (root (trigger_stretch pf d self)) =
  if popup_persistent (settings self) then timers (root self)
  else insert_timer (auto_close self) (timers (root self)).
Proof. by_cases_of self. Qed.

Lemma show_stretch_popup_toplevels (st sec : Exercise) (ty : secondary_type)
    (self : App) :
  toplevels (root (show_stretch_popup st sec ty self)) =
  (toplevels (root self) ++
   [mkPopup (length (toplevels (root self))) (custom_message (settings self))
            st sec ty (stretch_count (session self)) Shown])%list.
Proof. by_flags_of self. Qed.

Lemma show_stretch_popup_timers (st sec : Exercise) (ty : secondary_type)
    (self : App) :
  timers (root (show_stretch_popup st sec ty self)) =
  if popup_persistent (settings self) then timers (root self)
  else insert_timer (auto_close self) (timers (root self)).
Proof. by_flags_of self. Qed.

Lemma trigger_stretch_shown_types (d : Draws) (self : App) :
  shown_types (trigger_stretch pf d self) =
  (shown_types self ++ [other_type (last_secondary_type (session self))])%list.
Proof.
  unfold shown_types. rewrite trigger_stretch_toplevels, map_app.
  reflexivity.
Qed.

Lemma other_type_neq (t : secondary_type) : t <> other_type t.
Proof. destruct t; discriminate. Qed.

Lemma last_cons {A : Type} (l : list A) (a d : A) :
  List.last (a :: l) d = List.last l a.
Proof.
  revert a d. induction l as [|b l IH]; intros a d; [reflexivity|].
  change (List.last (a :: b :: l) d) with (List.last (b :: l) d).
  rewrite (IH b d), (IH b a). reflexivity.
Qed.

(** C2: over any number of consecutive calls of [trigger_stretch], each
    call shows one popup; the secondary types shown differ from one call
    to the next (and the first differs from the type recorded before);
    and afterwards [last_secondary_type] is the type of the most recent
    call. *)
Theorem trigger_secondary_alternates (ds : list Draws) (self : App) :
  exists tys : list secondary_type,
    shown_types (trigger_many pf ds self) = (shown_types self ++ tys)%list /\
    length tys = length ds /\
    alternates (last_secondary_type (session self) :: tys) /\
    last_secondary_type (session (trigger_many pf ds self)) =
      List.last tys (last_secondary_type (session self)).
Proof.
  revert self. induction ds as [|d ds IH]; intros self.
  - exists []. simpl. rewrite app_nil_r. auto.
  - destruct (IH (trigger_stretch pf d self)) as (tys & Hs & Hl & Ha & Hlast).
    rewrite trigger_stretch_shown_types in Hs.
    rewrite trigger_stretch_session in Ha, Hlast. simpl in Ha, Hlast.
    exists (other_type (last_secondary_type (session self)) :: tys).
    change (trigger_many pf (d :: ds) self)
      with (trigger_many pf ds (trigger_stretch pf d self)).
    repeat split.
    + rewrite Hs, <- app_assoc. reflexivity.
    + simpl. congruence.
    + apply other_type_neq.
    + exact Ha.
    + rewrite Hlast, last_cons. reflexivity.
Qed.

End Dispatcher.

(** ** The running program *)

Section Running.

Variable pf : Platform.

Lemma timer_loop_body_spec (now : time) (self : App) :
  exists quiet : bool,
    is_quiet_hours self now = Ok quiet /\
    timer_loop_body now self = Ok (tick_with quiet self).
Proof.
  destruct (is_quiet_hours_total self now) as [q Hq].
  exists q. split; [assumption|].
  unfold timer_loop_body, tick_with.
  destruct (running (session self)), (paused (session self)); simpl;
    try reflexivity.
  destruct (remaining_seconds (session self) <=? 0); [|reflexivity].
  rewrite Hq. simpl. open_app self. destruct q; reflexivity.
Qed.

(** No event makes the program raise. *)
Lemma step_total (ev : Event) (w : World) :
  exists w', step pf ev w = Ok w'.
Proof.
  destruct ev; simpl; eauto.
  - destruct (timer_loop_body_spec now (self w)) as (q & _ & ->).
    simpl. eauto.
  - destruct (running (session (self w))); eauto.
Qed.

Lemma run_total (evs : list Event) (w : World) :
  exists w', run pf evs w = Ok w'.
Proof.
  revert w. induction evs as [|ev evs IH]; intros w; simpl; [eauto|].
  destruct (step_total ev w) as [w1 ->]. simpl. apply IH.
Qed.

Lemma run_cons (ev : Event) (evs : list Event) (w w' : World) :
  run pf (ev :: evs) w = Ok w' <->
  exists w1, step pf ev w = Ok w1 /\ run pf evs w1 = Ok w'.
Proof.
  simpl. destruct (step pf ev w) as [w1| |]; simpl.
  - split; [eauto|]. intros (w2 & [= ->] & H). exact H.
  - split; [discriminate|]. intros (w2 & [=] & _).
  - split; [discriminate|]. intros (w2 & [=] & _).
Qed.

(** A property kept by every step is kept by every run. *)
Lemma run_invariant (P : World -> Prop) :
  (forall ev w w', P w -> step pf ev w = Ok w' -> P w') ->
  forall evs w w', P w -> run pf evs w = Ok w' -> P w'.
Proof.
  intros Hstep. induction evs as [|ev evs IH]; intros w w' HP Hrun.
  - injection Hrun as <-. exact HP.
  - apply run_cons in Hrun as (w1 & H1 & Hrest).
    eapply IH; [|eassumption]. eapply Hstep; eassumption.
Qed.

(** *** What each event leaves alone *)

Lemma close_popup_reminders (how : PopupState) (id : nat) (self : App) :
  reminders (with_root (close_popup how id) self) = reminders self.
Proof.
  unfold reminders. open_app self. simpl. rewrite map_map.
  apply map_ext. intros p.
  destruct (Nat.eqb (popup_id p) id); [|reflexivity].
  destruct (popup_state p); reflexivity.
Qed.

Lemma trigger_stretch_reminders (d : Draws) (self : App) :
  reminders (trigger_stretch pf d self) =
  (reminders self ++
   [(other_type (last_secondary_type (session self)),
     choice (catalog_of (other_type (last_secondary_type (session self))))
            (draw_secondary d))])%list.
Proof.
  unfold reminders. rewrite trigger_stretch_toplevels, map_app. reflexivity.
Qed.

Lemma eye_first_S (n : nat) :
  eye_first (S n) = (eye_first n ++ [nth_type n])%list.
Proof. unfold eye_first. rewrite seq_S, map_app. reflexivity. Qed.

Lemma nth_type_S (n : nat) : nth_type (S n) = other_type (nth_type n).
Proof.
  unfold nth_type. rewrite Nat.even_succ, <- Nat.negb_even.
  destruct (Nat.even n); reflexivity.
Qed.

Lemma other_type_involutive (t : secondary_type) :
  other_type (other_type t) = t.
Proof. destruct t; reflexivity. Qed.

Lemma trigger_stretch_eye_first (d : Draws) (self : App) :
  eye_first_state self -> eye_first_state (trigger_stretch pf d self).
Proof.
  unfold eye_first_state. cbv zeta. intros (Hty & Hlast & Hcat).
  rewrite trigger_stretch_reminders, trigger_stretch_session.
  rewrite length_app, Nat.add_1_r, map_app, eye_first_S, nth_type_S. simpl.
  rewrite Hlast, !other_type_involutive.
  split; [rewrite Hty; reflexivity|].
  split; [reflexivity|].
  apply Forall_app. split; [assumption|].
  constructor; [|constructor]. simpl. apply choice_catalog.
Qed.

Lemma eye_first_state_same (a b : App) :
  reminders b = reminders a ->
  last_secondary_type (session b) = last_secondary_type (session a) ->
  eye_first_state a -> eye_first_state b.
Proof. unfold eye_first_state. intros -> ->. tauto. Qed.

Lemma tick_with_eye_first (quiet : bool) (self : App) :
  eye_first_state self -> eye_first_state (tick_with quiet self).
Proof.
  apply eye_first_state_same; open_app self; unfold tick_with; simpl;
    repeat match goal with
           | |- context [if ?b then _ else _] => destruct b
           end; reflexivity.
Qed.

Lemma run_due_eye_first (d : Draws) (self : App) :
  eye_first_state self -> eye_first_state (run_due pf d self).
Proof.
  intros H. unfold run_due.
  destruct (timers (root self)) as [|t q] eqn:E; [assumption|].
  destruct (due t <=? clock (root self)); [|assumption].
  assert (eye_first_state (with_root (set_timers q) self)) as H'
    by (revert H; apply eye_first_state_same; open_app self; reflexivity).
  destruct (action t); simpl.
  - apply trigger_stretch_eye_first. assumption.
  - revert H'. apply eye_first_state_same.
    + apply close_popup_reminders.
    + open_app self. reflexivity.
Qed.

Lemma step_eye_first (ev : Event) (w w' : World) :
  eye_first_state (self w) -> step pf ev w = Ok w' ->
  eye_first_state (self w').
Proof.
  intros H. destruct ev; simpl.
  - destruct (timer_loop_body_spec now (self w)) as (q & _ & ->). simpl.
    intros [= <-]. simpl. apply tick_with_eye_first. assumption.
  - intros [= <-]. simpl. apply run_due_eye_first. assumption.
  - intros [= <-]. revert H. apply eye_first_state_same;
      open_world w; reflexivity.
  - intros [= <-]. revert H. apply eye_first_state_same;
      open_world w; unfold toggle_timer; simpl;
      match goal with |- context [if ?b then _ else _] => destruct b end;
      reflexivity.
  - destruct (running (session (self w))); intros [= <-]; [|assumption].
    revert H. apply eye_first_state_same; open_world w; reflexivity.
  - intros [= <-]. simpl. apply trigger_stretch_eye_first. assumption.
  - intros [= <-]. revert H. apply eye_first_state_same.
    + apply close_popup_reminders.
    + open_world w. reflexivity.
  - intros [= <-]. revert H. apply eye_first_state_same;
      open_world w; unfold toggle_theme; simpl;
      match goal with |- context [if ?b then _ else _] => destruct b end;
      reflexivity.
  - intros [= <-]. revert H. apply eye_first_state_same;
      open_world w; reflexivity.
  - intros [= <-]. assumption.
  - intros [= <-]. revert H. apply eye_first_state_same;
      open_world w; reflexivity.
  - intros [= <-]. revert H. apply eye_first_state_same;
      open_world w; reflexivity.
  - intros [= <-]. revert H. apply eye_first_state_same;
      open_world w; reflexivity.
  - intros [= <-]. revert H. apply eye_first_state_same;
      open_world w; reflexivity.
  - intros [= <-]. revert H. apply eye_first_state_same;
      open_world w; reflexivity.
  - intros [= <-]. revert H. apply eye_first_state_same;
      open_world w; reflexivity.
  - intros [= <-]. assumption.
Qed.

End Running.

(** ** The settings store *)

Section SettingsStore.

Lemma bind_Ok_inv {A B : Type} (c : result A) (k : A -> result B) (b : B) :
  c ≫= k = Ok b -> exists a, c = Ok a /\ k a = Ok b.
Proof. destruct c as [a| |]; simpl; [eauto|discriminate..]. Qed.

Lemma try_except_Ok_inv {A : Type} (body : result A) (classes : list exn)
    (h a : A) :
  try_except body classes (Ok h) = Ok a -> body = Ok a \/ a = h.
Proof.
  destruct body as [x|e|]; simpl; [auto| |discriminate].
  destruct (existsb (isinstance e) classes); [|discriminate].
  intros [= ->]. auto.
Qed.

Lemma load_field_present (key : string) (m : gmap string jvalue) (v : jvalue)
    (apply : jvalue -> App -> result App) (self : App) :
  m !! key = Some v -> load_field key (JObj m) apply self = apply v self.
Proof.
  intros H. unfold load_field. simpl. rewrite H.
  rewrite bool_decide_true by eauto. reflexivity.
Qed.

Lemma load_field_absent (key : string) (m : gmap string jvalue)
    (apply : jvalue -> App -> result App) (self : App) :
  m !! key = None -> load_field key (JObj m) apply self = Ok self.
Proof.
  intros H. unfold load_field. simpl. rewrite H.
  rewrite bool_decide_false by (intros [? [=]]). reflexivity.
Qed.

(** *** Loading leaves the timer state and the toolkit alone *)

Lemma same_run_refl (a : App) : same_run a a.
Proof. split; reflexivity. Qed.

Lemma same_run_trans (a b c : App) :
  same_run a b -> same_run b c -> same_run a c.
Proof. unfold same_run. intros [-> ->] [-> ->]. auto. Qed.

Lemma via_same_run {A : Type} (conv : jvalue -> result A)
    (setter : A -> Settings -> Settings) (v : jvalue) (a a' : App) :
  via conv setter v a = Ok a' -> same_run a' a.
Proof.
  unfold via. intros H. apply bind_Ok_inv in H as (x & _ & [= <-]).
  destruct a; split; reflexivity.
Qed.

Lemma load_theme_same_run (v : jvalue) (a a' : App) :
  load_theme v a = Ok a' -> same_run a' a.
Proof.
  unfold load_theme. destruct v; try discriminate.
  destruct (THEMES !! s); [|discriminate]. intros [= <-].
  destruct a; split; reflexivity.
Qed.

Lemma load_field_same_run (key : string) (st : jvalue)
    (apply : jvalue -> App -> result App) (a a' : App) :
  (forall v x x', apply v x = Ok x' -> same_run x' x) ->
  load_field key st apply a = Ok a' -> same_run a' a.
Proof.
  intros Happ. unfold load_field. intros H.
  apply bind_Ok_inv in H as ([|] & _ & H).
  - apply bind_Ok_inv in H as (v & _ & H). eapply Happ; eassumption.
  - injection H as <-. apply same_run_refl.
Qed.

Lemma load_settings_same_run (file : settings_file) (a a' : App) :
  load_settings file a = Ok a' -> same_run a' a.
Proof.
  unfold load_settings. intros H.
  apply try_except_Ok_inv in H as [H| ->]; [|apply same_run_refl].
  destruct (path_exists file); [|injection H as <-; apply same_run_refl].
  apply bind_Ok_inv in H as (st & _ & H).
  repeat (apply bind_Ok_inv in H as (? & ?%load_field_same_run & H);
          [|first [apply via_same_run | apply load_theme_same_run]]).
  apply load_field_same_run in H; [|apply via_same_run].
  repeat (eapply same_run_trans; [eassumption|]). apply same_run_refl.
Qed.

(** *** Saving, then loading *)

Lemma load_saved (self self0 : App) (c : Palette) :
  THEMES !! theme (settings self) = Some c ->
  load_settings (Json (JObj (settings_dict self))) self0 =
  Ok (mkApp (settings self) (session self0) c (root self0)).
Proof.
  intros Hc. unfold load_settings. simpl.
  assert (forall a, load_theme (JStr (theme (settings self))) a =
                    Ok (set_colors c (with_settings
                                        (set_theme (theme (settings self))) a)))
    as Hth by (intros a; simpl; rewrite Hc; reflexivity).
  rewrite (load_field_present "interval_minutes" _
             (JInt (interval_minutes (settings self)))) by reflexivity.
  simpl.
  rewrite (load_field_present "quiet_enabled" _
             (JBool (quiet_enabled (settings self)))) by reflexivity.
  simpl.
  rewrite (load_field_present "quiet_start" _
             (JStr (quiet_start (settings self)))) by reflexivity.
  simpl.
  rewrite (load_field_present "quiet_end" _
             (JStr (quiet_end (settings self)))) by reflexivity.
  simpl.
  rewrite (load_field_present "theme" _
             (JStr (theme (settings self)))) by reflexivity.
  rewrite Hth. simpl.
  rewrite (load_field_present "custom_message" _
             (JStr (custom_message (settings self)))) by reflexivity.
  simpl.
  rewrite (load_field_present "popup_timeout_seconds" _
             (JInt (popup_timeout_seconds (settings self)))) by reflexivity.
  simpl.
  rewrite (load_field_present "popup_persistent" _
             (JBool (popup_persistent (settings self)))) by reflexivity.
  simpl.
  rewrite (load_field_present "sound_enabled" _
             (JBool (sound_enabled (settings self)))) by reflexivity.
  simpl.
  destruct self as [[? ? ? ? ? ? ? ? ?] ? ? ?], self0 as [[? ? ? ? ? ? ? ? ?] ? ? ?].
  reflexivity.
Qed.

(** C5: for a valid settings record, saving it (the write succeeding) and
    then loading gives the same nine fields back, whatever the loading
    application held before. *)
Theorem settings_round_trip (self self0 : App) (file : settings_file) :
  valid_settings (settings self) ->
  exists self1,
    load_settings (save_settings self WriteOk file) self0 = Ok self1 /\
    settings self1 = settings self.
Proof.
  intros (_ & _ & _ & Hth & _). simpl.
  destruct Hth as [Hth|Hth].
  - rewrite (load_saved self self0 light_palette)
      by (rewrite Hth; reflexivity).
    eauto.
  - rewrite (load_saved self self0 dark_palette)
      by (rewrite Hth; reflexivity).
    eauto.
Qed.

Lemma settings_round_trip_witness :
  exists self1,
    load_settings (save_settings night_app WriteOk NoFile) fresh_app
      = Ok self1 /\
    settings self1 = settings night_app.
Proof.
  apply settings_round_trip.
  unfold valid_settings. simpl.
  repeat split; try lia; try reflexivity.
  left. reflexivity.
Defined.

(** A write that fails leaves the old file, or none that can be read. *)
Example save_fails_silently :
  load_settings (save_settings night_app OpenFails NoFile) fresh_app
    = Ok fresh_app /\
  load_settings (save_settings night_app WriteBreaks NoFile) fresh_app
    = Ok fresh_app.
Proof. split; reflexivity. Qed.

(** *** Loading a partial record *)

Lemma with_settings_id (setter : Settings -> Settings) (self : App) :
  setter (settings self) = settings self -> with_settings setter self = self.
Proof. unfold with_settings. intros ->. destruct self; reflexivity. Qed.

Lemma load_int (key : string) (m : gmap string jvalue)
    (setter : Z -> Settings -> Settings) (getter : Settings -> Z)
    (self : App) :
  (forall v, m !! key = Some v -> is_int v) ->
  (forall s, setter (getter s) s = s) ->
  load_field key (JObj m) (via IntVar_set setter) self =
  Ok (with_settings (setter (int_field m key (getter (settings self)))) self).
Proof.
  intros Hty Hid. unfold int_field. destruct (m !! key) as [v|] eqn:E.
  - destruct (Hty v eq_refl) as [n ->].
    rewrite (load_field_present _ _ _ _ _ E). reflexivity.
  - rewrite (load_field_absent _ _ _ _ E), with_settings_id by apply Hid.
    reflexivity.
Qed.

Lemma load_bool (key : string) (m : gmap string jvalue)
    (setter : bool -> Settings -> Settings) (getter : Settings -> bool)
    (self : App) :
  (forall v, m !! key = Some v -> is_bool v) ->
  (forall s, setter (getter s) s = s) ->
  load_field key (JObj m) (via BooleanVar_set setter) self =
  Ok (with_settings (setter (bool_field m key (getter (settings self)))) self).
Proof.
  intros Hty Hid. unfold bool_field. destruct (m !! key) as [v|] eqn:E.
  - destruct (Hty v eq_refl) as [n ->].
    rewrite (load_field_present _ _ _ _ _ E). reflexivity.
  - rewrite (load_field_absent _ _ _ _ E), with_settings_id by apply Hid.
    reflexivity.
Qed.

Lemma load_str (key : string) (m : gmap string jvalue)
    (setter : string -> Settings -> Settings) (getter : Settings -> string)
    (self : App) :
  (forall v, m !! key = Some v -> is_str v) ->
  (forall s, setter (getter s) s = s) ->
  load_field key (JObj m) (via StringVar_set setter) self =
  Ok (with_settings (setter (str_field m key (getter (settings self)))) self).
Proof.
  intros Hty Hid. unfold str_field. destruct (m !! key) as [v|] eqn:E.
  - destruct (Hty v eq_refl) as [n ->].
    rewrite (load_field_present _ _ _ _ _ E). reflexivity.
  - rewrite (load_field_absent _ _ _ _ E), with_settings_id by apply Hid.
    reflexivity.
Qed.

Lemma load_theme_field (m : gmap string jvalue) (self : App) :
  (forall v, m !! "theme" = Some v -> is_theme v) ->
  exists c : Palette,
    load_field "theme" (JObj m) load_theme self =
    Ok (set_colors c
          (with_settings
             (set_theme (str_field m "theme" (theme (settings self)))) self)).
Proof.
  intros Hty. unfold str_field. destruct (m !! "theme") as [v|] eqn:E.
  - rewrite (load_field_present _ _ _ _ _ E).
    destruct (Hty v eq_refl) as [-> | ->]; eexists; reflexivity.
  - rewrite (load_field_absent _ _ _ _ E). exists (colors self).
    destruct self as [[? ? ? ? ? ? ? ? ?] ? ? ?]. reflexivity.
Qed.

(** The file being absent, unreadable or not JSON, [load_settings] keeps
    what the application holds; from a record whose present fields are of
    their types, it takes the present fields and keeps the others. *)
Lemma load_settings_tolerant (self : App) :
  load_settings NoFile self = Ok self /\
  load_settings Unreadable self = Ok self /\
  load_settings NotJson self = Ok self /\
  forall m : gmap string jvalue,
    typed_record m ->
    exists self',
      load_settings (Json (JObj m)) self = Ok self' /\
      settings self' = merged m (settings self).
Proof.
  repeat split.
  intros m (H1 & H2 & H3 & H4 & H5 & H6 & H7 & H8 & H9).
  unfold load_settings. cbn [path_exists json_load mbind result_bind].
  rewrite (load_int _ _ _ interval_minutes _ H1) by (intros []; reflexivity).
  cbn [mbind result_bind].
  rewrite (load_bool _ _ _ quiet_enabled _ H2) by (intros []; reflexivity).
  cbn [mbind result_bind].
  rewrite (load_str _ _ _ quiet_start _ H3) by (intros []; reflexivity).
  cbn [mbind result_bind].
  rewrite (load_str _ _ _ quiet_end _ H4) by (intros []; reflexivity).
  cbn [mbind result_bind].
  match goal with
  | |- context [load_field "theme" (JObj m) load_theme ?a] =>
      destruct (load_theme_field m a H5) as [c ->]
  end.
  cbn [mbind result_bind].
  rewrite (load_str _ _ _ custom_message _ H6) by (intros []; reflexivity).
  cbn [mbind result_bind].
  rewrite (load_int _ _ _ popup_timeout_seconds _ H7)
    by (intros []; reflexivity).
  cbn [mbind result_bind].
  rewrite (load_bool _ _ _ popup_persistent _ H8) by (intros []; reflexivity).
  cbn [mbind result_bind].
  rewrite (load_bool _ _ _ sound_enabled _ H9) by (intros []; reflexivity).
  eexists. split; [reflexivity|].
  destruct self as [[? ? ? ? ? ? ? ? ?] ? ? ?]. reflexivity.
Qed.

(** An empty record is a partial record: everything keeps its default. *)
Example load_empty_record : init (Json (JObj ∅)) = Ok fresh_app.
Proof. reflexivity. Qed.

Example load_interval_only :
  init (Json (JObj {["interval_minutes" := JInt 30]})) =
  Ok (with_settings (set_interval_minutes 30) fresh_app).
Proof. reflexivity. Qed.

(** C6: not every content of the settings file is tolerated. Content
    that is JSON but no record ([null]), bytes that are no text in the
    locale's encoding, and a record naming a theme that does not exist
    each make [load_settings], and with it [__init__], raise: the
    exception is none of the two classes that the function catches. *)
Theorem load_settings_raises_on_corrupt_file :
  init (Json JNull) = Raise TypeError /\
  init Undecodable = Raise UnicodeDecodeError /\
  init (Json (JObj {["theme" := JStr "blue"]})) = Raise KeyError.
Proof. repeat split; reflexivity. Qed.

End SettingsStore.

(** ** The popup *)

Section Popups.

Variable pf : Platform.
Variable P : PopupState -> Prop.
Variable watched : option nat.

Lemma In_insert_timer (t x : Timer) (q : list Timer) :
  In t (insert_timer x q) <-> t = x \/ In t q.
Proof.
  induction q as [|u q IH]; simpl.
  - split; intros [H|H]; auto.
  - destruct (due x <? due u); simpl; [split; intros [H|H]; auto|].
    rewrite IH. split; intros [H|[H|H]]; auto.
Qed.

Lemma lookup_map {A B : Type} (f : A -> B) (l : list A) (i : nat) :
  map f l !! i = option_map f (l !! i).
Proof.
  revert i. induction l as [|a l IH]; intros [|i]; simpl; auto.
Qed.

Lemma window_kept_pop (tls : list Popup) (t : Timer) (q : list Timer) :
  window_kept P watched tls (t :: q) -> window_kept P watched tls q.
Proof.
  intros (Hid & Htm & Hp). split; [assumption|]. split; [|assumption].
  intros u j Hu. apply Htm. right. assumption.
Qed.

Lemma window_kept_request (tls : list Popup) (tms : list Timer) (x : Z) :
  window_kept P watched tls tms ->
  window_kept P watched tls (insert_timer (mkTimer x CbTrigger) tms).
Proof.
  intros (Hid & Htm & Hp). split; [assumption|]. split; [|assumption].
  intros u j Hu Hact. apply In_insert_timer in Hu as [-> | Hu].
  - discriminate Hact.
  - eapply Htm; eassumption.
Qed.

Lemma window_kept_append (tls : list Popup) (tms : list Timer) (p : Popup) :
  popup_id p = length tls ->
  window_kept P watched tls tms -> window_kept P watched (tls ++ [p]) tms.
Proof.
  intros Hnew (Hid & Htm & Hw). split; [|split].
  - intros i r Hr. apply lookup_app_Some in Hr as [Hr|[Hlen Hr]].
    + apply Hid. assumption.
    + apply list_lookup_singleton_Some in Hr as [Hi ->]. lia.
  - intros u j Hu Hact. destruct (Htm u j Hu Hact) as [Hj Hne].
    rewrite length_app. simpl. split; [lia|assumption].
  - intros id Hid'. destruct (Hw id Hid') as (q & Hq & HP).
    exists q. split; [|assumption]. apply lookup_app_l_Some. assumption.
Qed.

Lemma window_kept_auto_close (tls : list Popup) (tms : list Timer)
    (p : Popup) (x : Z) :
  popup_id p = length tls ->
  window_kept P watched tls tms ->
  window_kept P watched (tls ++ [p])
    (insert_timer (mkTimer x (CbClose (length tls))) tms).
Proof.
  intros Hnew H.
  assert (watched <> Some (length tls)) as Hne.
  { intros Hw. destruct H as (_ & _ & H).
    destruct (H _ Hw) as (q & Hq & _). apply lookup_lt_Some in Hq. lia. }
  apply (window_kept_append _ _ p Hnew) in H.
  destruct H as (Hid & Htm & Hp). split; [assumption|]. split; [|assumption].
  intros u j Hu Hact. apply In_insert_timer in Hu as [-> | Hu].
  - injection Hact as <-. rewrite length_app. simpl. split; [lia|assumption].
  - eapply Htm; eassumption.
Qed.

Lemma window_kept_close (tls : list Popup) (tms : list Timer)
    (how : PopupState) (j : nat) :
  watched <> Some j \/ (P Shown -> P how) ->
  window_kept P watched tls tms ->
  window_kept P watched
    (map (fun p => if Nat.eqb (popup_id p) j
                   then match popup_state p with
                        | Shown => set_popup_state how p
                        | _ => p
                        end
                   else p) tls) tms.
Proof.
  intros Hj (Hid & Htm & Hw). split; [|split].
  - intros i r. rewrite lookup_map.
    destruct (tls !! i) as [r0|] eqn:E; simpl; [|discriminate].
    intros [= <-]. apply Hid in E.
    destruct (Nat.eqb (popup_id r0) j); [|assumption].
    destruct (popup_state r0); assumption.
  - intros u k Hu Hact. rewrite length_map. eapply Htm; eassumption.
  - intros id Hid'. destruct (Hw id Hid') as (q & Hq & HP).
    rewrite lookup_map, Hq. simpl. eexists. split; [reflexivity|].
    apply Hid in Hq.
    destruct (Nat.eqb_spec (popup_id q) j) as [Heq|Hne]; [|assumption].
    destruct (popup_state q) eqn:Es; simpl; try (rewrite Es; exact HP).
    destruct Hj as [Hj|Hj]; [congruence|]. apply Hj. assumption.
Qed.

Local Abbreviation kept := (popup_kept P watched).

Lemma kept_same (a b : App) :
  toplevels (root b) = toplevels (root a) ->
  timers (root b) = timers (root a) ->
  kept a -> kept b.
Proof. unfold kept. intros -> ->. tauto. Qed.

Lemma trigger_stretch_kept (d : Draws) (self : App) :
  kept self -> kept (trigger_stretch pf d self).
Proof.
  unfold popup_kept. rewrite trigger_stretch_toplevels, trigger_stretch_timers.
  destruct (popup_persistent (settings self)).
  - apply window_kept_append. reflexivity.
  - apply window_kept_auto_close. reflexivity.
Qed.

Lemma show_stretch_popup_kept (st sec : Exercise) (ty : secondary_type)
    (self : App) :
  kept self -> kept (show_stretch_popup st sec ty self).
Proof.
  unfold popup_kept.
  rewrite show_stretch_popup_toplevels, show_stretch_popup_timers.
  destruct (popup_persistent (settings self)).
  - apply window_kept_append. reflexivity.
  - apply window_kept_auto_close. reflexivity.
Qed.

Lemma close_popup_kept (how : PopupState) (j : nat) (self : App) :
  watched <> Some j \/ (P Shown -> P how) ->
  kept self -> kept (with_root (close_popup how j) self).
Proof.
  intros Hj. unfold kept. open_app self. simpl.
  apply window_kept_close. assumption.
Qed.

Lemma tick_with_kept (quiet : bool) (self : App) :
  kept self -> kept (tick_with quiet self).
Proof.
  unfold popup_kept, tick_with. open_app self. simpl.
  repeat match goal with
         | |- context [if ?b then _ else _] => destruct b
         end; simpl; auto.
  apply window_kept_request.
Qed.

Lemma run_due_kept (d : Draws) (self : App) :
  kept self -> kept (run_due pf d self).
Proof.
  intros H. unfold run_due.
  destruct (timers (root self)) as [|t q] eqn:E; [assumption|].
  destruct (due t <=? clock (root self)); [|assumption].
  assert (kept (with_root (set_timers q) self)) as H'.
  { unfold kept in *. rewrite E in H. apply window_kept_pop in H.
    open_app self. exact H. }
  destruct (action t) as [|j] eqn:Ea; simpl.
  - apply trigger_stretch_kept. assumption.
  - apply close_popup_kept; [|assumption]. left.
    unfold popup_kept in H. rewrite E in H. destruct H as (_ & Htm & _).
    destruct (Htm t j) as [_ Hne]; [left; reflexivity|assumption|assumption].
Qed.

Lemma step_kept (ev : Event) (w w' : World) :
  (forall id, watched = Some id -> ev <> EvDone id) \/
  (P Shown -> P Dismissed) ->
  kept (self w) -> step pf ev w = Ok w' -> kept (self w').
Proof.
  intros Hev H. destruct ev; simpl.
  - destruct (timer_loop_body_spec now (self w)) as (q & _ & ->). simpl.
    intros [= <-]. simpl. apply tick_with_kept. assumption.
  - intros [= <-]. simpl. apply run_due_kept. assumption.
  - intros [= <-]. revert H. apply kept_same;
      destruct w as [a ?]; open_app a; reflexivity.
  - intros [= <-]. revert H. apply kept_same;
      destruct w as [a ?]; open_app a; unfold toggle_timer; simpl;
      match goal with |- context [if ?b then _ else _] => destruct b end;
      reflexivity.
  - destruct (running (session (self w))); intros [= <-]; [|assumption].
    revert H. apply kept_same; destruct w as [a ?]; open_app a; reflexivity.
  - intros [= <-]. simpl. apply trigger_stretch_kept. assumption.
  - intros [= <-]. simpl. apply close_popup_kept; [|assumption].
    destruct Hev as [Hev|Hev]; [|right; assumption].
    left. intros Hw. apply (Hev _ Hw). reflexivity.
  - intros [= <-]. revert H. apply kept_same;
      destruct w as [a ?]; open_app a; unfold toggle_theme; simpl;
      match goal with |- context [if ?b then _ else _] => destruct b end;
      reflexivity.
  - intros [= <-]. revert H. apply kept_same;
      destruct w as [a ?]; open_app a; reflexivity.
  - intros [= <-]. assumption.
  - intros [= <-]. revert H. apply kept_same;
      destruct w as [a ?]; open_app a; reflexivity.
  - intros [= <-]. revert H. apply kept_same;
      destruct w as [a ?]; open_app a; reflexivity.
  - intros [= <-]. revert H. apply kept_same;
      destruct w as [a ?]; open_app a; reflexivity.
  - intros [= <-]. revert H. apply kept_same;
      destruct w as [a ?]; open_app a; reflexivity.
  - intros [= <-]. revert H. apply kept_same;
      destruct w as [a ?]; open_app a; reflexivity.
  - intros [= <-]. revert H. apply kept_same;
      destruct w as [a ?]; open_app a; reflexivity.
  - intros [= <-]. assumption.
Qed.

End Popups.

(** ** The countdown *)

Section Countdown.

Variable pf : Platform.

(** What one event does to the configured interval and to the seconds
    remaining: the interval changes only by the spinbox; the seconds stay,
    go down by one from above zero, or are reset to the interval. *)
Lemma step_countdown (ev : Event) (w w' : World) :
  step pf ev w = Ok w' ->
  interval_minutes (settings (self w')) =
    match ev with
    | EvSetInterval n => n
    | _ => interval_minutes (settings (self w))
    end /\
  (remaining_seconds (session (self w')) = remaining_seconds (session (self w))
   \/ (0 < remaining_seconds (session (self w)) /\
       remaining_seconds (session (self w')) =
         remaining_seconds (session (self w)) - 1)
   \/ (match ev with EvSetInterval _ => False | _ => True end /\
       remaining_seconds (session (self w')) =
         interval_minutes (settings (self w)) * 60)).
Proof.
  destruct ev; simpl.
  - destruct (timer_loop_body_spec now (self w)) as (q & _ & ->). simpl.
    intros [= <-]. destruct w as [a f]. simpl. unfold tick_with.
    open_app a. simpl. split_ifs; simpl; (split; [reflexivity|]); auto.
    right; left. split; [|reflexivity].
    match goal with H : (_ <=? 0) = false |- _ => apply Z.leb_gt in H end.
    assumption.
  - intros [= <-]. destruct w as [a f]. simpl. unfold run_due.
    destruct (timers (root a)) as [|t q]; [auto|].
    destruct (due t <=? clock (root a)); [|auto].
    destruct (action t); simpl.
    + rewrite trigger_stretch_settings, trigger_stretch_session.
      open_app a. simpl. auto.
    + open_app a. simpl. auto.
  - intros [= <-]. destruct w as [a f]. open_app a. simpl. auto.
  - intros [= <-]. destruct w as [a f]. open_app a. unfold toggle_timer.
    simpl. split_ifs; simpl; auto.
  - destruct (running (session (self w))); intros [= <-]; [|auto].
    destruct w as [a f]. open_app a. simpl. auto.
  - intros [= <-]. destruct w as [a f]. simpl.
    rewrite trigger_stretch_settings, trigger_stretch_session.
    simpl. auto.
  - intros [= <-]. destruct w as [a f]. open_app a. simpl. auto.
  - intros [= <-]. destruct w as [a f]. open_app a. unfold toggle_theme.
    simpl. split_ifs; simpl; auto.
  - intros [= <-]. destruct w as [a f]. open_app a. simpl. auto.
  - intros [= <-]. auto.
  - intros [= <-]. destruct w as [a f]. open_app a. simpl. auto.
  - intros [= <-]. destruct w as [a f]. open_app a. simpl. auto.
  - intros [= <-]. destruct w as [a f]. open_app a. simpl. auto.
  - intros [= <-]. destruct w as [a f]. open_app a. simpl. auto.
  - intros [= <-]. destruct w as [a f]. open_app a. simpl. auto.
  - intros [= <-]. destruct w as [a f]. open_app a. simpl. auto.
  - intros [= <-]. auto.
Qed.

Lemma start_timer_within (now : Z) (self : App) :
  0 <= interval_minutes (settings self) ->
  within_interval (start_timer now self).
Proof. unfold within_interval. open_app self. simpl. lia. Qed.

(** C3, amended: from a state in which
    [0 <= remaining_seconds <= interval_minutes * 60] (a timer just
    started is one), after any sequence of ticks and UI events in which
    no interval change lowers the interval, the same bounds hold for the
    interval then configured. *)
Theorem remaining_within_interval (evs : list Event) (w : World) :
  within_interval (self w) ->
  raised_only (interval_minutes (settings (self w))) evs ->
  exists w', run pf evs w = Ok w' /\ within_interval (self w').
Proof.
  revert w. induction evs as [|ev evs IH]; intros w Hin Hup.
  - exists w. split; [reflexivity|assumption].
  - destruct (step_total pf ev w) as [w1 H1].
    destruct (step_countdown ev w w1 H1) as [Hi Hr].
    assert (within_interval (self w1) /\
            raised_only (interval_minutes (settings (self w1))) evs)
      as [Hin1 Hup1].
    { unfold within_interval in *. rewrite Hi.
      destruct ev; simpl in Hup;
        try (split; [destruct Hr as [Hr|[[Hpos Hr]|[_ Hr]]]; lia|assumption]).
      destruct Hup as [Hn Hup]. split; [|assumption].
      destruct Hr as [Hr|[[Hpos Hr]|[[] _]]]; lia. }
    destruct (IH w1 Hin1 Hup1) as (w' & Hrun & Hin').
    exists w'. split; [|assumption].
    simpl. rewrite H1. exact Hrun.
Qed.

(** C3 as stated fails: lowering the interval of a running 45-minute
    timer to one minute leaves 2698 seconds on the countdown after the
    next tick, above the 60 of the interval then configured. *)
Lemma remaining_exceeds_lowered_interval :
  exists w',
    run no_plyer [EvTick noon; EvSetInterval 1; EvTick noon]
        (mkWorld (start_timer 0 fresh_app) NoFile) = Ok w' /\
    interval_minutes (settings (self w')) = 1 /\
    remaining_seconds (session (self w')) = 2698 /\
    ~ within_interval (self w').
Proof.
  eexists. split; [vm_compute; reflexivity|].
  unfold within_interval. simpl. repeat split. lia.
Qed.

(** *** Counting down *)

Lemma with_remaining_seconds_same (self : App) :
  with_remaining_seconds (remaining_seconds (session self)) self = self.
Proof. open_app self. reflexivity. Qed.

Lemma with_remaining_seconds_twice (a b : Z) (self : App) :
  with_remaining_seconds a (with_remaining_seconds b self) =
  with_remaining_seconds a self.
Proof. open_app self. reflexivity. Qed.

Lemma timer_loop_body_decrement (now : time) (self : App) :
  running (session self) = true -> paused (session self) = false ->
  0 < remaining_seconds (session self) ->
  timer_loop_body now self =
  Ok (with_remaining_seconds (remaining_seconds (session self) - 1) self).
Proof.
  intros Hr Hp Hpos. unfold timer_loop_body. rewrite Hr, Hp. simpl.
  destruct (remaining_seconds (session self) <=? 0) eqn:E; [|reflexivity].
  apply Z.leb_le in E. lia.
Qed.

Lemma timer_loop_body_expiry (now : time) (self : App) :
  running (session self) = true -> paused (session self) = false ->
  remaining_seconds (session self) <= 0 ->
  exists quiet : bool,
    is_quiet_hours self now = Ok quiet /\
    timer_loop_body now self =
    Ok (with_remaining_seconds (interval_minutes (settings self) * 60)
          (if quiet then self else with_root (after 0 CbTrigger) self)).
Proof.
  intros Hr Hp Hz.
  destruct (timer_loop_body_spec now self) as (q & Hq & ->).
  exists q. split; [assumption|]. unfold tick_with. rewrite Hr, Hp. simpl.
  apply Z.leb_le in Hz. rewrite Hz. reflexivity.
Qed.

(** While the countdown is above zero, [n] ticks take [n] seconds off and
    do nothing else. *)
Lemma countdown_ticks (nows : list time) (self : App) (file : settings_file) :
  running (session self) = true -> paused (session self) = false ->
  Z.of_nat (length nows) <= remaining_seconds (session self) ->
  run pf (map EvTick nows) (mkWorld self file) =
  Ok (mkWorld
        (with_remaining_seconds
           (remaining_seconds (session self) - Z.of_nat (length nows)) self)
        file).
Proof.
  revert self. induction nows as [|now nows IH]; intros self Hr Hp Hlen.
  - simpl. rewrite Z.sub_0_r, with_remaining_seconds_same. reflexivity.
  - simpl length in *. simpl.
    rewrite timer_loop_body_decrement by (assumption || lia). simpl.
    rewrite IH.
    + rewrite with_remaining_seconds_twice. do 3 f_equal.
      open_app self. simpl. lia.
    + open_app self. exact Hr.
    + open_app self. exact Hp.
    + open_app self. simpl in *. lia.
Qed.

Lemma filter_insert_timer (t : Timer) (q : list Timer) :
  is_trigger t = true ->
  length (List.filter is_trigger (insert_timer t q)) =
  S (length (List.filter is_trigger q)).
Proof.
  intros Ht. induction q as [|u q IH]; simpl.
  - rewrite Ht. reflexivity.
  - destruct (due t <? due u); simpl.
    + rewrite Ht. reflexivity.
    + destruct (is_trigger u); simpl; rewrite IH; reflexivity.
Qed.

(** C4, amended: with a one-minute interval and quiet hours disabled, a
    started timer (60 seconds remaining) shows 0 after 60 unpaused ticks
    without having requested a reminder; the 61st tick requests exactly
    one and resets [remaining_seconds] to 60. *)
Theorem one_minute_cycle (app : App) (file : settings_file)
    (nows : list time) (now : time) :
  interval_minutes (settings app) = 1 ->
  quiet_enabled (settings app) = false ->
  running (session app) = true ->
  paused (session app) = false ->
  remaining_seconds (session app) = 60 ->
  length nows = 60%nat ->
  exists w60 w61,
    run pf (map EvTick nows) (mkWorld app file) = Ok w60 /\
    remaining_seconds (session (self w60)) = 0 /\
    pending_triggers (self w60) = pending_triggers app /\
    toplevels (root (self w60)) = toplevels (root app) /\
    run pf (map EvTick (nows ++ [now])) (mkWorld app file) = Ok w61 /\
    remaining_seconds (session (self w61)) = 60 /\
    pending_triggers (self w61) = S (pending_triggers app) /\
    toplevels (root (self w61)) = toplevels (root app).
Proof.
  intros Hi Hq Hr Hp Hrem Hlen.
  pose proof (countdown_ticks nows app file Hr Hp) as H60.
  rewrite Hlen, Hrem in H60. specialize (H60 ltac:(lia)).
  change (60 - Z.of_nat 60) with 0 in H60.
  set (s60 := with_remaining_seconds 0 app) in *.
  assert (timer_loop_body now s60 =
          Ok (with_remaining_seconds 60 (with_root (after 0 CbTrigger) s60)))
    as H61.
  { destruct (timer_loop_body_expiry now s60) as (q & Hquiet & ->).
    - subst s60. open_app app. exact Hr.
    - subst s60. open_app app. exact Hp.
    - subst s60. open_app app. simpl. lia.
    - rewrite is_quiet_hours_disabled in Hquiet
        by (subst s60; open_app app; exact Hq).
      injection Hquiet as <-.
      replace (interval_minutes (settings s60)) with 1
        by (subst s60; open_app app; simpl in *; congruence).
      reflexivity. }
  exists (mkWorld s60 file),
    (mkWorld (with_remaining_seconds 60 (with_root (after 0 CbTrigger) s60))
             file).
  split; [exact H60|].
  split; [subst s60; open_app app; reflexivity|].
  split; [subst s60; open_app app; reflexivity|].
  split; [subst s60; open_app app; reflexivity|].
  split.
  { rewrite map_app. simpl.
    clear -H60 H61. revert H60.
    generalize (mkWorld app file). generalize (map EvTick nows).
    intros l. induction l as [|e l IHl]; intros w0 H.
    - injection H as ->. simpl. rewrite H61. reflexivity.
    - simpl in *. destruct (step pf e w0) as [w1| |]; simpl in *;
        [apply IHl; assumption|discriminate..]. }
  split; [subst s60; open_app app; reflexivity|].
  split; [|subst s60; open_app app; reflexivity].
  subst s60. unfold pending_triggers. open_app app. simpl.
  apply filter_insert_timer. reflexivity.
Qed.

(** C4 as stated fails: after exactly 60 ticks of a one-minute timer the
    countdown shows 0, not 60, and no reminder has been requested or
    shown. *)
Lemma sixty_ticks_request_nothing :
  exists w',
    run no_plyer (map EvTick (repeat noon 60)) (mkWorld one_minute_app NoFile)
      = Ok w' /\
    remaining_seconds (session (self w')) = 0 /\
    pending_triggers (self w') = 0%nat /\
    toplevels (root (self w')) = [] /\
    stretch_count (session (self w')) = 0.
Proof. eexists. split; [vm_compute; reflexivity|]. repeat split. Qed.

(** The 61st tick requests the reminder, and the event loop then shows
    it. *)
Example sixty_one_ticks_then_idle :
  exists w',
    run no_plyer (map EvTick (repeat noon 61) ++ [EvIdle (mkDraws 0 0)])
        (mkWorld one_minute_app NoFile) = Ok w' /\
    remaining_seconds (session (self w')) = 60 /\
    pending_triggers (self w') = 0%nat /\
    length (toplevels (root (self w'))) = 1%nat /\
    stretch_count (session (self w')) = 1.
Proof. eexists. split; [vm_compute; reflexivity|]. repeat split. Qed.

End Countdown.

Lemma remaining_within_interval_witness :
  exists w',
    run no_plyer [EvTick noon; EvSetInterval 60; EvTogglePause; EvTick noon]
        (mkWorld (start_timer 0 fresh_app) NoFile) = Ok w' /\
    within_interval (self w').
Proof.
  apply remaining_within_interval.
  - apply start_timer_within. simpl. lia.
  - simpl. lia.
Defined.

Lemma one_minute_cycle_witness :
  exists w60 w61,
    run no_plyer (map EvTick (repeat noon 60)) (mkWorld one_minute_app NoFile)
      = Ok w60 /\
    remaining_seconds (session (self w60)) = 0 /\
    pending_triggers (self w60) = pending_triggers one_minute_app /\
    toplevels (root (self w60)) = toplevels (root one_minute_app) /\
    run no_plyer (map EvTick (repeat noon 60 ++ [noon]))
        (mkWorld one_minute_app NoFile) = Ok w61 /\
    remaining_seconds (session (self w61)) = 60 /\
    pending_triggers (self w61) = S (pending_triggers one_minute_app) /\
    toplevels (root (self w61)) = toplevels (root one_minute_app).
Proof.
  apply (one_minute_cycle no_plyer one_minute_app NoFile (repeat noon 60) noon);
    reflexivity.
Defined.

(** ** Reminders on screen *)

Section Reminders.

Variable pf : Platform.

Lemma popup_kept_weaken (P Q : PopupState -> Prop) (watched : option nat)
    (app : App) :
  (forall s, P s -> Q s) ->
  popup_kept P watched app -> popup_kept Q watched app.
Proof.
  intros HPQ (Hid & Htm & Hw). split; [assumption|]. split; [assumption|].
  intros id Hid'. destruct (Hw id Hid') as (p & Hp & HP). eauto.
Qed.

Lemma run_kept (P : PopupState -> Prop) (watched : option nat)
    (evs : list Event) (w w' : World) :
  (P Shown -> P Dismissed) ->
  popup_kept P watched (self w) -> run pf evs w = Ok w' ->
  popup_kept P watched (self w').
Proof.
  intros HP.
  apply (run_invariant pf (fun w => popup_kept P watched (self w))).
  intros ev w0 w1. apply step_kept. right. assumption.
Qed.

(** The toolkit of a fresh application is consistent, and stays so. *)
Lemma fresh_tk_ok : tk_ok (root fresh_app).
Proof.
  split; [|split].
  - intros i p H. destruct i; discriminate H.
  - intros t j [].
  - discriminate.
Qed.

Lemma run_tk_ok (evs : list Event) (w w' : World) :
  tk_ok (root (self w)) -> run pf evs w = Ok w' -> tk_ok (root (self w')).
Proof. apply (run_kept (fun _ => True) None). auto. Qed.

Lemma init_fresh (file : settings_file) (app : App) :
  init file = Ok app -> session app = session fresh_app /\ root app = root fresh_app.
Proof. intros H. apply load_settings_same_run in H. exact H. Qed.

Lemma reachable_tk_ok (file : settings_file) (app : App)
    (evs : list Event) (w : World) :
  init file = Ok app -> run pf evs (mkWorld app file) = Ok w ->
  tk_ok (root (self w)).
Proof.
  intros Hinit. apply run_tk_ok. simpl.
  apply init_fresh in Hinit as [_ ->]. exact fresh_tk_ok.
Qed.

(** A persistent popup, once shown, is watched with state [Shown]. *)
Lemma persistent_popup_watched (st sec : Exercise) (ty : secondary_type)
    (app : App) :
  tk_ok (root app) ->
  popup_persistent (settings app) = true ->
  popup_kept (fun s => s = Shown) (Some (length (toplevels (root app))))
    (show_stretch_popup st sec ty app).
Proof.
  intros (Hid & Htm & _) Hp. unfold popup_kept.
  rewrite show_stretch_popup_toplevels, show_stretch_popup_timers, Hp.
  split; [|split].
  - intros i r Hr. apply lookup_app_Some in Hr as [Hr|[Hlen Hr]].
    + apply Hid. assumption.
    + apply list_lookup_singleton_Some in Hr as [Hi <-]. simpl. lia.
  - intros t j Ht Hact. destruct (Htm t j Ht Hact) as [Hj _].
    rewrite length_app. simpl. split; [lia|]. intros [= E]. lia.
  - intros id [= <-]. eexists. split.
    + rewrite lookup_app_r by lia. rewrite Nat.sub_diag. reflexivity.
    + reflexivity.
Qed.

(** While it is watched with state [Shown], a window can only leave the
    screen through its own Done button. *)
Lemma watched_until_done (id : nat) (evs : list Event) (w : World) :
  popup_kept (fun s => s = Shown) (Some id) (self w) ->
  exists w',
    run pf evs w = Ok w' /\
    exists p,
      toplevels (root (self w')) !! id = Some p /\
      (popup_state p = Shown \/
       (popup_state p = Dismissed /\ In (EvDone id) evs)).
Proof.
  revert w. induction evs as [|ev evs IH]; intros w Hk.
  - exists w. split; [reflexivity|].
    destruct Hk as (_ & _ & Hw). destruct (Hw id eq_refl) as (p & Hp & Hs).
    eauto.
  - destruct (step_total pf ev w) as [w1 H1].
    assert (ev = EvDone id \/ ev <> EvDone id) as [-> | Hne].
    { destruct ev; try (right; discriminate).
      destruct (Nat.eq_dec id0 id) as [-> | Hd]; [left; reflexivity|].
      right. intros [= E]. contradiction. }
    + destruct (run_total pf evs w1) as [w' Hrun].
      exists w'. split; [apply run_cons; eauto|].
      assert (popup_kept (fun s => s <> TimedOut) (Some id) (self w')) as Hk'.
      { apply (run_kept _ _ (EvDone id :: evs) w w').
        - discriminate.
        - revert Hk. apply popup_kept_weaken. intros s ->. discriminate.
        - apply run_cons; eauto. }
      destruct Hk' as (_ & _ & Hw). destruct (Hw id eq_refl) as (p & Hp & Hs).
      exists p. split; [assumption|].
      destruct (popup_state p); [left; reflexivity| |contradiction].
      right. split; [reflexivity|]. left. reflexivity.
    + assert (popup_kept (fun s => s = Shown) (Some id) (self w1)) as Hk1.
      { eapply step_kept; [|exact Hk|exact H1].
        left. intros id' [= <-]. assumption. }
      destruct (IH w1 Hk1) as (w' & Hrun & p & Hp & Hs).
      exists w'. split; [apply run_cons; eauto|].
      exists p. split; [assumption|].
      destruct Hs as [Hs|[Hs Hin]]; [left; assumption|].
      right. split; [assumption|]. right. assumption.
Qed.

(** *** The auto-close of a popup that is not persistent *)

Section Scheduled.

Variable b : bool.
Variable t0 : Timer.
Variable id : nat.
Hypothesis t0_closes : action t0 = CbClose id.

Lemma close_scheduled_later (tls : list Popup) (tms : list Timer)
    (c c' : Z) :
  c <= c' ->
  close_scheduled b t0 id tls tms c -> close_scheduled b t0 id tls tms c'.
Proof.
  intros Hc (Hid & Hu & p & Hp & Hs). split; [assumption|].
  split; [assumption|]. exists p. split; [assumption|].
  destruct (popup_state p); try assumption. lia.
Qed.

Lemma close_scheduled_insert (tls : list Popup) (tms : list Timer)
    (x : Timer) (c : Z) :
  action x <> CbClose id ->
  close_scheduled b t0 id tls tms c ->
  close_scheduled b t0 id tls (insert_timer x tms) c.
Proof.
  intros Hx (Hid & Hu & p & Hp & Hs). split; [assumption|]. split.
  - intros t Ht Ha. apply In_insert_timer in Ht as [-> | Ht].
    + contradiction.
    + apply Hu; assumption.
  - exists p. split; [assumption|].
    destruct (popup_state p); try assumption.
    apply In_insert_timer. right. assumption.
Qed.

Lemma close_scheduled_append (tls : list Popup) (tms : list Timer)
    (p : Popup) (c : Z) :
  popup_id p = length tls ->
  close_scheduled b t0 id tls tms c ->
  close_scheduled b t0 id (tls ++ [p]) tms c.
Proof.
  intros Hnew (Hid & Hu & q & Hq & Hs). split; [|split; [assumption|]].
  - intros i r Hr. apply lookup_app_Some in Hr as [Hr|[Hlen Hr]].
    + apply Hid. assumption.
    + apply list_lookup_singleton_Some in Hr as [Hi ->]. lia.
  - exists q. split; [|assumption]. apply lookup_app_l_Some. assumption.
Qed.

Lemma close_scheduled_lt (tls : list Popup) (tms : list Timer) (c : Z) :
  close_scheduled b t0 id tls tms c -> (id < length tls)%nat.
Proof.
  intros (_ & _ & p & Hp & _). apply lookup_lt_Some in Hp. assumption.
Qed.

(** The event loop takes a due reminder off the queue. *)
Lemma close_scheduled_pop_trigger (tls : list Popup) (t : Timer)
    (q : list Timer) (c : Z) :
  action t = CbTrigger ->
  close_scheduled b t0 id tls (t :: q) c -> close_scheduled b t0 id tls q c.
Proof.
  intros Ht (Hid & Hu & p & Hp & Hs). split; [assumption|]. split.
  - intros u Hin. apply Hu. right. assumption.
  - exists p. split; [assumption|].
    destruct (popup_state p); try assumption.
    destruct Hs as [<-|Hs]; [congruence|assumption].
Qed.

(** The event loop runs a due auto-close. *)
Lemma close_scheduled_fire (tls : list Popup) (t : Timer) (q : list Timer)
    (j : nat) (c : Z) :
  action t = CbClose j -> due t <= c ->
  close_scheduled b t0 id tls (t :: q) c ->
  close_scheduled b t0 id
    (map (fun p => if Nat.eqb (popup_id p) j
                   then match popup_state p with
                        | Shown => set_popup_state TimedOut p
                        | _ => p
                        end
                   else p) tls) q c.
Proof.
  intros Ht Hdue (Hid & Hu & p & Hp & Hs). split; [|split].
  - intros i r. rewrite lookup_map.
    destruct (tls !! i) as [r0|] eqn:E; simpl; [|discriminate].
    intros [= <-]. apply Hid in E.
    destruct (Nat.eqb (popup_id r0) j); [|assumption].
    destruct (popup_state r0); assumption.
  - intros u Hin. apply Hu. right. assumption.
  - rewrite lookup_map, Hp. simpl. eexists. split; [reflexivity|].
    pose proof (Hid _ _ Hp) as Hpid.
    destruct (Nat.eqb_spec (popup_id p) j) as [Heq|Hne].
    + assert (t = t0) as ->.
      { apply Hu; [left; reflexivity|]. rewrite Ht. congruence. }
      destruct (popup_state p) eqn:Es; simpl; rewrite ?Es; assumption.
    + destruct (popup_state p) eqn:Es; try assumption.
      destruct Hs as [<-|Hs]; [|assumption].
      rewrite t0_closes in Ht. injection Ht as <-. congruence.
Qed.

(** A click on a Done button. *)
Lemma close_scheduled_done (tls : list Popup) (tms : list Timer)
    (j : nat) (c : Z) :
  b = true \/ j <> id ->
  close_scheduled b t0 id tls tms c ->
  close_scheduled b t0 id
    (map (fun p => if Nat.eqb (popup_id p) j
                   then match popup_state p with
                        | Shown => set_popup_state Dismissed p
                        | _ => p
                        end
                   else p) tls) tms c.
Proof.
  intros Hj (Hid & Hu & p & Hp & Hs). split; [|split; [assumption|]].
  - intros i r. rewrite lookup_map.
    destruct (tls !! i) as [r0|] eqn:E; simpl; [|discriminate].
    intros [= <-]. apply Hid in E.
    destruct (Nat.eqb (popup_id r0) j); [|assumption].
    destruct (popup_state r0); assumption.
  - rewrite lookup_map, Hp. simpl. eexists. split; [reflexivity|].
    pose proof (Hid _ _ Hp) as Hpid.
    destruct (Nat.eqb_spec (popup_id p) j) as [Heq|Hne]; [|assumption].
    destruct (popup_state p) eqn:Es; simpl; rewrite ?Es; try assumption.
    destruct Hj as [Hj|Hj]; [assumption|congruence].
Qed.

Lemma closes_same (a a' : App) :
  toplevels (root a') = toplevels (root a) ->
  timers (root a') = timers (root a) ->
  clock (root a) <= clock (root a') ->
  closes b t0 id a -> closes b t0 id a'.
Proof.
  unfold closes. intros -> -> Hc. apply close_scheduled_later. assumption.
Qed.

Lemma trigger_stretch_closes (d : Draws) (a : App) :
  closes b t0 id a -> closes b t0 id (trigger_stretch pf d a).
Proof.
  unfold closes. intros H. pose proof (close_scheduled_lt _ _ _ H) as Hlt.
  rewrite trigger_stretch_toplevels, trigger_stretch_timers.
  replace (clock (root (trigger_stretch pf d a))) with (clock (root a))
    by (destruct pf as [[|]];
        destruct a as [[? ? ? ? ? ? ? [|] [|]] [? ? ? ? ? ? ? [|]] ? [? ? ? ?]];
        reflexivity).
  destruct (popup_persistent (settings a)).
  - apply close_scheduled_append; [reflexivity|assumption].
  - apply close_scheduled_insert.
    + unfold auto_close. simpl. intros [= E]. lia.
    + apply close_scheduled_append; [reflexivity|assumption].
Qed.

Lemma tick_with_closes (quiet : bool) (a : App) :
  closes b t0 id a -> closes b t0 id (tick_with quiet a).
Proof.
  unfold closes, tick_with. open_app a. simpl.
  repeat match goal with
         | |- context [if ?c then _ else _] => destruct c
         end; simpl; auto.
  apply close_scheduled_insert. discriminate.
Qed.

Lemma run_due_closes (d : Draws) (a : App) :
  closes b t0 id a -> closes b t0 id (run_due pf d a).
Proof.
  intros H. unfold run_due.
  destruct (timers (root a)) as [|t q] eqn:E; [assumption|].
  destruct (due t <=? clock (root a)) eqn:Ed; [|assumption].
  apply Z.leb_le in Ed. unfold closes in H. rewrite E in H.
  destruct (action t) as [|j] eqn:Ea; simpl.
  - apply trigger_stretch_closes.
    apply close_scheduled_pop_trigger in H; [|assumption].
    unfold closes. open_app a. exact H.
  - apply (close_scheduled_fire _ _ _ j) in H; [|assumption..].
    unfold closes. open_app a. exact H.
Qed.

Lemma step_closes (ev : Event) (w w' : World) :
  b = true \/ ev <> EvDone id ->
  closes b t0 id (self w) -> step pf ev w = Ok w' -> closes b t0 id (self w').
Proof.
  intros Hev H. destruct ev; simpl.
  - destruct (timer_loop_body_spec now (self w)) as (q & _ & ->). simpl.
    intros [= <-]. simpl. apply tick_with_closes. assumption.
  - intros [= <-]. simpl. apply run_due_closes. assumption.
  - intros [= <-]. revert H. apply closes_same;
      destruct w as [a ?]; open_app a; simpl; try reflexivity. lia.
  - intros [= <-]. revert H. apply closes_same;
      destruct w as [a ?]; open_app a; unfold toggle_timer; simpl;
      match goal with |- context [if ?c then _ else _] => destruct c end;
      simpl; try reflexivity; lia.
  - destruct (running (session (self w))); intros [= <-]; [|assumption].
    revert H. apply closes_same; destruct w as [a ?]; open_app a;
      simpl; try reflexivity; lia.
  - intros [= <-]. simpl. apply trigger_stretch_closes. assumption.
  - intros [= <-]. simpl. unfold closes in *.
    destruct w as [a ?]. open_app a. simpl in *.
    apply close_scheduled_done; [|assumption].
    destruct Hev as [Hev|Hev]; [left; assumption|].
    right. intros ->. apply Hev. reflexivity.
  - intros [= <-]. revert H. apply closes_same;
      destruct w as [a ?]; open_app a; unfold toggle_theme; simpl;
      match goal with |- context [if ?c then _ else _] => destruct c end;
      simpl; try reflexivity; lia.
  - intros [= <-]. revert H. apply closes_same;
      destruct w as [a ?]; open_app a; simpl; try reflexivity; lia.
  - intros [= <-]. assumption.
  - intros [= <-]. revert H. apply closes_same;
      destruct w as [a ?]; open_app a; simpl; try reflexivity; lia.
  - intros [= <-]. revert H. apply closes_same;
      destruct w as [a ?]; open_app a; simpl; try reflexivity; lia.
  - intros [= <-]. revert H. apply closes_same;
      destruct w as [a ?]; open_app a; simpl; try reflexivity; lia.
  - intros [= <-]. revert H. apply closes_same;
      destruct w as [a ?]; open_app a; simpl; try reflexivity; lia.
  - intros [= <-]. revert H. apply closes_same;
      destruct w as [a ?]; open_app a; simpl; try reflexivity; lia.
  - intros [= <-]. revert H. apply closes_same;
      destruct w as [a ?]; open_app a; simpl; try reflexivity; lia.
  - intros [= <-]. assumption.
Qed.

End Scheduled.

Lemma closes_weaken (t0 : Timer) (id : nat) (a : App) :
  closes false t0 id a -> closes true t0 id a.
Proof.
  intros (Hid & Hu & p & Hp & Hs). split; [assumption|].
  split; [assumption|]. exists p. split; [assumption|].
  destruct (popup_state p); auto.
Qed.

(** A popup that is not persistent, once shown, has its auto-close in
    force. *)
Lemma shown_popup_closes (st sec : Exercise) (ty : secondary_type)
    (app : App) :
  tk_ok (root app) ->
  popup_persistent (settings app) = false ->
  closes false (auto_close app) (length (toplevels (root app)))
    (show_stretch_popup st sec ty app).
Proof.
  intros (Hid & Htm & _) Hp. unfold closes, close_scheduled.
  rewrite show_stretch_popup_toplevels, show_stretch_popup_timers, Hp.
  split; [|split].
  - intros i r Hr. apply lookup_app_Some in Hr as [Hr|[Hlen Hr]].
    + apply Hid. assumption.
    + apply list_lookup_singleton_Some in Hr as [Hi <-]. simpl. lia.
  - intros t Ht Hact. apply In_insert_timer in Ht as [-> | Ht];
      [reflexivity|].
    destruct (Htm t _ Ht Hact) as [Hj _]. lia.
  - eexists. split.
    + rewrite lookup_app_r by lia. rewrite Nat.sub_diag. reflexivity.
    + simpl. apply In_insert_timer. left. reflexivity.
Qed.

(** While its auto-close is in force, a window leaves the screen through
    its own Done button, or when the auto-close runs, and that is no
    sooner than it is due. *)
Lemma scheduled_until_closed (t0 : Timer) (id : nat) (evs : list Event)
    (w : World) :
  action t0 = CbClose id ->
  closes false t0 id (self w) ->
  exists w',
    run pf evs w = Ok w' /\
    exists p,
      toplevels (root (self w')) !! id = Some p /\
      match popup_state p with
      | Shown => In t0 (timers (root (self w')))
      | TimedOut => due t0 <= clock (root (self w'))
      | Dismissed => In (EvDone id) evs
      end.
Proof.
  intros Ha. revert w. induction evs as [|ev evs IH]; intros w Hk.
  - exists w. split; [reflexivity|].
    destruct Hk as (_ & _ & p & Hp & Hs). exists p. split; [assumption|].
    destruct (popup_state p); try assumption. discriminate.
  - destruct (step_total pf ev w) as [w1 H1].
    assert (ev = EvDone id \/ ev <> EvDone id) as [-> | Hne].
    { destruct ev; try (right; discriminate).
      destruct (Nat.eq_dec id0 id) as [-> | Hd]; [left; reflexivity|].
      right. intros [= E]. contradiction. }
    + destruct (run_total pf evs w1) as [w' Hrun].
      exists w'. split; [apply run_cons; eauto|].
      assert (closes true t0 id (self w')) as Hk'.
      { apply (run_invariant pf (fun w => closes true t0 id (self w)))
          with (evs := EvDone id :: evs) (w := w).
        - intros ev0 wa wb. apply step_closes; [assumption|].
          left. reflexivity.
        - apply closes_weaken. assumption.
        - apply run_cons; eauto. }
      destruct Hk' as (_ & _ & p & Hp & Hs). exists p. split; [assumption|].
      destruct (popup_state p); try assumption. left. reflexivity.
    + assert (closes false t0 id (self w1)) as Hk1.
      { eapply step_closes; [exact Ha| |exact Hk|exact H1].
        right. assumption. }
      destruct (IH w1 Hk1) as (w' & Hrun & p & Hp & Hs).
      exists w'. split; [apply run_cons; eauto|].
      exists p. split; [assumption|].
      destruct (popup_state p); try assumption. right. assumption.
Qed.

(** With nothing else pending, the auto-close runs at the first turn of
    the event loop that finds it due. *)
Lemma shown_popup_fires (st sec : Exercise) (ty : secondary_type)
    (app : App) (file : settings_file) (ms : Z) (d : Draws) :
  popup_persistent (settings app) = false ->
  timers (root app) = [] ->
  0 <= ms ->
  exists w',
    run pf [EvElapse ms; EvIdle d]
        (mkWorld (show_stretch_popup st sec ty app) file) = Ok w' /\
    exists p,
      toplevels (root (self w')) !! length (toplevels (root app)) = Some p /\
      popup_state p =
        if popup_timeout_seconds (settings app) * 1000 <=? ms
        then TimedOut else Shown.
Proof.
  intros Hp Hq Hms. eexists. split; [reflexivity|].
  cbn [self on_app].
  set (a1 := show_stretch_popup st sec ty app).
  assert (timers (root a1) = [auto_close app]) as Ht.
  { unfold a1. rewrite show_stretch_popup_timers, Hp, Hq. reflexivity. }
  pose proof (show_stretch_popup_toplevels st sec ty app) as Htl.
  fold a1 in Htl.
  assert (clock (root a1) = clock (root app)) as Hc.
  { unfold a1. destruct app as [[? ? ? ? ? ? ? [|] ?] ? ? []]; reflexivity. }
  set (a2 := with_root (fun tk => set_clock (clock tk + Z.max 0 ms) tk) a1).
  assert (timers (root a2) = [auto_close app]) as Ht2
    by (rewrite <- Ht; unfold a2; destruct a1 as [? ? ? []]; reflexivity).
  assert (toplevels (root a2) = toplevels (root a1)) as Htl2
    by (unfold a2; destruct a1 as [? ? ? []]; reflexivity).
  assert (clock (root a2) = clock (root app) + ms) as Hc2.
  { rewrite <- Hc. unfold a2. destruct a1 as [? ? ? []]. simpl. lia. }
  unfold run_due. rewrite Ht2, Hc2.
  change (due (auto_close app))
    with (clock (root app)
          + Z.max 0 (popup_timeout_seconds (settings app) * 1000)).
  change (action (auto_close app))
    with (CbClose (length (toplevels (root app)))).
  destruct (popup_timeout_seconds (settings app) * 1000 <=? ms) eqn:E.
  - replace (clock (root app)
             + Z.max 0 (popup_timeout_seconds (settings app) * 1000)
             <=? clock (root app) + ms) with true by (symmetry; lia).
    cbn [run_callback].
    assert (forall q x,
               toplevels (root (with_root
                  (close_popup TimedOut (length (toplevels (root app))))
                  (with_root (set_timers q) x))) =
               map (fun p =>
                      if Nat.eqb (popup_id p) (length (toplevels (root app)))
                      then match popup_state p with
                           | Shown => set_popup_state TimedOut p
                           | _ => p
                           end
                      else p) (toplevels (root x))) as Hcl
      by (intros q [? ? ? []]; reflexivity).
    rewrite Hcl, Htl2, Htl, lookup_map.
    rewrite lookup_app_r by reflexivity.
    rewrite Nat.sub_diag. cbn. rewrite Nat.eqb_refl. cbn.
    eexists. split; reflexivity.
  - replace (clock (root app)
             + Z.max 0 (popup_timeout_seconds (settings app) * 1000)
             <=? clock (root app) + ms) with false by (symmetry; lia).
    rewrite Htl2, Htl. rewrite lookup_app_r by reflexivity.
    rewrite Nat.sub_diag. cbn. eexists. split; reflexivity.
Qed.

(** C8: [show_stretch_popup] puts the popup on screen. If
    [popup_persistent] is false it registers the auto-close, due
    [popup_timeout_seconds] (in ms) from now: the callback is in the
    toolkit's queue, and whatever happens next the popup is on screen
    with the callback still pending, or it was timed out, no sooner than
    the callback was due, or it was dismissed by its Done button; with
    nothing else pending, the first turn of the event loop once
    [popup_timeout_seconds] have passed times the popup out, and a turn
    before that leaves it on screen. If [popup_persistent] is true it
    registers nothing, and whatever happens next the popup is never
    timed out: it is on screen, or it was dismissed by its Done
    button. *)
Theorem persistent_popup_stays (st sec : Exercise) (ty : secondary_type)
    (app : App) (file : settings_file) (evs : list Event) :
  tk_ok (root app) ->
  let id := length (toplevels (root app)) in
  let shown := show_stretch_popup st sec ty app in
  (exists p, toplevels (root shown) !! id = Some p /\
             popup_id p = id /\ popup_state p = Shown) /\
  (popup_persistent (settings app) = false ->
     timers (root shown) = insert_timer (auto_close app) (timers (root app)) /\
     In (auto_close app) (timers (root shown)) /\
     action (auto_close app) = CbClose id /\
     due (auto_close app) =
       clock (root app) + Z.max 0 (popup_timeout_seconds (settings app) * 1000) /\
     (exists w',
        run pf evs (mkWorld shown file) = Ok w' /\
        exists p,
          toplevels (root (self w')) !! id = Some p /\
          match popup_state p with
          | Shown => In (auto_close app) (timers (root (self w')))
          | TimedOut => due (auto_close app) <= clock (root (self w'))
          | Dismissed => In (EvDone id) evs
          end) /\
     (timers (root app) = [] ->
      forall (ms : Z) (d : Draws),
        0 <= ms ->
        exists w',
          run pf [EvElapse ms; EvIdle d] (mkWorld shown file) = Ok w' /\
          exists p,
            toplevels (root (self w')) !! id = Some p /\
            popup_state p =
              if popup_timeout_seconds (settings app) * 1000 <=? ms
              then TimedOut else Shown)) /\
  (popup_persistent (settings app) = true ->
     timers (root shown) = timers (root app) /\
     exists w',
       run pf evs (mkWorld shown file) = Ok w' /\
       exists p,
         toplevels (root (self w')) !! id = Some p /\
         (popup_state p = Shown \/
          (popup_state p = Dismissed /\ In (EvDone id) evs))).
Proof.
  intros Hok id shown. split; [|split].
  - subst shown id. rewrite show_stretch_popup_toplevels.
    eexists. split.
    + rewrite lookup_app_r by lia. rewrite Nat.sub_diag. reflexivity.
    + split; reflexivity.
  - intros Hp. subst shown id.
    rewrite show_stretch_popup_timers, Hp.
    split; [reflexivity|]. split; [apply In_insert_timer; auto|].
    split; [reflexivity|]. split; [reflexivity|]. split.
    + apply (scheduled_until_closed (auto_close app) _ evs
               (mkWorld (show_stretch_popup st sec ty app) file));
        [reflexivity|].
      apply shown_popup_closes; assumption.
    + intros Hq ms d Hms. apply shown_popup_fires; assumption.
  - intros Hp. split.
    + subst shown. rewrite show_stretch_popup_timers, Hp. reflexivity.
    + apply (watched_until_done id evs (mkWorld shown file)).
      apply persistent_popup_watched; assumption.
Qed.

(** C9: [trigger_stretch], which the Now button calls, does not consult
    the quiet hours: in every state it adds one to [stretch_count],
    selects a stretch and a secondary exercise from the catalog, and
    shows the popup. The countdown does: at expiry it requests a
    reminder exactly when [is_quiet_hours] answers false. *)
Theorem now_ignores_quiet_hours (d : Draws) (now : time) (w : World) :
  (exists w1 st sec,
     step pf (EvNow d) w = Ok w1 /\
     stretch_count (session (self w1)) = stretch_count (session (self w)) + 1 /\
     current_stretch (session (self w1)) = Some st /\ In st STRETCHES /\
     current_secondary_exercise (session (self w1)) = Some sec /\
     In sec (catalog_of (last_secondary_type (session (self w1)))) /\
     toplevels (root (self w1)) =
       (toplevels (root (self w)) ++ [popup_of d (self w)])%list /\
     popup_state (popup_of d (self w)) = Shown) /\
  (forall quiet : bool,
     is_quiet_hours (self w) now = Ok quiet ->
     running (session (self w)) = true ->
     paused (session (self w)) = false ->
     remaining_seconds (session (self w)) <= 0 ->
     exists w2,
       step pf (EvTick now) w = Ok w2 /\
       pending_triggers (self w2) =
         (pending_triggers (self w) + (if quiet then 0 else 1))%nat /\
       toplevels (root (self w2)) = toplevels (root (self w)) /\
       stretch_count (session (self w2)) = stretch_count (session (self w))).
Proof.
  split.
  - exists (on_app (trigger_stretch pf d) w),
      (choice STRETCHES (draw_stretch d)),
      (choice (catalog_of
                 (other_type (last_secondary_type (session (self w)))))
              (draw_secondary d)).
    split; [reflexivity|]. unfold on_app. cbn [self].
    rewrite trigger_stretch_session, trigger_stretch_toplevels.
    cbn [stretch_count current_stretch current_secondary_exercise
         last_secondary_type].
    split; [reflexivity|]. split; [reflexivity|].
    split; [apply choice_In; discriminate|]. split; [reflexivity|].
    split; [apply choice_catalog|]. split; reflexivity.
  - intros quiet Hq Hr Hp Hz. simpl.
    destruct (timer_loop_body_expiry now (self w) Hr Hp Hz)
      as (q & Hq' & ->).
    rewrite Hq in Hq'. injection Hq' as <-. eexists. split; [reflexivity|].
    destruct w as [a f]. simpl. open_app a. unfold pending_triggers.
    destruct quiet; simpl.
    + rewrite Nat.add_0_r. auto.
    + rewrite filter_insert_timer by reflexivity.
      rewrite Nat.add_1_r. auto.
Qed.

(** C10: a fresh application has [last_secondary_type = "breathing"], so
    its first reminder carries an eye exercise; and whatever the program
    then goes through, the reminders shown since startup went eye,
    breathing, eye, breathing, ..., each with an exercise of its
    catalog. *)
Theorem startup_eye_first (file : settings_file) (app : App)
    (d : Draws) (evs : list Event) :
  init file = Ok app ->
  last_secondary_type (session app) = breathing /\
  reminders (trigger_stretch pf d app) =
    [(eye, choice EYE_EXERCISES (draw_secondary d))] /\
  exists w',
    run pf evs (mkWorld app file) = Ok w' /\
    shown_types (self w') = eye_first (length (shown_types (self w'))) /\
    eye_first_state (self w').
Proof.
  intros Hinit. apply init_fresh in Hinit as [Hs Hr].
  assert (eye_first_state app) as H0.
  { unfold eye_first_state, reminders. rewrite Hs, Hr. simpl.
    repeat split. constructor. }
  split; [rewrite Hs; reflexivity|]. split.
  - rewrite trigger_stretch_reminders. unfold reminders.
    rewrite Hs, Hr. reflexivity.
  - destruct (run_total pf evs (mkWorld app file)) as [w' Hrun].
    exists w'. split; [assumption|].
    assert (eye_first_state (self w')) as H'.
    { revert Hrun.
      apply (run_invariant pf (fun w => eye_first_state (self w)));
        [|exact H0].
      intros ev w0 w1. apply step_eye_first. }
    split; [|assumption].
    destruct H' as (Hty & _). unfold shown_types, reminders in *.
    rewrite length_map in *. rewrite map_map in Hty. exact Hty.
Qed.

End Reminders.

Lemma persistent_popup_stays_witness :
  (timers (root persistent_shown) = timers (root persistent_app) /\
   exists w',
     run no_plyer [EvElapse 180000; EvIdle (mkDraws 0 0); EvTick noon]
         (mkWorld persistent_shown NoFile) = Ok w' /\
     exists p,
       toplevels (root (self w')) !! 0%nat = Some p /\
       (popup_state p = Shown \/
        (popup_state p = Dismissed /\
         In (EvDone 0)
            [EvElapse 180000; EvIdle (mkDraws 0 0); EvTick noon]))) /\
  (In (auto_close fresh_app) (timers (root fresh_shown)) /\
   (exists w',
      run no_plyer [EvElapse 179999; EvIdle (mkDraws 0 0)]
          (mkWorld fresh_shown NoFile) = Ok w' /\
      exists p,
        toplevels (root (self w')) !! 0%nat = Some p /\
        popup_state p = Shown) /\
   (exists w',
      run no_plyer [EvElapse 180000; EvIdle (mkDraws 0 0)]
          (mkWorld fresh_shown NoFile) = Ok w' /\
      exists p,
        toplevels (root (self w')) !! 0%nat = Some p /\
        popup_state p = TimedOut)).
Proof.
  split.
  - apply (persistent_popup_stays no_plyer (choice STRETCHES 0)
             (choice EYE_EXERCISES 0) eye persistent_app NoFile
             [EvElapse 180000; EvIdle (mkDraws 0 0); EvTick noon]).
    + exact fresh_tk_ok.
    + reflexivity.
  - pose proof (persistent_popup_stays no_plyer (choice STRETCHES 0)
                  (choice EYE_EXERCISES 0) eye fresh_app NoFile []
                  fresh_tk_ok) as H.
    cbv zeta in H. destruct H as (_ & H & _).
    destruct (H eq_refl) as (_ & Hin & _ & _ & _ & Hf).
    split; [exact Hin|]. split.
    + apply (Hf eq_refl 179999 (mkDraws 0 0)). lia.
    + apply (Hf eq_refl 180000 (mkDraws 0 0)). lia.
Defined.

Lemma now_ignores_quiet_hours_witness :
  exists w2,
    step no_plyer (EvTick (mk_time 23 30 0 0)) expired_at_night = Ok w2 /\
    pending_triggers (self w2) =
      (pending_triggers (self expired_at_night) + 0)%nat /\
    toplevels (root (self w2)) = toplevels (root (self expired_at_night)) /\
    stretch_count (session (self w2)) =
      stretch_count (session (self expired_at_night)).
Proof.
  apply (proj2 (now_ignores_quiet_hours no_plyer (mkDraws 0 0)
                  (mk_time 23 30 0 0) expired_at_night) true).
  - reflexivity.
  - reflexivity.
  - reflexivity.
  - simpl. lia.
Defined.

Lemma startup_eye_first_witness :
  last_secondary_type (session fresh_app) = breathing /\
  reminders (trigger_stretch no_plyer (mkDraws 3 4) fresh_app) =
    [(eye, choice EYE_EXERCISES 4)] /\
  exists w',
    run no_plyer [EvNow (mkDraws 1 1); EvToggleTimer 0; EvNow (mkDraws 2 2)]
        (mkWorld fresh_app NoFile) = Ok w' /\
    shown_types (self w') = eye_first (length (shown_types (self w'))) /\
    eye_first_state (self w').
Proof.
  apply (startup_eye_first no_plyer NoFile fresh_app (mkDraws 3 4)).
  reflexivity.
Defined.

(** Pressing Now inside the quiet hours shows the reminder all the same. *)
Example now_at_night :
  is_quiet_hours night_app (mk_time 23 30 0 0) = Ok true /\
  exists w',
    step no_plyer (EvNow (mkDraws 0 0)) (mkWorld night_app NoFile) = Ok w' /\
    stretch_count (session (self w')) = 1 /\
    map popup_state (toplevels (root (self w'))) = [Shown].
Proof.
  split; [reflexivity|]. eexists. split; [reflexivity|].
  split; reflexivity.
Qed.

(** A popup that is not persistent is timed out once its timeout has
    passed and the event loop runs; a persistent one is not. *)
Example popup_times_out :
  exists w',
    run no_plyer [EvNow (mkDraws 0 0); EvElapse 180000; EvIdle (mkDraws 0 0)]
        (mkWorld fresh_app NoFile) = Ok w' /\
    map popup_state (toplevels (root (self w'))) = [TimedOut].
Proof. eexists. split; [vm_compute; reflexivity|]. reflexivity. Qed.

Example persistent_popup_does_not :
  exists w',
    run no_plyer [EvNow (mkDraws 0 0); EvElapse 180000; EvIdle (mkDraws 0 0)]
        (mkWorld (with_settings (set_popup_persistent true) fresh_app) NoFile)
      = Ok w' /\
    map popup_state (toplevels (root (self w'))) = [Shown].
Proof. eexists. split; [vm_compute; reflexivity|]. reflexivity. Qed.

(* ===================================================================== *)
(** * Further properties *)
(* ===================================================================== *)

(** ** The countdown, in general *)

Section CountdownCycle.

Variable pf : Platform.

Lemma is_quiet_hours_settings (a b : App) (now : time) :
  settings a = settings b -> is_quiet_hours a now = is_quiet_hours b now.
Proof. unfold is_quiet_hours. intros ->. reflexivity. Qed.

Lemma run_app (l1 l2 : list Event) (w : World) :
  run pf (l1 ++ l2) w = run pf l1 w ≫= run pf l2.
Proof.
  revert w. induction l1 as [|ev l1 IH]; intros w; [reflexivity|].
  simpl. destruct (step pf ev w) as [w1| |]; simpl; [apply IH|reflexivity..].
Qed.

(** From [r >= 0] seconds, [r] ticks reach zero and one more resets the
    countdown, asking for a reminder unless the hours are quiet. *)
Lemma expiry_after (app : App) (file : settings_file) (nows : list time)
    (now : time) :
  running (session app) = true -> paused (session app) = false ->
  Z.of_nat (length nows) = remaining_seconds (session app) ->
  exists quiet : bool,
    is_quiet_hours app now = Ok quiet /\
    run pf (map EvTick (nows ++ [now])) (mkWorld app file) =
    Ok (mkWorld
          (with_remaining_seconds (interval_minutes (settings app) * 60)
             (if quiet then with_remaining_seconds 0 app
              else with_root (after 0 CbTrigger)
                     (with_remaining_seconds 0 app)))
          file).
Proof.
  intros Hr Hp Hlen.
  set (s0 := with_remaining_seconds 0 app).
  destruct (timer_loop_body_expiry now s0) as (q & Hq & Hbody).
  - subst s0. open_app app. exact Hr.
  - subst s0. open_app app. exact Hp.
  - subst s0. open_app app. simpl. lia.
  - exists q. split.
    + rewrite <- Hq. apply is_quiet_hours_settings.
      subst s0. open_app app. reflexivity.
    + rewrite map_app, run_app, countdown_ticks by (assumption || lia).
      rewrite Hlen, Z.sub_diag. fold s0. simpl. rewrite Hbody. simpl.
      replace (interval_minutes (settings s0))
        with (interval_minutes (settings app))
        by (subst s0; open_app app; reflexivity).
      reflexivity.
Qed.

(** X1: a running, unpaused countdown at [r >= 0] seconds is reset to
    [interval_minutes * 60] by exactly [r + 1] ticks, not sooner; the
    last of them requests one reminder if the hours are not quiet and
    none if they are, and nothing else changes. *)
Theorem countdown_reaches_reset (app : App) (f : settings_file)
    (nows : list time) (now : time) :
  running (session app) = true -> paused (session app) = false ->
  Z.of_nat (length nows) = remaining_seconds (session app) ->
  exists (quiet : bool) (w0 w1 : World),
    is_quiet_hours app now = Ok quiet /\
    run pf (map EvTick nows) (mkWorld app f) = Ok w0 /\
    remaining_seconds (session (self w0)) = 0 /\
    pending_triggers (self w0) = pending_triggers app /\
    run pf (map EvTick (nows ++ [now])) (mkWorld app f) = Ok w1 /\
    remaining_seconds (session (self w1)) =
      interval_minutes (settings app) * 60 /\
    pending_triggers (self w1) =
      (pending_triggers app + (if quiet then 0 else 1))%nat /\
    settings (self w1) = settings app /\
    toplevels (root (self w1)) = toplevels (root app) /\
    stretch_count (session (self w1)) = stretch_count (session app) /\
    file w1 = f.
Proof.
  intros Hr Hp Hlen.
  destruct (expiry_after app f nows now Hr Hp Hlen) as (q & Hq & Hrun).
  exists q. eexists. eexists.
  split; [exact Hq|].
  split; [apply countdown_ticks; assumption || lia|].
  rewrite Hlen, Z.sub_diag.
  split; [open_app app; reflexivity|].
  split; [open_app app; reflexivity|].
  split; [exact Hrun|].
  unfold pending_triggers. open_app app. destruct q; simpl.
  - rewrite Nat.add_0_r. repeat split.
  - rewrite filter_insert_timer by reflexivity. rewrite Nat.add_1_r.
    repeat split.
Qed.

Lemma tick_idle (now : time) (app : App) :
  running (session app) = false \/ paused (session app) = true ->
  timer_loop_body now app = Ok app.
Proof.
  unfold timer_loop_body. intros [-> | ->]; [reflexivity|].
  destruct (running (session app)); reflexivity.
Qed.

(** X2: once the timer is stopped, the iterations the loop may still make
    change nothing: no countdown, no reminder. *)
Theorem ticks_after_stop (t : Z) (nows : list time) (w : World) :
  running (session (self w)) = true ->
  run pf (EvToggleTimer t :: map EvTick nows) w =
  Ok (on_app stop_timer w).
Proof.
  intros Hr. simpl. unfold on_app at 1, toggle_timer. rewrite Hr.
  fold (on_app stop_timer w).
  assert (running (session (self (on_app stop_timer w))) = false) as Hs
    by (destruct w as [a f]; open_app a; reflexivity).
  revert Hs. generalize (on_app stop_timer w). clear.
  induction nows as [|now nows IH]; intros w Hs; [reflexivity|].
  simpl. rewrite tick_idle by (left; assumption). simpl.
  destruct w as [a f]. apply IH. assumption.
Qed.

(** X3: pausing, then resuming, gives back exactly the state before the
    pause, however many iterations the loop made in between. *)
Theorem pause_freezes_everything (nows : list time) (w : World) :
  running (session (self w)) = true -> paused (session (self w)) = false ->
  run pf (EvTogglePause :: map EvTick nows ++ [EvTogglePause]) w = Ok w.
Proof.
  intros Hr Hp. simpl. rewrite Hr. simpl.
  assert (forall w1, paused (session (self w1)) = true ->
            run pf (map EvTick nows) w1 = Ok w1) as Hidle.
  { clear. induction nows as [|now nows IH]; intros w1 H1; [reflexivity|].
    simpl. rewrite tick_idle by (right; assumption). simpl.
    destruct w1 as [a f]. apply IH. assumption. }
  rewrite run_app, Hidle
    by (destruct w as [a f]; open_app a; simpl in *; rewrite Hp; reflexivity).
  simpl.
  replace (running (session (self (on_app toggle_pause w)))) with true
    by (destruct w as [a f]; open_app a; simpl in *; congruence).
  destruct w as [a f]. open_app a. simpl in *. subst. reflexivity.
Qed.

(** X4: with quiet hours disabled, every [interval_minutes * 60 + 1]
    ticks of a running, unpaused countdown request one reminder: [k]
    such periods request [k], and the countdown is back at the full
    interval. *)
Theorem countdown_period (k : nat) (nows : list time) (app : App)
    (file : settings_file) :
  quiet_enabled (settings app) = false ->
  running (session app) = true -> paused (session app) = false ->
  0 <= interval_minutes (settings app) ->
  remaining_seconds (session app) = interval_minutes (settings app) * 60 ->
  Z.of_nat (length nows) =
    Z.of_nat k * (interval_minutes (settings app) * 60 + 1) ->
  exists w',
    run pf (map EvTick nows) (mkWorld app file) = Ok w' /\
    remaining_seconds (session (self w')) =
      interval_minutes (settings app) * 60 /\
    pending_triggers (self w') = (pending_triggers app + k)%nat /\
    settings (self w') = settings app /\
    toplevels (root (self w')) = toplevels (root app).
Proof.
  revert nows app. induction k as [|k IH]; intros nows app Hq Hr Hp Hi Hrem Hlen.
  - destruct nows; [|simpl in Hlen; lia].
    exists (mkWorld app file). rewrite Nat.add_0_r. auto.
  - set (n := interval_minutes (settings app) * 60) in *.
    assert (Z.to_nat n < length nows)%nat as Hlt by lia.
    destruct (firstn (S (Z.to_nat n)) nows) as [|x l] eqn:El using rev_ind.
    { apply (f_equal length) in El. rewrite length_firstn in El.
      change (length (@nil time)) with 0%nat in El. lia. }
    clear IHl.
    assert (length (l ++ [x]) = S (Z.to_nat n)) as Hl1
      by (rewrite <- El, length_firstn; lia).
    rewrite length_app in Hl1. simpl in Hl1.
    rewrite <- (firstn_skipn (S (Z.to_nat n)) nows), El, map_app, run_app.
    destruct (expiry_after app file l x Hr Hp) as (q & Hquiet & ->); [lia|].
    rewrite is_quiet_hours_disabled in Hquiet by assumption.
    injection Hquiet as <-. simpl.
    match goal with
    | |- context [run pf _ (mkWorld ?a file)] => set (app1 := a)
    end.
    assert (settings app1 = settings app) as Hs1
      by (subst app1; open_app app; reflexivity).
    destruct (IH (skipn (S (Z.to_nat n)) nows) app1)
      as (w' & Hrun & Hrem' & Hpend & Hset & Htl).
    + rewrite Hs1. assumption.
    + subst app1. open_app app. exact Hr.
    + subst app1. open_app app. exact Hp.
    + rewrite Hs1. assumption.
    + rewrite Hs1. subst app1. open_app app. reflexivity.
    + rewrite Hs1, length_skipn. fold n. lia.
    + exists w'. split; [exact Hrun|]. rewrite Hs1 in *.
      split; [exact Hrem'|]. split; [|split; [exact Hset|]].
      * rewrite Hpend. subst app1. unfold pending_triggers.
        open_app app. simpl.
        rewrite filter_insert_timer by reflexivity. lia.
      * rewrite Htl. subst app1. open_app app. reflexivity.
Qed.

End CountdownCycle.

Lemma countdown_reaches_reset_witness :
  exists (quiet : bool) (w0 w1 : World),
    is_quiet_hours one_minute_app noon = Ok quiet /\
    run no_plyer (map EvTick (repeat noon 60)) (mkWorld one_minute_app NoFile)
      = Ok w0 /\
    remaining_seconds (session (self w0)) = 0 /\
    pending_triggers (self w0) = pending_triggers one_minute_app /\
    run no_plyer (map EvTick (repeat noon 60 ++ [noon]))
        (mkWorld one_minute_app NoFile) = Ok w1 /\
    remaining_seconds (session (self w1)) =
      interval_minutes (settings one_minute_app) * 60 /\
    pending_triggers (self w1) =
      (pending_triggers one_minute_app + (if quiet then 0 else 1))%nat /\
    settings (self w1) = settings one_minute_app /\
    toplevels (root (self w1)) = toplevels (root one_minute_app) /\
    stretch_count (session (self w1)) = stretch_count (session one_minute_app) /\
    file w1 = NoFile.
Proof.
  apply (countdown_reaches_reset no_plyer one_minute_app NoFile
           (repeat noon 60) noon); reflexivity.
Defined.

Lemma ticks_after_stop_witness :
  run no_plyer (EvToggleTimer 0 :: map EvTick [noon; noon])
      (mkWorld one_minute_app NoFile) =
  Ok (on_app stop_timer (mkWorld one_minute_app NoFile)).
Proof.
  apply (ticks_after_stop no_plyer 0 [noon; noon]). reflexivity.
Defined.

Lemma pause_freezes_everything_witness :
  run no_plyer (EvTogglePause :: map EvTick [noon; noon] ++ [EvTogglePause])
      (mkWorld one_minute_app NoFile) =
  Ok (mkWorld one_minute_app NoFile).
Proof.
  apply (pause_freezes_everything no_plyer [noon; noon]); reflexivity.
Defined.

Lemma countdown_period_witness :
  exists w',
    run no_plyer (map EvTick (repeat noon 122)) (mkWorld one_minute_app NoFile)
      = Ok w' /\
    remaining_seconds (session (self w')) =
      interval_minutes (settings one_minute_app) * 60 /\
    pending_triggers (self w') = (pending_triggers one_minute_app + 2)%nat /\
    settings (self w') = settings one_minute_app /\
    toplevels (root (self w')) = toplevels (root one_minute_app).
Proof.
  apply (countdown_period no_plyer 2 (repeat noon 122) one_minute_app NoFile);
    try reflexivity.
  simpl. lia.
Defined.

(** ** What every run keeps *)

Section Invariants.

Variable pf : Platform.

(** A property of the application that only the listed operations can
    break is kept by every step. The settings widgets write one field
    each, never the theme, and only the sound checkbox writes
    [sound_enabled]. *)
Lemma step_keeps (I : App -> Prop) (ev : Event) :
  (forall q a, I a -> I (tick_with q a)) ->
  (forall d a, I a -> I (run_due pf d a)) ->
  (forall ms a, I a -> I (with_root (set_clock ms) a)) ->
  (forall t a, I a -> I (toggle_timer t a)) ->
  (forall a, I a -> I (toggle_pause a)) ->
  (forall d a, I a -> I (trigger_stretch pf d a)) ->
  (forall id a, I a -> I (with_root (close_popup Dismissed id) a)) ->
  (forall a, I a -> I (toggle_theme a)) ->
  (forall f a,
      (forall s, theme (f s) = theme s) ->
      (forall s, sound_enabled (f s) = sound_enabled s \/
                 exists b o, ev = EvSetSound b o /\ sound_enabled (f s) = b) ->
      I a -> I (with_settings f a)) ->
  forall w w', I (self w) -> step pf ev w = Ok w' -> I (self w').
Proof.
  intros Htick Hdue Hclock Htimer Hpause Htrig Hclose Htheme Hset w w' HI.
  destruct ev; simpl.
  - destruct (timer_loop_body_spec now (self w)) as (q & _ & ->). simpl.
    intros [= <-]. apply Htick. assumption.
  - intros [= <-]. apply Hdue. assumption.
  - intros [= <-]. simpl.
    replace (with_root (fun tk => set_clock (clock tk + Z.max 0 ms) tk) (self w))
      with (with_root (set_clock (clock (root (self w)) + Z.max 0 ms)) (self w))
      by reflexivity.
    apply Hclock. assumption.
  - intros [= <-]. apply Htimer. assumption.
  - destruct (running (session (self w))); intros [= <-]; [|assumption].
    apply Hpause. assumption.
  - intros [= <-]. apply Htrig. assumption.
  - intros [= <-]. apply Hclose. assumption.
  - intros [= <-]. apply Htheme. assumption.
  - intros [= <-]. apply Hset; [intros []; reflexivity| |assumption].
    intros []; left; reflexivity.
  - intros [= <-]. assumption.
  - intros [= <-]. apply Hset; [intros []; reflexivity| |assumption].
    intros []; left; reflexivity.
  - intros [= <-]. apply Hset; [intros []; reflexivity| |assumption].
    intros []; left; reflexivity.
  - intros [= <-]. apply Hset; [intros []; reflexivity| |assumption].
    intros []; left; reflexivity.
  - intros [= <-]. apply Hset; [intros []; reflexivity| |assumption].
    intros []; left; reflexivity.
  - intros [= <-]. apply Hset; [intros []; reflexivity| |assumption].
    intros []; left; reflexivity.
  - intros [= <-]. apply Hset; [intros []; reflexivity| |assumption].
    intros []; right; eauto.
  - intros [= <-]. assumption.
Qed.

(** [run_due] is a pending callback taken off the queue and run. *)
Lemma run_due_keeps (I : App -> Prop) (d : Draws) (a : App) :
  (forall q x, I x -> I (with_root (set_timers q) x)) ->
  (forall x, I x -> I (trigger_stretch pf d x)) ->
  (forall id x, I x -> I (with_root (close_popup TimedOut id) x)) ->
  I a -> I (run_due pf d a).
Proof.
  intros Hq Htrig Hclose HI. unfold run_due.
  destruct (timers (root a)) as [|t q]; [assumption|].
  destruct (due t <=? clock (root a)); [|assumption].
  destruct (action t); simpl; auto.
Qed.

(** Decides a goal about [trigger_stretch] or [show_stretch_popup] by
    running it on each combination of the flags that it branches on. *)
Ltac on_flags a tac :=
  destruct pf as [[|]];
  destruct a as [[? ? ? ? ? ? ? [|] [|]] [? ? ? ? ? ? ? [|]] ? [? ? ? ?]];
  tac.

(** Opens the application and decides the branches left in the goal. *)
Ltac on_fields a tac :=
  open_app a; unfold tick_with, toggle_timer, toggle_theme; simpl in *;
  split_ifs; tac.

(** *** The loader keeps what its steps keep *)

Lemma load_field_keeps (I : App -> Prop) (key : string) (st : jvalue)
    (apply : jvalue -> App -> result App) (a a' : App) :
  (forall v x x', I x -> apply v x = Ok x' -> I x') ->
  I a -> load_field key st apply a = Ok a' -> I a'.
Proof.
  intros Happ HI. unfold load_field. intros H.
  apply bind_Ok_inv in H as ([|] & _ & H).
  - apply bind_Ok_inv in H as (v & _ & H). eapply Happ; eassumption.
  - injection H as <-. assumption.
Qed.

Lemma via_keeps {A : Type} (I : App -> Prop) (conv : jvalue -> result A)
    (setter : A -> Settings -> Settings) :
  (forall f x, (forall s, theme (f s) = theme s) -> I x ->
               I (with_settings f x)) ->
  (forall c s, theme (setter c s) = theme s) ->
  forall v x x', I x -> via conv setter v x = Ok x' -> I x'.
Proof.
  intros Hset Hth v x x' HI H. unfold via in H.
  apply bind_Ok_inv in H as (c & _ & [= <-]).
  apply Hset; [apply Hth|assumption].
Qed.

Lemma load_settings_keeps (I : App -> Prop) (file : settings_file)
    (a a' : App) :
  (forall f x, (forall s, theme (f s) = theme s) -> I x ->
               I (with_settings f x)) ->
  (forall v x x', I x -> load_theme v x = Ok x' -> I x') ->
  I a -> load_settings file a = Ok a' -> I a'.
Proof.
  intros Hset Hth HI. unfold load_settings. intros H.
  apply try_except_Ok_inv in H as [H| ->]; [|assumption].
  destruct (path_exists file); [|injection H as <-; assumption].
  apply bind_Ok_inv in H as (st & _ & H).
  apply bind_Ok_inv in H as (a1 & H1 & H).
  apply (load_field_keeps I) in H1;
    [|apply via_keeps; [assumption|intros ? []; reflexivity]|assumption].
  apply bind_Ok_inv in H as (a2 & H2 & H).
  apply (load_field_keeps I) in H2;
    [|apply via_keeps; [assumption|intros ? []; reflexivity]|assumption].
  apply bind_Ok_inv in H as (a3 & H3 & H).
  apply (load_field_keeps I) in H3;
    [|apply via_keeps; [assumption|intros ? []; reflexivity]|assumption].
  apply bind_Ok_inv in H as (a4 & H4 & H).
  apply (load_field_keeps I) in H4;
    [|apply via_keeps; [assumption|intros ? []; reflexivity]|assumption].
  apply bind_Ok_inv in H as (a5 & H5 & H).
  apply (load_field_keeps I) in H5; [|assumption|assumption].
  apply bind_Ok_inv in H as (a6 & H6 & H).
  apply (load_field_keeps I) in H6;
    [|apply via_keeps; [assumption|intros ? []; reflexivity]|assumption].
  apply bind_Ok_inv in H as (a7 & H7 & H).
  apply (load_field_keeps I) in H7;
    [|apply via_keeps; [assumption|intros ? []; reflexivity]|assumption].
  apply bind_Ok_inv in H as (a8 & H8 & H).
  apply (load_field_keeps I) in H8;
    [|apply via_keeps; [assumption|intros ? []; reflexivity]|assumption].
  apply (load_field_keeps I) in H;
    [assumption|apply via_keeps; [assumption|intros ? []; reflexivity]
    |assumption].
Qed.

(** *** The theme and its palette *)

Lemma toggle_theme_ok (a : App) : theme_ok (toggle_theme a).
Proof.
  unfold theme_ok, toggle_theme. open_app a. simpl.
  destruct (String.eqb _ "light"); reflexivity.
Qed.

Lemma load_theme_ok (v : jvalue) (x x' : App) :
  load_theme v x = Ok x' -> theme_ok x'.
Proof.
  unfold load_theme, theme_ok. destruct v; try discriminate.
  destruct (THEMES !! s) eqn:E; [|discriminate]. intros [= <-].
  open_app x. simpl. assumption.
Qed.

Lemma theme_ok_names (a : App) :
  theme_ok a -> theme (settings a) = "light" \/ theme (settings a) = "dark".
Proof.
  unfold theme_ok, THEMES. intros H.
  apply lookup_insert_Some in H as [[H _]|[_ H]]; [left; congruence|].
  apply lookup_insert_Some in H as [[H _]|[_ H]]; [right; congruence|].
  rewrite lookup_empty in H. discriminate.
Qed.

Lemma step_theme_ok (ev : Event) (w w' : World) :
  theme_ok (self w) -> step pf ev w = Ok w' -> theme_ok (self w').
Proof.
  apply (step_keeps theme_ok ev); unfold theme_ok.
  - intros q a H. on_fields a ltac:(exact H).
  - intros d a H. apply run_due_keeps; [| | |exact H].
    + intros q x Hx. on_fields x ltac:(exact Hx).
    + intros x Hx. on_flags x ltac:(exact Hx).
    + intros id x Hx. on_fields x ltac:(exact Hx).
  - intros ms a H. on_fields a ltac:(exact H).
  - intros t a H. on_fields a ltac:(exact H).
  - intros a H. on_fields a ltac:(exact H).
  - intros d a H. on_flags a ltac:(exact H).
  - intros id a H. on_fields a ltac:(exact H).
  - intros a _. apply toggle_theme_ok.
  - intros f a Hf _ H. open_app a. simpl in *. rewrite Hf. exact H.
Qed.

(** X5: in every state the program reaches after starting from a
    settings file it accepts, [self.theme] is "light" or "dark" and
    [self.colors] is that theme's palette. *)
Theorem theme_always_has_its_palette (f : settings_file) (app : App)
    (evs : list Event) (w : World) :
  init f = Ok app -> run pf evs (mkWorld app f) = Ok w ->
  THEMES !! theme (settings (self w)) = Some (colors (self w)) /\
  (theme (settings (self w)) = "light" \/ theme (settings (self w)) = "dark").
Proof.
  intros Hinit Hrun.
  assert (theme_ok app) as H0.
  { revert Hinit. unfold init.
    apply (load_settings_keeps theme_ok); [| |reflexivity].
    - intros g x Hg Hx. unfold theme_ok in *. open_app x. simpl in *.
      rewrite Hg. exact Hx.
    - intros v x x' _. apply load_theme_ok. }
  assert (theme_ok (self w)) as Hw.
  { revert Hrun.
    apply (run_invariant pf (fun w => theme_ok (self w))); [|exact H0].
    intros ev w0 w1. apply step_theme_ok. }
  split; [exact Hw|apply theme_ok_names; exact Hw].
Qed.

(** X6: [toggle_theme] switches between the two themes, palette
    included: from a state whose theme has its palette, toggling twice
    gives the state back. *)
Theorem toggle_theme_twice (a : App) :
  THEMES !! theme (settings a) = Some (colors a) ->
  toggle_theme a <> a /\ toggle_theme (toggle_theme a) = a.
Proof.
  intros H. destruct (theme_ok_names a H) as [E|E];
    open_app a; simpl in *; subst; unfold toggle_theme; simpl;
    injection H as <-; (split; [discriminate|reflexivity]).
Qed.

(** *** The exercises on display *)

Lemma current_ok_same (a b : App) :
  current_stretch (session b) = current_stretch (session a) ->
  current_secondary_exercise (session b) =
    current_secondary_exercise (session a) ->
  last_secondary_type (session b) = last_secondary_type (session a) ->
  current_ok a -> current_ok b.
Proof. unfold current_ok. intros -> -> ->. tauto. Qed.

Lemma step_current_ok (ev : Event) (w w' : World) :
  current_ok (self w) -> step pf ev w = Ok w' -> current_ok (self w').
Proof.
  assert (forall d a, current_ok (trigger_stretch pf d a)) as Htrig.
  { intros d a. unfold current_ok. rewrite trigger_stretch_session.
    cbn [current_stretch current_secondary_exercise last_secondary_type].
    split; [apply choice_In; discriminate|apply choice_catalog]. }
  apply (step_keeps current_ok ev).
  - intros q a. apply current_ok_same; on_fields a ltac:(reflexivity).
  - intros d a H. apply run_due_keeps; [| | |exact H].
    + intros q x. apply current_ok_same; on_fields x ltac:(reflexivity).
    + intros x _. apply Htrig.
    + intros id x. apply current_ok_same; on_fields x ltac:(reflexivity).
  - intros ms a. apply current_ok_same; on_fields a ltac:(reflexivity).
  - intros t a. apply current_ok_same; on_fields a ltac:(reflexivity).
  - intros a. apply current_ok_same; on_fields a ltac:(reflexivity).
  - intros d a _. apply Htrig.
  - intros id a. apply current_ok_same; on_fields a ltac:(reflexivity).
  - intros a. apply current_ok_same; on_fields a ltac:(reflexivity).
  - intros f a _ _. apply current_ok_same; open_app a; reflexivity.
Qed.

(** X7: the main window displays either no exercise yet, or a stretch of
    [STRETCHES] together with a secondary exercise drawn from the catalog
    that [last_secondary_type] names; so the panel that [toggle_theme]
    rebuilds with [last_secondary_type] is headed as the exercise was
    drawn. *)
Theorem displayed_exercises_match (f : settings_file) (app : App)
    (evs : list Event) (w : World) :
  init f = Ok app -> run pf evs (mkWorld app f) = Ok w ->
  current_ok (self w).
Proof.
  intros Hinit. apply init_fresh in Hinit as [Hs _].
  apply (run_invariant pf (fun w => current_ok (self w))).
  - intros ev w0 w1. apply step_current_ok.
  - unfold current_ok. simpl. rewrite Hs. exact I.
Qed.

End Invariants.

Lemma theme_always_has_its_palette_witness :
  exists w,
    run no_plyer [EvToggleTheme WriteOk; EvNow (mkDraws 0 0)]
        (mkWorld fresh_app NoFile) = Ok w /\
    THEMES !! theme (settings (self w)) = Some (colors (self w)) /\
    (theme (settings (self w)) = "light" \/
     theme (settings (self w)) = "dark").
Proof.
  eexists. split; [vm_compute; reflexivity|].
  apply (theme_always_has_its_palette no_plyer NoFile fresh_app
           [EvToggleTheme WriteOk; EvNow (mkDraws 0 0)]).
  - reflexivity.
  - vm_compute. reflexivity.
Defined.

Lemma toggle_theme_twice_witness :
  toggle_theme fresh_app <> fresh_app /\
  toggle_theme (toggle_theme fresh_app) = fresh_app.
Proof. apply toggle_theme_twice. reflexivity. Defined.

Lemma displayed_exercises_match_witness :
  exists w,
    run no_plyer [EvNow (mkDraws 5 2); EvToggleTheme OpenFails]
        (mkWorld fresh_app NoFile) = Ok w /\
    current_ok (self w).
Proof.
  eexists. split; [vm_compute; reflexivity|].
  apply (displayed_exercises_match no_plyer NoFile fresh_app
           [EvNow (mkDraws 5 2); EvToggleTheme OpenFails]).
  - reflexivity.
  - vm_compute. reflexivity.
Defined.

(** ** Reminders, their popups and what accompanies them *)

Section Bookkeeping.

Variable pf : Platform.

Ltac on_flags a tac :=
  destruct pf as [[|]];
  destruct a as [[? ? ? ? ? ? ? [|] [|]] [? ? ? ? ? ? ? [|]] ? [? ? ? ?]];
  tac.

Ltac on_fields a tac :=
  open_app a; unfold tick_with, toggle_timer, toggle_theme; simpl in *;
  split_ifs; tac.

(** *** The counter *)

Lemma counted_same (a b : App) :
  stretch_count (session b) = stretch_count (session a) ->
  map popup_count (toplevels (root b)) = map popup_count (toplevels (root a)) ->
  counted a -> counted b.
Proof.
  unfold counted. intros Hc Hm (H0 & Hle & Hall).
  rewrite Hc. apply (f_equal length) in Hm as Hlen.
  rewrite !length_map in Hlen. rewrite Hlen.
  split; [assumption|]. split; [assumption|].
  apply List.Forall_forall. intros p Hp.
  apply (in_map popup_count) in Hp. rewrite Hm in Hp.
  apply in_map_iff in Hp as (p0 & <- & Hp0).
  rewrite List.Forall_forall in Hall. apply Hall. assumption.
Qed.

Lemma close_popup_counts (how : PopupState) (id : nat) (a : App) :
  map popup_count (toplevels (root (with_root (close_popup how id) a))) =
  map popup_count (toplevels (root a)).
Proof.
  open_app a. simpl. rewrite map_map. apply map_ext. intros p.
  destruct (Nat.eqb (popup_id p) id); [|reflexivity].
  destruct (popup_state p); reflexivity.
Qed.

Lemma trigger_stretch_counted (d : Draws) (a : App) :
  counted a -> counted (trigger_stretch pf d a).
Proof.
  unfold counted. intros (H0 & Hle & Hall).
  rewrite trigger_stretch_session, trigger_stretch_toplevels.
  cbn [stretch_count]. rewrite length_app. simpl length.
  split; [lia|]. split; [lia|].
  apply Forall_app. split; [assumption|].
  constructor; [simpl; lia|constructor].
Qed.

Lemma step_counted (ev : Event) (w w' : World) :
  counted (self w) -> step pf ev w = Ok w' -> counted (self w').
Proof.
  apply (step_keeps pf counted ev).
  - intros q a. apply counted_same; on_fields a ltac:(reflexivity).
  - intros d a H. apply run_due_keeps; [| | |exact H].
    + intros q x. apply counted_same; on_fields x ltac:(reflexivity).
    + intros x. apply trigger_stretch_counted.
    + intros id x. apply counted_same; [|apply close_popup_counts].
      open_app x. reflexivity.
  - intros ms a. apply counted_same; on_fields a ltac:(reflexivity).
  - intros t a (H0 & Hle & Hall). unfold counted, toggle_timer.
    open_app a. simpl in *. split_ifs; simpl; repeat split; try assumption; lia.
  - intros a. apply counted_same; on_fields a ltac:(reflexivity).
  - intros d a. apply trigger_stretch_counted.
  - intros id a. apply counted_same; [|apply close_popup_counts].
    open_app a. reflexivity.
  - intros a. apply counted_same; on_fields a ltac:(reflexivity).
  - intros f a _ _. apply counted_same; open_app a; reflexivity.
Qed.

(** X8: [stretch_count] is never negative and never more than the number
    of popups shown since the program started, and the number that a
    popup displays ("Stretch #n") is at least 1. *)
Theorem stretch_count_bounds (f : settings_file) (app : App)
    (evs : list Event) (w : World) :
  init f = Ok app -> run pf evs (mkWorld app f) = Ok w ->
  0 <= stretch_count (session (self w))
    <= Z.of_nat (length (toplevels (root (self w)))) /\
  Forall (fun p => 1 <= popup_count p) (toplevels (root (self w))).
Proof.
  intros Hinit Hrun. apply init_fresh in Hinit as [Hs Hr].
  assert (counted (self w)) as (H0 & Hle & Hall).
  { revert Hrun. apply (run_invariant pf (fun w => counted (self w))).
    - intros ev w0 w1. apply step_counted.
    - unfold counted. simpl. rewrite Hs, Hr. simpl.
      repeat split; [lia..|constructor]. }
  auto.
Qed.

(** *** Popups are final *)

Lemma later_popup_refl (p : Popup) : later_popup p p.
Proof. unfold later_popup. tauto. Qed.

Lemma grown_same (tl0 : list Popup) (a b : App) :
  toplevels (root b) = toplevels (root a) ->
  grown tl0 (toplevels (root a)) -> grown tl0 (toplevels (root b)).
Proof. intros ->. tauto. Qed.

Lemma grown_trigger (tl0 : list Popup) (d : Draws) (a : App) :
  grown tl0 (toplevels (root a)) ->
  grown tl0 (toplevels (root (trigger_stretch pf d a))).
Proof.
  intros H i p Hp. destruct (H i p Hp) as (p' & Hp' & Hl).
  exists p'. split; [|assumption].
  rewrite trigger_stretch_toplevels. apply lookup_app_l_Some. assumption.
Qed.

Lemma grown_close (tl0 : list Popup) (how : PopupState) (id : nat) (a : App) :
  grown tl0 (toplevels (root a)) ->
  grown tl0 (toplevels (root (with_root (close_popup how id) a))).
Proof.
  intros H i p Hp. destruct (H i p Hp) as (p' & Hp' & Hl).
  open_app a. simpl in *. rewrite lookup_map, Hp'. simpl.
  eexists. split; [reflexivity|].
  destruct (Nat.eqb (popup_id p') id); [|assumption].
  destruct (popup_state p') eqn:E; try assumption.
  destruct Hl as (H1 & H2 & H3 & H4 & H5 & H6 & H7).
  unfold later_popup. simpl. repeat split; try assumption.
  intros Hne. pose proof (H7 Hne) as Hx. congruence.
Qed.

Lemma step_grown (tl0 : list Popup) (ev : Event) (w w' : World) :
  grown tl0 (toplevels (root (self w))) -> step pf ev w = Ok w' ->
  grown tl0 (toplevels (root (self w'))).
Proof.
  apply (step_keeps pf (fun a => grown tl0 (toplevels (root a))) ev).
  - intros q a. apply grown_same; on_fields a ltac:(reflexivity).
  - intros d a H.
    apply (run_due_keeps pf (fun a => grown tl0 (toplevels (root a))));
      [| | |exact H].
    + intros q x. apply grown_same; on_fields x ltac:(reflexivity).
    + intros x. apply grown_trigger.
    + intros id x. apply grown_close.
  - intros ms a. apply grown_same; on_fields a ltac:(reflexivity).
  - intros t a. apply grown_same; on_fields a ltac:(reflexivity).
  - intros a. apply grown_same; on_fields a ltac:(reflexivity).
  - intros d a. apply grown_trigger.
  - intros id a. apply grown_close.
  - intros a. apply grown_same; on_fields a ltac:(reflexivity).
  - intros f a _ _. apply grown_same; open_app a; reflexivity.
Qed.

(** X9: popups are final. Whatever happens after a popup was created,
    it keeps its place in the list of windows and what it displays
    (message, stretch, secondary exercise and type, number); and once it
    has left the screen it stays off, dismissed or timed out as it
    was. *)
Theorem popups_are_final (evs : list Event) (w w' : World)
    (i : nat) (p : Popup) :
  run pf evs w = Ok w' ->
  toplevels (root (self w)) !! i = Some p ->
  exists p',
    toplevels (root (self w')) !! i = Some p' /\
    popup_message p' = popup_message p /\
    popup_stretch p' = popup_stretch p /\
    popup_secondary p' = popup_secondary p /\
    popup_secondary_type p' = popup_secondary_type p /\
    popup_count p' = popup_count p /\
    (popup_state p <> Shown -> popup_state p' = popup_state p).
Proof.
  intros Hrun Hp.
  assert (grown (toplevels (root (self w))) (toplevels (root (self w'))))
    as Hg.
  { revert Hrun.
    apply (run_invariant pf
             (fun x => grown (toplevels (root (self w)))
                             (toplevels (root (self x))))).
    - intros ev w0 w1. apply step_grown.
    - intros j q Hq. exists q. split; [assumption|apply later_popup_refl]. }
  destruct (Hg i p Hp) as (p' & Hp' & (_ & H2 & H3 & H4 & H5 & H6 & H7)).
  exists p'. auto 10.
Qed.

(** *** Sounds and notifications *)

Lemma trigger_stretch_sounds (d : Draws) (a : App) :
  sounds (trigger_stretch pf d a) =
  (sounds a + (if sound_enabled (settings a) then 1 else 0))%nat.
Proof.
  unfold sounds.
  on_flags a ltac:(simpl; rewrite ?List.filter_app, ?length_app; simpl; lia).
Qed.

Lemma trigger_stretch_notifications (d : Draws) (a : App) :
  notifications (trigger_stretch pf d a) =
  (notifications a + (if HAS_PLYER pf then 1 else 0))%nat.
Proof.
  unfold notifications.
  on_flags a ltac:(simpl; rewrite ?List.filter_app, ?length_app; simpl; lia).
Qed.

Lemma tallied_same (l0 n0 s0 : nat) (a b : App) :
  length (toplevels (root b)) = length (toplevels (root a)) ->
  log (root b) = log (root a) ->
  tallied pf l0 n0 s0 a -> tallied pf l0 n0 s0 b.
Proof.
  intros Hl Hlog (k & H1 & H2 & H3). exists k.
  unfold notifications, sounds in *. rewrite Hlog, Hl.
  repeat split; assumption.
Qed.

Lemma trigger_stretch_tallied (l0 n0 s0 : nat) (d : Draws) (a : App) :
  tallied pf l0 n0 s0 a -> tallied pf l0 n0 s0 (trigger_stretch pf d a).
Proof.
  intros (k & H1 & H2 & H3). exists (S k).
  rewrite trigger_stretch_toplevels, length_app,
    trigger_stretch_notifications, trigger_stretch_sounds.
  simpl length.
  destruct (HAS_PLYER pf), (sound_enabled (settings a)); repeat split; lia.
Qed.

Lemma close_popup_length (how : PopupState) (id : nat) (a : App) :
  length (toplevels (root (with_root (close_popup how id) a))) =
  length (toplevels (root a)).
Proof. open_app a. simpl. apply length_map. Qed.

Lemma step_tallied (l0 n0 s0 : nat) (ev : Event) (w w' : World) :
  tallied pf l0 n0 s0 (self w) -> step pf ev w = Ok w' ->
  tallied pf l0 n0 s0 (self w').
Proof.
  apply (step_keeps pf (tallied pf l0 n0 s0) ev).
  - intros q a. apply tallied_same; on_fields a ltac:(reflexivity).
  - intros d a H. apply run_due_keeps; [| | |exact H].
    + intros q x. apply tallied_same; on_fields x ltac:(reflexivity).
    + intros x. apply trigger_stretch_tallied.
    + intros id x. apply tallied_same;
        [apply close_popup_length|open_app x; reflexivity].
  - intros ms a. apply tallied_same; on_fields a ltac:(reflexivity).
  - intros t a. apply tallied_same; on_fields a ltac:(reflexivity).
  - intros a. apply tallied_same; on_fields a ltac:(reflexivity).
  - intros d a. apply trigger_stretch_tallied.
  - intros id a. apply tallied_same;
      [apply close_popup_length|open_app a; reflexivity].
  - intros a. apply tallied_same; on_fields a ltac:(reflexivity).
  - intros f a _ _. apply tallied_same; open_app a; reflexivity.
Qed.

(** X10: over any run, if [k] popups were added then exactly [k] desktop
    notifications were requested when the notification library is
    importable and none when it is not, and at most [k] sounds were
    played: nothing but a reminder notifies or sounds, and a reminder
    does so once. *)
Theorem reminders_notify_once (evs : list Event) (w w' : World) :
  run pf evs w = Ok w' ->
  exists k : nat,
    length (toplevels (root (self w'))) =
      (length (toplevels (root (self w))) + k)%nat /\
    notifications (self w') =
      (notifications (self w) + (if HAS_PLYER pf then k else 0))%nat /\
    (sounds (self w') <= sounds (self w) + k)%nat.
Proof.
  apply (run_invariant pf
           (fun x => tallied pf (length (toplevels (root (self w))))
                             (notifications (self w)) (sounds (self w))
                             (self x))).
  - intros ev w0 w1. apply step_tallied.
  - exists 0%nat. rewrite !Nat.add_0_r.
    destruct (HAS_PLYER pf); auto.
Qed.

Lemma muted_same (n0 : nat) (a b : App) :
  sound_enabled (settings b) = sound_enabled (settings a) ->
  log (root b) = log (root a) -> muted n0 a -> muted n0 b.
Proof. unfold muted, sounds. intros -> ->. tauto. Qed.

Lemma trigger_stretch_muted (n0 : nat) (d : Draws) (a : App) :
  muted n0 a -> muted n0 (trigger_stretch pf d a).
Proof.
  unfold muted. intros [Hs Hn].
  rewrite trigger_stretch_settings, trigger_stretch_sounds, Hs.
  split; [reflexivity|lia].
Qed.

Lemma step_muted (n0 : nat) (ev : Event) (w w' : World) :
  (forall o, ev <> EvSetSound true o) ->
  muted n0 (self w) -> step pf ev w = Ok w' -> muted n0 (self w').
Proof.
  intros Hev. apply (step_keeps pf (muted n0) ev).
  - intros q a. apply muted_same; on_fields a ltac:(reflexivity).
  - intros d a H. apply run_due_keeps; [| | |exact H].
    + intros q x. apply muted_same; on_fields x ltac:(reflexivity).
    + intros x. apply trigger_stretch_muted.
    + intros id x. apply muted_same; open_app x; reflexivity.
  - intros ms a. apply muted_same; on_fields a ltac:(reflexivity).
  - intros t a. apply muted_same; on_fields a ltac:(reflexivity).
  - intros a. apply muted_same; on_fields a ltac:(reflexivity).
  - intros d a. apply trigger_stretch_muted.
  - intros id a. apply muted_same; open_app a; reflexivity.
  - intros a. apply muted_same; on_fields a ltac:(reflexivity).
  - intros f a _ Hs [Hm Hn]. unfold muted, sounds in *.
    open_app a. simpl in *. split; [|assumption].
    match goal with
    | |- sound_enabled (f ?s) = false =>
        destruct (Hs s) as [-> | (b & o & -> & ->)]
    end; [assumption|].
    destruct b; [|reflexivity]. exfalso. apply (Hev o). reflexivity.
Qed.

(** X11: while "Play sound on reminder" is unticked no sound is played:
    from a state with [sound_enabled] false, a run in which the box is
    not ticked plays none, however many reminders it shows. *)
Theorem no_sound_while_muted (evs : list Event) (w w' : World) :
  sound_enabled (settings (self w)) = false ->
  (forall o, ~ In (EvSetSound true o) evs) ->
  run pf evs w = Ok w' ->
  sounds (self w') = sounds (self w) /\
  sound_enabled (settings (self w')) = false.
Proof.
  intros Hs Hev Hrun.
  assert (muted (sounds (self w)) (self w')) as [H1 H2].
  { revert w Hs Hev Hrun.
    induction evs as [|ev evs IH]; intros w Hs Hev Hrun.
    - injection Hrun as <-. split; [assumption|reflexivity].
    - apply run_cons in Hrun as (w1 & H1 & Hrun).
      assert (muted (sounds (self w)) (self w1)) as [Hs1 Hn1].
      { eapply step_muted; [|split; [exact Hs|reflexivity]|exact H1].
        intros o ->. apply (Hev o). left. reflexivity. }
      rewrite <- Hn1. apply IH; [assumption| |assumption].
      intros o Hin. apply (Hev o). right. assumption. }
  auto.
Qed.

End Bookkeeping.

Lemma stretch_count_bounds_witness :
  exists w,
    run no_plyer [EvNow (mkDraws 0 0); EvToggleTimer 5; EvNow (mkDraws 1 1)]
        (mkWorld fresh_app NoFile) = Ok w /\
    0 <= stretch_count (session (self w))
      <= Z.of_nat (length (toplevels (root (self w)))) /\
    Forall (fun p => 1 <= popup_count p) (toplevels (root (self w))).
Proof.
  eexists. split; [vm_compute; reflexivity|].
  apply (stretch_count_bounds no_plyer NoFile fresh_app
           [EvNow (mkDraws 0 0); EvToggleTimer 5; EvNow (mkDraws 1 1)]).
  - reflexivity.
  - vm_compute. reflexivity.
Defined.

Lemma popups_are_final_witness :
  exists p',
    toplevels (root (self (mkWorld
      (with_root (close_popup Dismissed 0) persistent_shown) NoFile)))
      !! 0%nat = Some p' /\
    popup_message p' = "Time to Stretch!" /\
    popup_stretch p' = choice STRETCHES 0 /\
    popup_secondary p' = choice EYE_EXERCISES 0 /\
    popup_secondary_type p' = eye /\
    popup_count p' = 0 /\
    (Shown <> Shown -> popup_state p' = Shown).
Proof.
  apply (popups_are_final no_plyer [EvDone 0]
           (mkWorld persistent_shown NoFile) _ 0%nat
           (mkPopup 0 "Time to Stretch!" (choice STRETCHES 0)
                    (choice EYE_EXERCISES 0) eye 0 Shown));
    reflexivity.
Defined.

Lemma reminders_notify_once_witness :
  exists k : nat,
    length (toplevels (root (self (mkWorld
      (trigger_stretch (mkPlatform true) (mkDraws 0 0) fresh_app) NoFile)))) =
      (length (toplevels (root fresh_app)) + k)%nat /\
    notifications (trigger_stretch (mkPlatform true) (mkDraws 0 0) fresh_app) =
      (notifications fresh_app + k)%nat /\
    (sounds (trigger_stretch (mkPlatform true) (mkDraws 0 0) fresh_app)
       <= sounds fresh_app + k)%nat.
Proof.
  apply (reminders_notify_once (mkPlatform true) [EvNow (mkDraws 0 0)]
           (mkWorld fresh_app NoFile)).
  reflexivity.
Defined.

Lemma no_sound_while_muted_witness :
  exists w',
    run no_plyer [EvNow (mkDraws 0 0); EvNow (mkDraws 1 1)]
        (mkWorld (with_settings (set_sound_enabled false) fresh_app) NoFile)
      = Ok w' /\
    sounds (self w') = 0%nat /\
    sound_enabled (settings (self w')) = false.
Proof.
  eexists. split; [vm_compute; reflexivity|].
  apply (no_sound_while_muted no_plyer
           [EvNow (mkDraws 0 0); EvNow (mkDraws 1 1)]
           (mkWorld (with_settings (set_sound_enabled false) fresh_app)
                    NoFile)).
  - reflexivity.
  - intros o [H|[H|[]]]; discriminate H.
  - vm_compute. reflexivity.
Defined.

(** ** What is left on disk *)

Section Persistence.

Variable pf : Platform.

Lemma step_file (ev : Event) (w w' : World) :
  step pf ev w = Ok w' ->
  file w' = file w \/ file w' = NotJson \/
  file w' = Json (JObj (settings_dict (self w'))).
Proof.
  destruct ev; simpl;
    try (intros [= <-]; auto; destruct o; simpl; auto; fail).
  - destruct (timer_loop_body_spec now (self w)) as (q & _ & ->). simpl.
    intros [= <-]. auto.
  - destruct (running (session (self w))); intros [= <-]; auto.
Qed.

Lemma left_behind_loads (f0 f : settings_file) (app0 : App) :
  init f0 = Ok app0 -> left_behind f0 f ->
  exists app,
    init f = Ok app /\
    (forall a, f = Json (JObj (settings_dict a)) -> theme_ok a ->
               settings app = settings a).
Proof.
  intros H0 [-> | [-> | (a & Ha & ->)]].
  - exists app0. split; [assumption|].
    intros a Hf Ha. unfold init in H0. rewrite Hf in H0.
    rewrite (load_saved a fresh_app _ Ha) in H0. injection H0 as <-.
    reflexivity.
  - exists fresh_app. split; [reflexivity|]. discriminate.
  - eexists. split; [apply (load_saved a fresh_app _ Ha)|].
    intros a' Hd Ha'.
    pose proof (load_saved a fresh_app _ Ha) as L1.
    pose proof (load_saved a' fresh_app _ Ha') as L2.
    rewrite Hd in L1. rewrite L1 in L2. injection L2 as E _.
    simpl. exact E.
Qed.

Lemma run_left_behind (f0 : settings_file) (app0 : App) (evs : list Event)
    (w : World) :
  init f0 = Ok app0 -> run pf evs (mkWorld app0 f0) = Ok w ->
  theme_ok (self w) /\ left_behind f0 (file w).
Proof.
  intros Hinit.
  assert (theme_ok app0) as H0.
  { revert Hinit. unfold init.
    apply (load_settings_keeps theme_ok); [| |reflexivity].
    - intros g x Hg Hx. unfold theme_ok in *. open_app x. simpl in *.
      rewrite Hg. exact Hx.
    - intros v x x' _. apply load_theme_ok. }
  apply (run_invariant pf
           (fun w => theme_ok (self w) /\ left_behind f0 (file w))).
  - intros ev w0 w1 [Ht Hf] Hstep.
    pose proof (step_theme_ok pf ev w0 w1 Ht Hstep) as Ht1.
    split; [assumption|].
    destruct (step_file ev w0 w1 Hstep) as [-> | [-> | ->]].
    + assumption.
    + right; left; reflexivity.
    + right; right. eauto.
  - split; [assumption|left; reflexivity].
Qed.

(** X12: the program never leaves a settings file it cannot start from.
    If it started from the file it found, then after any run, with the
    writes going well or not, starting again from the file then on disk
    does not raise. *)
Theorem always_restartable (f0 : settings_file) (app0 : App)
    (evs : list Event) (w : World) :
  init f0 = Ok app0 -> run pf evs (mkWorld app0 f0) = Ok w ->
  exists app, init (file w) = Ok app.
Proof.
  intros Hinit Hrun.
  destruct (run_left_behind f0 app0 evs w Hinit Hrun) as [_ Hf].
  destruct (left_behind_loads f0 (file w) app0 Hinit Hf) as (app & H & _).
  eauto.
Qed.

(** X13: closing the window saves the settings as they are in memory,
    whether or not a widget had saved them before. If the write
    succeeds, the next start finds all nine settings as they were, and
    nothing of the session: the timer is stopped, the count is zero, the
    first secondary exercise is an eye exercise again. The loop of the
    closed program does nothing any more. *)
Theorem close_then_restart (f0 : settings_file) (app0 : App)
    (evs : list Event) (w : World) (now : time) :
  init f0 = Ok app0 -> run pf evs (mkWorld app0 f0) = Ok w ->
  exists app,
    init (file (on_close WriteOk w)) = Ok app /\
    settings app = settings (self w) /\
    session app = session fresh_app /\
    timer_loop_body now (self (on_close WriteOk w))
      = Ok (self (on_close WriteOk w)).
Proof.
  intros Hinit Hrun.
  destruct (run_left_behind f0 app0 evs w Hinit Hrun) as [Ht _].
  unfold on_close. cbn [file self save_settings].
  set (a := with_session (set_running false) (self w)).
  assert (theme_ok a) as Ha
    by (subst a; unfold theme_ok in *; destruct w as [x ?]; open_app x;
        exact Ht).
  eexists. split; [apply (load_saved a fresh_app _ Ha)|].
  split; [subst a; destruct w as [x ?]; open_app x; reflexivity|].
  split; [reflexivity|].
  apply tick_idle. left. subst a. destruct w as [x ?]. open_app x.
  reflexivity.
Qed.

End Persistence.

Lemma always_restartable_witness :
  exists app,
    init (file (mkWorld (toggle_theme fresh_app)
                  (save_settings (toggle_theme fresh_app) WriteBreaks NoFile)))
      = Ok app.
Proof.
  apply (always_restartable no_plyer NoFile fresh_app
           [EvToggleTheme WriteBreaks]); reflexivity.
Defined.

Lemma close_then_restart_witness :
  exists app,
    init (file (on_close WriteOk
                  (mkWorld (with_settings (set_quiet_enabled true) fresh_app)
                           NoFile))) = Ok app /\
    settings app = settings (with_settings (set_quiet_enabled true) fresh_app) /\
    session app = session fresh_app /\
    timer_loop_body noon
      (self (on_close WriteOk
               (mkWorld (with_settings (set_quiet_enabled true) fresh_app)
                        NoFile)))
    = Ok (self (on_close WriteOk
                  (mkWorld (with_settings (set_quiet_enabled true) fresh_app)
                           NoFile))).
Proof.
  apply (close_then_restart no_plyer NoFile fresh_app
           [EvSetQuietEnabled true]); reflexivity.
Defined.

(** ** More on the settings file *)

Section SettingsFile.

Lemma load_field_ext (key : string) (m m' : gmap string jvalue)
    (apply : jvalue -> App -> result App) (a : App) :
  m !! key = m' !! key ->
  load_field key (JObj m) apply a = load_field key (JObj m') apply a.
Proof. intros H. unfold load_field. simpl. rewrite H. reflexivity. Qed.

(** X14: [load_settings] looks at the nine keys and at nothing else of
    the record that [json.load] returns. When [json.load] returns a
    record from each of two files and the two records agree on the nine
    keys, [load_settings] ends alike on both, in the same state or with
    the same exception: what the records hold under other keys is never
    looked at. (A file on which [json.load] itself raises is none of
    these, whichever key the offending text stands under.) *)
Theorem load_settings_reads_nine_keys (f f' : settings_file)
    (m m' : gmap string jvalue) (a : App) :
  json_load f = Ok (JObj m) ->
  json_load f' = Ok (JObj m') ->
  (forall key, In key SETTINGS_KEYS -> m !! key = m' !! key) ->
  load_settings f a = load_settings f' a.
Proof.
  intros Hf Hf' H.
  destruct f; try discriminate Hf. injection Hf as ->.
  destruct f'; try discriminate Hf'. injection Hf' as ->.
  unfold load_settings. cbn [path_exists json_load]. f_equal.
  cbn [mbind result_bind].
  rewrite (load_field_ext "interval_minutes" m m') by (apply H; simpl; tauto).
  destruct (load_field "interval_minutes" _ _ _) as [a1| |];
    cbn [mbind result_bind]; [|reflexivity..].
  rewrite (load_field_ext "quiet_enabled" m m') by (apply H; simpl; tauto).
  destruct (load_field "quiet_enabled" _ _ _) as [a2| |];
    cbn [mbind result_bind]; [|reflexivity..].
  rewrite (load_field_ext "quiet_start" m m') by (apply H; simpl; tauto).
  destruct (load_field "quiet_start" _ _ _) as [a3| |];
    cbn [mbind result_bind]; [|reflexivity..].
  rewrite (load_field_ext "quiet_end" m m') by (apply H; simpl; tauto).
  destruct (load_field "quiet_end" _ _ _) as [a4| |];
    cbn [mbind result_bind]; [|reflexivity..].
  rewrite (load_field_ext "theme" m m') by (apply H; simpl; tauto).
  destruct (load_field "theme" _ _ _) as [a5| |];
    cbn [mbind result_bind]; [|reflexivity..].
  rewrite (load_field_ext "custom_message" m m') by (apply H; simpl; tauto).
  destruct (load_field "custom_message" _ _ _) as [a6| |];
    cbn [mbind result_bind]; [|reflexivity..].
  rewrite (load_field_ext "popup_timeout_seconds" m m')
    by (apply H; simpl; tauto).
  destruct (load_field "popup_timeout_seconds" _ _ _) as [a7| |];
    cbn [mbind result_bind]; [|reflexivity..].
  rewrite (load_field_ext "popup_persistent" m m') by (apply H; simpl; tauto).
  destruct (load_field "popup_persistent" _ _ _) as [a8| |];
    cbn [mbind result_bind]; [|reflexivity..].
  apply load_field_ext. apply H. simpl. tauto.
Qed.

End SettingsFile.

Lemma load_settings_reads_nine_keys_witness :
  load_settings
    (Json (JObj (<["version" := JInt 2]> {["interval_minutes" := JInt 30]})))
    fresh_app =
  load_settings (Json (JObj {["interval_minutes" := JInt 30]})) fresh_app.
Proof.
  apply (load_settings_reads_nine_keys
           (Json (JObj (<["version" := JInt 2]>
                          {["interval_minutes" := JInt 30]})))
           (Json (JObj {["interval_minutes" := JInt 30]}))
           (<["version" := JInt 2]> {["interval_minutes" := JInt 30]})
           {["interval_minutes" := JInt 30]}).
  - reflexivity.
  - reflexivity.
  - intros key Hin. apply lookup_insert_ne.
    simpl in Hin. intuition (subst; discriminate).
Defined.

(** ** More on quiet hours *)

Section QuietWindow.

Lemma is_quiet_hours_in_window (a : App) (now start end_ : time) :
  quiet_enabled (settings a) = true ->
  strptime_HM (quiet_start (settings a)) = Ok start ->
  strptime_HM (quiet_end (settings a)) = Ok end_ ->
  valid_time now ->
  is_quiet_hours a now = Ok (in_window start end_ now).
Proof.
  intros He Hs Hend Hnow.
  destruct (strptime_HM_valid _ _ Hs) as [Vs _].
  destruct (strptime_HM_valid _ _ Hend) as [Ve _].
  unfold is_quiet_hours, in_window. rewrite He, Hs, Hend. simpl.
  rewrite !time_le_of_midnight, time_ge_of_midnight by assumption.
  destruct (of_midnight start <=? of_midnight end_); reflexivity.
Qed.

Lemma of_midnight_inj (a b : time) :
  valid_time a -> valid_time b -> of_midnight a = of_midnight b -> a = b.
Proof.
  unfold valid_time, of_midnight. destruct a, b. simpl. intros Ha Hb H.
  assert (hour0 = hour1) by lia. assert (minute0 = minute1) by lia.
  assert (second0 = second1) by lia. f_equal; lia.
Qed.

(** X15: exchanging the start and the end of the quiet hours gives the
    complementary window, except that both windows contain their two end
    points: at the start or the end time both evaluators answer true, at
    any other time exactly one does. *)
Theorem quiet_window_swapped (a : App) (now start end_ : time) :
  quiet_enabled (settings a) = true ->
  strptime_HM (quiet_start (settings a)) = Ok start ->
  strptime_HM (quiet_end (settings a)) = Ok end_ ->
  start <> end_ ->
  valid_time now ->
  exists q q' : bool,
    is_quiet_hours a now = Ok q /\
    is_quiet_hours (swap_quiet a) now = Ok q' /\
    (now = start \/ now = end_ -> q = true /\ q' = true) /\
    (now <> start -> now <> end_ -> q' = negb q).
Proof.
  intros He Hs Hend Hne Hnow.
  destruct (strptime_HM_valid _ _ Hs) as [Vs _].
  destruct (strptime_HM_valid _ _ Hend) as [Ve _].
  exists (in_window start end_ now), (in_window end_ start now).
  split; [apply is_quiet_hours_in_window; assumption|].
  split.
  { apply is_quiet_hours_in_window; try assumption;
      destruct a as [[? ? ? ? ? ? ? ? ?] ? ? ?]; assumption. }
  assert (of_midnight start <> of_midnight end_) as Hse
    by (intros E; apply Hne; apply of_midnight_inj; assumption).
  unfold in_window. split.
  - intros [-> | ->];
      repeat match goal with
             | |- context [?x <=? ?y] => destruct (Z.leb_spec x y)
             end; simpl; split; try reflexivity; lia.
  - intros H1 H2.
    assert (of_midnight now <> of_midnight start)
      by (intros E; apply H1; apply of_midnight_inj; assumption).
    assert (of_midnight now <> of_midnight end_)
      by (intros E; apply H2; apply of_midnight_inj; assumption).
    repeat match goal with
           | |- context [?x <=? ?y] => destruct (Z.leb_spec x y)
           end; simpl; try reflexivity; lia.
Qed.

End QuietWindow.

Lemma quiet_window_swapped_witness :
  exists q q' : bool,
    is_quiet_hours night_app noon = Ok q /\
    is_quiet_hours (swap_quiet night_app) noon = Ok q' /\
    (noon = mk_time 22 0 0 0 \/ noon = mk_time 6 0 0 0 ->
     q = true /\ q' = true) /\
    (noon <> mk_time 22 0 0 0 -> noon <> mk_time 6 0 0 0 -> q' = negb q).
Proof.
  apply (quiet_window_swapped night_app noon (mk_time 22 0 0 0)
           (mk_time 6 0 0 0)); try reflexivity.
  - discriminate.
  - unfold valid_time; simpl; lia.
Defined.

(** ** The notification sound *)

Section NotificationSound.

Lemma bell_fallback_cases (env : SoundEnv) (root : bool) :
  (bell_fallback env root = (true, [Bell]) /\
   root = true /\ bell_raises env = false) \/
  (bell_fallback env root = (false, []) /\
   (root = false \/ bell_raises env = true)).
Proof.
  unfold bell_fallback. destruct root, (bell_raises env); auto.
Qed.

Lemma try_commands_None (env : SoundEnv) (cmds : list (list string)) :
  try_commands env cmds = None <->
  forall cmd, In cmd cmds -> Popen_raises env cmd = true.
Proof.
  induction cmds as [|c cmds IH]; simpl.
  - split; [intros _ cmd []|reflexivity].
  - destruct (Popen_raises env c) eqn:E.
    + rewrite IH. split.
      * intros H cmd [<-|Hin]; auto.
      * intros H cmd Hin. apply H. right. assumption.
    + split; [discriminate|]. intros H.
      rewrite (H c) in E by (left; reflexivity). discriminate.
Qed.

Lemma try_commands_Some (env : SoundEnv) (cmds : list (list string))
    (cmd : list string) :
  try_commands env cmds = Some cmd <->
  exists before after_,
    cmds = (before ++ cmd :: after_)%list /\
    Popen_raises env cmd = false /\
    forall c, In c before -> Popen_raises env c = true.
Proof.
  induction cmds as [|c cmds IH]; simpl.
  - split; [discriminate|]. intros (b & a & H & _). destruct b; discriminate.
  - destruct (Popen_raises env c) eqn:E.
    + rewrite IH. split.
      * intros (b & a & -> & H1 & H2). exists (c :: b), a.
        split; [reflexivity|]. split; [assumption|].
        intros x [<-|Hx]; auto.
      * intros ([|c' b] & a & H & H1 & H2).
        -- simpl in H. injection H as -> _. congruence.
        -- simpl in H. injection H as <- ->. exists b, a. split; [reflexivity|].
           split; [assumption|]. intros x Hx. apply H2. right. assumption.
    + split.
      * intros [= <-]. exists [], cmds. split; [reflexivity|].
        split; [assumption|]. intros x [].
      * intros ([|c' b] & a & H & H1 & H2).
        -- simpl in H. injection H as <- _. reflexivity.
        -- simpl in H. injection H as <- _.
           rewrite (H2 c) in E by (left; reflexivity). discriminate.
Qed.

(** X16: [play_notification_sound] returns True exactly when it made one
    thing sound, and then only one; it returns False exactly when every
    means open to it failed: the bell (no root window, or [bell] raised),
    and with it the system sound on Windows with [winsound], or all five
    player commands on Linux. *)
Theorem play_notification_sound_result (env : SoundEnv) (root : bool) :
  let windows :=
    (String.eqb (sys_platform env) "win32" && HAS_WINSOUND env)%bool in
  let linux := (negb windows && String.prefix "linux" (sys_platform env))%bool in
  (exists what, play_notification_sound env root = (true, [what])) \/
  (play_notification_sound env root = (false, []) /\
   (root = false \/ bell_raises env = true) /\
   (windows = true -> PlaySound_raises env = true) /\
   (linux = true ->
    forall cmd, In cmd sound_commands -> Popen_raises env cmd = true)).
Proof.
  intros windows linux. subst windows linux. unfold play_notification_sound.
  destruct (String.eqb (sys_platform env) "win32" && HAS_WINSOUND env)%bool.
  - destruct (PlaySound_raises env); [|eauto].
    destruct (bell_fallback_cases env root) as [(-> & _)|(-> & Hb)]; [eauto|].
    right. split; [reflexivity|]. split; [assumption|].
    split; [reflexivity|discriminate].
  - cbn [negb andb]. cbv iota.
    destruct (String.prefix "linux" (sys_platform env)).
    + destruct (try_commands env sound_commands) as [cmd|] eqn:E; [eauto|].
      destruct (bell_fallback_cases env root) as [(-> & _)|(-> & Hb)];
        [eauto|].
      right. split; [reflexivity|]. split; [assumption|].
      split; [discriminate|].
      intros _. apply try_commands_None. assumption.
    + destruct (bell_fallback_cases env root) as [(-> & _)|(-> & Hb)];
        [eauto|].
      right. split; [reflexivity|]. split; [assumption|].
      split; discriminate.
Qed.

(** X17: on Linux the five player commands are tried in the order of the
    list and the first that can be launched is the one launched; the
    bell is then not rung. If none can be launched, the outcome is the
    bell's. *)
Theorem play_notification_sound_linux (env : SoundEnv) (root : bool) :
  String.prefix "linux" (sys_platform env) = true ->
  (forall cmd before after_,
     sound_commands = (before ++ cmd :: after_)%list ->
     Popen_raises env cmd = false ->
     (forall c, In c before -> Popen_raises env c = true) ->
     play_notification_sound env root = (true, [Launched cmd])) /\
  ((forall cmd, In cmd sound_commands -> Popen_raises env cmd = true) ->
   play_notification_sound env root = bell_fallback env root).
Proof.
  intros Hl. unfold play_notification_sound.
  assert (String.eqb (sys_platform env) "win32" = false) as Hw.
  { destruct (String.eqb_spec (sys_platform env) "win32") as [E|]; [|reflexivity].
    rewrite E in Hl. discriminate Hl. }
  rewrite Hw, Hl. cbn [andb]. cbv iota. split.
  - intros cmd before after_ Hsplit Hok Hbefore.
    assert (try_commands env sound_commands = Some cmd) as ->
      by (apply try_commands_Some; eauto).
    reflexivity.
  - intros Hall. apply try_commands_None in Hall. rewrite Hall. reflexivity.
Qed.

End NotificationSound.

Lemma play_notification_sound_linux_witness :
  play_notification_sound
    (mkSoundEnv "linux" false false
       (fun cmd => match cmd with
                   | "paplay" :: _ => true
                   | _ => false
                   end) false) true
  = (true, [Launched
              ["aplay"; "/usr/share/sounds/freedesktop/stereo/complete.oga"]]).
Proof.
  apply (proj1 (play_notification_sound_linux
                  (mkSoundEnv "linux" false false
                     (fun cmd => match cmd with
                                 | "paplay" :: _ => true
                                 | _ => false
                                 end) false) true eq_refl)
           _ [ ["paplay"; "/usr/share/sounds/freedesktop/stereo/complete.oga"];
               ["paplay"; "/usr/share/sounds/freedesktop/stereo/bell.oga"] ]
           [ ["canberra-gtk-play"; "-i"; "complete"];
             ["canberra-gtk-play"; "-i"; "bell"] ]).
  - reflexivity.
  - reflexivity.
  - intros c [<-|[<-|[]]]; reflexivity.
Defined.

(** ** The texts on display *)

Section Texts.

(** X18: the text that [stop_timer] and [update_interval] put on the
    timer label is the text the countdown shows at a full interval. *)
Theorem stopped_text_is_full_interval (interval : Z) :
  stopped_text interval = timer_text (interval * 60).
Proof.
  unfold stopped_text, timer_text.
  rewrite Z.div_mul, Z.mod_mul by lia. reflexivity.
Qed.

(** X19: the duration label is ambiguous. Past the first hour it shows
    hours and minutes as "H:MM", which is what it showed as minutes and
    seconds "M:SS" in the first hour; the seconds are then not shown. *)
Theorem duration_text_ambiguous (m s x : Z) :
  1 <= m < 60 -> 0 <= s < 60 -> 0 <= x < 60 ->
  duration_text (m * 3600 + s * 60 + x) = duration_text (m * 60 + s) /\
  duration_text (m * 60 + s) = pretty m ++ ":" ++ fmt_02d s.
Proof.
  intros Hm Hs Hx. unfold duration_text. cbv zeta.
  assert ((m * 3600 + s * 60 + x) / 3600 = m) as -> by
    (symmetry; apply (Z.div_unique _ _ _ (s * 60 + x)); lia).
  assert ((m * 3600 + s * 60 + x) mod 3600 = s * 60 + x) as -> by
    (symmetry; apply (Z.mod_unique _ _ m); lia).
  assert ((s * 60 + x) / 60 = s) as -> by
    (symmetry; apply (Z.div_unique _ _ _ x); lia).
  assert ((m * 60 + s) / 3600 = 0) as -> by (apply Z.div_small; lia).
  assert ((m * 60 + s) mod 3600 = m * 60 + s) as -> by
    (apply Z.mod_small; lia).
  assert ((m * 60 + s) / 60 = m) as -> by
    (symmetry; apply (Z.div_unique _ _ _ s); lia).
  assert ((m * 60 + s) mod 60 = s) as -> by
    (symmetry; apply (Z.mod_unique _ _ m); lia).
  replace (0 <? m) with true by (symmetry; apply Z.ltb_lt; lia).
  split; reflexivity.
Qed.

End Texts.

Lemma duration_text_ambiguous_witness :
  duration_text (1 * 3600 + 5 * 60 + 30) = duration_text (1 * 60 + 5) /\
  duration_text (1 * 60 + 5) = "1:05".
Proof. apply (duration_text_ambiguous 1 5 30); lia. Defined.

(** ** The controls of the main window *)

Section MainWindow.

Variable pf : Platform.

Ltac on_fields a tac :=
  open_app a; unfold tick_with, toggle_timer, toggle_theme; simpl in *;
  split_ifs; tac.

Lemma shows_same (a b : App) (c : Controls) :
  running (session b) = running (session a) ->
  paused (session b) = paused (session a) ->
  map popup_count (toplevels (root b)) = map popup_count (toplevels (root a)) ->
  shows a c -> shows b c.
Proof. unfold shows, controls_agree. intros -> -> ->. tauto. Qed.

Lemma trigger_stretch_shows (d : Draws) (a : App) (c : Controls) :
  shows a c ->
  shows (trigger_stretch pf d a) (trigger_stretch_controls a c).
Proof.
  unfold shows, controls_agree. intros [H Hc].
  rewrite trigger_stretch_session, trigger_stretch_toplevels.
  cbn [running paused trigger_stretch_controls start_btn_text pause_btn_text
       pause_btn_enabled status_text count_text].
  split; [exact H|].
  rewrite map_app.
  change (map popup_count [popup_of d a]) with [popup_count (popup_of d a)].
  rewrite last_last. reflexivity.
Qed.

Lemma run_due_shows (d : Draws) (a : App) (c : Controls) :
  shows a c ->
  shows (run_due pf d a)
        (if trigger_is_due a then trigger_stretch_controls a c else c).
Proof.
  intros H. unfold run_due, trigger_is_due.
  destruct (timers (root a)) as [|t q] eqn:E; [assumption|].
  destruct (due t <=? clock (root a)); [|assumption].
  destruct (action t); simpl.
  - assert (shows (with_root (set_timers q) a) c) as H'
      by (revert H; apply shows_same; open_app a; reflexivity).
    apply (trigger_stretch_shows d) in H'.
    replace (trigger_stretch_controls a c)
      with (trigger_stretch_controls (with_root (set_timers q) a) c)
      by (open_app a; reflexivity).
    exact H'.
  - revert H. apply shows_same; try (open_app a; reflexivity).
    rewrite close_popup_counts. open_app a. reflexivity.
Qed.

Lemma ui_step_shows (ev : Event) (w w' : World) (c c' : Controls) :
  shows (self w) c -> ui_step pf ev (w, c) = Ok (w', c') ->
  shows (self w') c' /\ step pf ev w = Ok w'.
Proof.
  intros H. destruct ev; simpl.
  - destruct (timer_loop_body_spec now (self w)) as (q & _ & ->). simpl.
    intros [= <- <-]. split; [|reflexivity]. simpl.
    revert H. apply shows_same; on_fields (self w) ltac:(reflexivity).
  - intros [= <- <-]. split; [|reflexivity]. apply run_due_shows. assumption.
  - intros [= <- <-]. split; [|reflexivity]. simpl.
    revert H. apply shows_same; open_app (self w); reflexivity.
  - destruct H as [(He & Hs & Hp & Hpr & Hon & Hoff) Hc].
    destruct (running (session (self w))) eqn:Er; intros [= <- <-];
      (split; [|unfold on_app, toggle_timer; rewrite Er; reflexivity]);
      split; simpl.
    + destruct w as [a f]. open_app a. simpl in *.
      repeat split; auto; discriminate.
    + destruct w as [a f]. open_app a. exact Hc.
    + assert (paused (session (self w)) = false) as Hpf
        by (destruct (paused (session (self w))); [|reflexivity];
            discriminate (Hpr eq_refl)).
      rewrite Hpf in Hp. destruct w as [a f]. open_app a. simpl in *.
      repeat split; auto; discriminate.
    + destruct w as [a f]. open_app a. exact Hc.
  - pose proof H as H'. destruct H as [(He & _) _]. rewrite He.
    destruct (running (session (self w))) eqn:Er; intros [= <- <-];
      [|split; [exact H'|reflexivity]].
    split; [|reflexivity].
    destruct H' as [(_ & Hs & Hp & Hpr & Hon & Hoff) Hc].
    destruct w as [a f]. open_app a. simpl in *. subst.
    split; [|destruct paused0; exact Hc].
    destruct paused0; simpl; repeat split; auto; discriminate.
  - intros [= <- <-]. split; [|reflexivity]. apply trigger_stretch_shows.
    assumption.
  - intros [= <- <-]. split; [|reflexivity]. simpl.
    revert H. apply shows_same; try (open_app (self w); reflexivity).
    apply close_popup_counts.
  - intros [= <- <-]. split; [|reflexivity]. simpl.
    revert H. apply shows_same; on_fields (self w) ltac:(reflexivity).
  - intros [= <- <-]. split; [|reflexivity]. simpl.
    revert H. apply shows_same; open_app (self w); reflexivity.
  - intros [= <- <-]. split; [|reflexivity]. assumption.
  - intros [= <- <-]. split; [|reflexivity]. simpl.
    revert H. apply shows_same; open_app (self w); reflexivity.
  - intros [= <- <-]. split; [|reflexivity]. simpl.
    revert H. apply shows_same; open_app (self w); reflexivity.
  - intros [= <- <-]. split; [|reflexivity]. simpl.
    revert H. apply shows_same; open_app (self w); reflexivity.
  - intros [= <- <-]. split; [|reflexivity]. simpl.
    revert H. apply shows_same; open_app (self w); reflexivity.
  - intros [= <- <-]. split; [|reflexivity]. simpl.
    revert H. apply shows_same; open_app (self w); reflexivity.
  - intros [= <- <-]. split; [|reflexivity]. simpl.
    revert H. apply shows_same; open_app (self w); reflexivity.
  - intros [= <- <-]. split; [|reflexivity]. assumption.
Qed.

Lemma ui_step_total (ev : Event) (wc : World * Controls) :
  exists wc', ui_step pf ev wc = Ok wc'.
Proof.
  destruct wc as [w c]. destruct ev; simpl; eauto;
    try (destruct (step_total pf _ w) as [w1 H1]; simpl in H1;
         rewrite H1; simpl; eauto; fail).
  - destruct (timer_loop_body_spec now (self w)) as (q & _ & ->).
    simpl. eauto.
  - destruct (running (session (self w))); eauto.
  - destruct (pause_btn_enabled c); eauto.
Qed.

Lemma ui_run_shows (evs : list Event) (w : World) (c : Controls) :
  shows (self w) c ->
  exists w' c',
    ui_run pf evs (w, c) = Ok (w', c') /\
    run pf evs w = Ok w' /\
    shows (self w') c'.
Proof.
  revert w c. induction evs as [|ev evs IH]; intros w c H.
  - exists w, c. auto.
  - destruct (ui_step_total ev (w, c)) as [[w1 c1] H1].
    destruct (ui_step_shows ev w w1 c c1 H H1) as [Hsh Hstep].
    destruct (IH w1 c1 Hsh) as (w' & c' & Hui & Hrun & Hag).
    exists w', c'.
    change (ui_run pf (ev :: evs) (w, c))
      with (ui_step pf ev (w, c) ≫= ui_run pf evs).
    change (run pf (ev :: evs) w) with (step pf ev w ≫= run pf evs).
    rewrite H1, Hstep. simpl. auto.
Qed.

(** X20: the controls of the main window say what the timer does. In
    every state reached from startup, with clicks on a disabled button
    doing nothing: the Pause button is enabled exactly while the timer
    runs; the Start button reads "Stop" while it runs and "Start"
    otherwise; the Pause button reads "Resume" exactly while paused, and
    the timer is only ever paused while running; the status line reads
    "Paused" or "Timer running..." accordingly, and "Ready to start" or
    "Timer stopped" when stopped. The count label shows the number of
    the latest reminder. The program's state is the one reached when the
    Pause click is guarded by [running] instead. *)
Theorem controls_follow_timer (f : settings_file) (app : App)
    (evs : list Event) :
  init f = Ok app ->
  exists w c,
    ui_run pf evs (mkWorld app f, initial_controls) = Ok (w, c) /\
    run pf evs (mkWorld app f) = Ok w /\
    controls_agree (self w) c /\
    count_text c =
      pretty (List.last (map popup_count (toplevels (root (self w)))) 0).
Proof.
  intros Hinit. apply init_fresh in Hinit as [Hs Hr].
  assert (shows (self (mkWorld app f)) initial_controls) as H0.
  { unfold shows, controls_agree. simpl. rewrite Hs, Hr. simpl.
    repeat split; auto; discriminate. }
  destruct (ui_run_shows evs _ _ H0) as (w & c & Hui & Hrun & Hag & Hc).
  exists w, c. auto.
Qed.

End MainWindow.

Lemma controls_follow_timer_witness :
  exists w c,
    ui_run no_plyer [EvToggleTimer 0; EvTogglePause; EvNow (mkDraws 0 0)]
           (mkWorld fresh_app NoFile, initial_controls) = Ok (w, c) /\
    run no_plyer [EvToggleTimer 0; EvTogglePause; EvNow (mkDraws 0 0)]
        (mkWorld fresh_app NoFile) = Ok w /\
    controls_agree (self w) c /\
    count_text c =
      pretty (List.last (map popup_count (toplevels (root (self w)))) 0).
Proof.
  apply (controls_follow_timer no_plyer NoFile fresh_app
           [EvToggleTimer 0; EvTogglePause; EvNow (mkDraws 0 0)]).
  reflexivity.
Defined.

(** ** Popups that close by themselves *)

Section AutoClose.

Variable pf : Platform.

Lemma trigger_stretch_clock (d : Draws) (a : App) :
  clock (root (trigger_stretch pf d a)) = clock (root a).
Proof.
  destruct pf as [[|]];
    destruct a as [[? ? ? ? ? ? ? [|] [|]] [? ? ? ? ? ? ? [|]] ? [? ? ? ?]];
    reflexivity.
Qed.

Lemma close_popup_toplevels (how : PopupState) (id : nat) (a : App) :
  toplevels (root (with_root (close_popup how id) a)) =
  map (fun p => if Nat.eqb (popup_id p) id
                then match popup_state p with
                     | Shown => set_popup_state how p
                     | _ => p
                     end
                else p)
      (toplevels (root a)).
Proof. destruct a as [? ? ? []]. reflexivity. Qed.

Lemma set_timers_toplevels (q : list Timer) (a : App) :
  toplevels (root (with_root (set_timers q) a)) = toplevels (root a).
Proof. destruct a as [? ? ? []]. reflexivity. Qed.

(** X21: a popup that nobody touches closes on time. With the persistent
    mode off and nothing else pending, a reminder is shown, [ms]
    milliseconds pass and the event loop runs once: the popup has timed
    out if [ms] reaches [popup_timeout_seconds] times 1000, and is still
    on screen otherwise, showing what it showed. *)
Theorem untouched_popup_times_out (d d' : Draws) (ms : Z) (w : World) :
  timers (root (self w)) = [] ->
  popup_persistent (settings (self w)) = false ->
  0 <= ms ->
  exists w',
    run pf [EvNow d; EvElapse ms; EvIdle d'] w = Ok w' /\
    toplevels (root (self w')) !! length (toplevels (root (self w))) =
    Some (set_popup_state
            (if popup_timeout_seconds (settings (self w)) * 1000 <=? ms
             then TimedOut else Shown)
            (popup_of d (self w))).
Proof.
  intros Hq Hp Hms. destruct w as [a f]. simpl in *.
  eexists. split; [reflexivity|].
  cbn [self on_app].
  set (a1 := trigger_stretch pf d a).
  assert (timers (root a1) = [auto_close a]) as Ht.
  { unfold a1. rewrite trigger_stretch_timers, Hp, Hq. reflexivity. }
  assert (toplevels (root a1) = (toplevels (root a) ++ [popup_of d a])%list)
    as Htl by apply trigger_stretch_toplevels.
  assert (clock (root a1) = clock (root a)) as Hc
    by apply trigger_stretch_clock.
  set (a2 := with_root (fun tk => set_clock (clock tk + Z.max 0 ms) tk) a1).
  assert (timers (root a2) = [auto_close a]) as Ht2 by exact Ht.
  assert (toplevels (root a2) = (toplevels (root a) ++ [popup_of d a])%list)
    as Htl2 by exact Htl.
  assert (clock (root a2) = clock (root a) + ms) as Hc2.
  { unfold a2. cbn. rewrite Hc. lia. }
  unfold run_due. rewrite Ht2, Hc2.
  unfold auto_close at 1. cbn [due action].
  destruct (popup_timeout_seconds (settings a) * 1000 <=? ms) eqn:E.
  - replace (clock (root a)
             + Z.max 0 (popup_timeout_seconds (settings a) * 1000)
             <=? clock (root a) + ms) with true by (symmetry; lia).
    change (action (auto_close a))
      with (CbClose (length (toplevels (root a)))).
    cbn [run_callback].
    rewrite close_popup_toplevels, set_timers_toplevels, Htl2, lookup_map.
    rewrite lookup_app_r by reflexivity.
    rewrite Nat.sub_diag. cbn.
    rewrite Nat.eqb_refl. reflexivity.
  - replace (clock (root a)
             + Z.max 0 (popup_timeout_seconds (settings a) * 1000)
             <=? clock (root a) + ms) with false by (symmetry; lia).
    rewrite Htl2. rewrite lookup_app_r by reflexivity.
    rewrite Nat.sub_diag. reflexivity.
Qed.

Lemma trigger_stretch_closing (d : Draws) (a : App) :
  closing a -> closing (trigger_stretch pf d a).
Proof.
  intros [Hp H]. split.
  - rewrite trigger_stretch_settings. exact Hp.
  - intros p. rewrite trigger_stretch_toplevels, trigger_stretch_timers, Hp.
    rewrite in_app_iff. intros [Hin|[<-|[]]] Hs.
    + destruct (H p Hin Hs) as (t & Ht & Ha).
      exists t. split; [|exact Ha]. apply In_insert_timer. auto.
    + exists (auto_close a). split; [|reflexivity].
      apply In_insert_timer. auto.
Qed.

Lemma close_popup_closing (how : PopupState) (id : nat) (a : App)
    (q : list Timer) :
  how <> Shown ->
  popup_persistent (settings a) = false ->
  (forall p : Popup,
      In p (toplevels (root a)) -> popup_state p = Shown ->
      popup_id p <> id ->
      exists t : Timer, In t q /\ action t = CbClose (popup_id p)) ->
  closing (with_root (close_popup how id) (with_root (set_timers q) a)).
Proof.
  intros Hh Hp H. split; [destruct a; exact Hp|].
  destruct a as [st ss cl [tl tm ck lg]]. cbn in *.
  intros p Hin Hs. apply in_map_iff in Hin as (p0 & <- & Hin).
  destruct (Nat.eqb (popup_id p0) id) eqn:E.
  - destruct (popup_state p0) eqn:E0; cbn in Hs; congruence.
  - apply Nat.eqb_neq in E. exact (H p0 Hin Hs E).
Qed.

Lemma closing_same (a b : App) :
  popup_persistent (settings b) = popup_persistent (settings a) ->
  toplevels (root b) = toplevels (root a) ->
  (forall t, In t (timers (root a)) -> In t (timers (root b))) ->
  closing a -> closing b.
Proof.
  unfold closing. intros -> -> Ht [Hp H]. split; [exact Hp|].
  intros p Hin Hs. destruct (H p Hin Hs) as (t & Hin' & Ha). eauto.
Qed.

Lemma tick_with_closing (q : bool) (a : App) :
  closing a -> closing (tick_with q a).
Proof.
  apply closing_same; unfold tick_with; open_app a; simpl; split_ifs;
    try reflexivity; auto.
  simpl. intros t Ht. apply In_insert_timer. auto.
Qed.

Lemma run_due_closing (d : Draws) (a : App) :
  closing a -> closing (run_due pf d a).
Proof.
  intros [Hp H]. unfold run_due.
  destruct (timers (root a)) as [|t q] eqn:Et; [split; rewrite ?Et; assumption|].
  destruct (due t <=? clock (root a)); [|split; rewrite ?Et; assumption].
  destruct (action t) as [|j] eqn:Ea; cbn [run_callback].
  - apply trigger_stretch_closing. split; [destruct a; exact Hp|].
    rewrite set_timers_toplevels.
    intros p Hin Hs. destruct (H p Hin Hs) as (u & Hu & Hua).
    destruct Hu as [<-|Hu]; [congruence|].
    exists u. split; [|exact Hua]. destruct a as [? ? ? []]. exact Hu.
  - apply close_popup_closing; [discriminate|exact Hp|].
    intros p Hin Hs Hne. destruct (H p Hin Hs) as (u & Hu & Hua).
    destruct Hu as [<-|Hu]; [congruence|]. eauto.
Qed.

Lemma step_closing (ev : Event) (w w' : World) :
  leaves_persistent_off ev = true ->
  closing (self w) -> step pf ev w = Ok w' -> closing (self w').
Proof.
  intros Hev HI. destruct ev; simpl.
  - destruct (timer_loop_body_spec now (self w)) as (q & _ & ->). simpl.
    intros [= <-]. apply tick_with_closing. exact HI.
  - intros [= <-]. apply run_due_closing. exact HI.
  - intros [= <-]. revert HI. apply closing_same;
      destruct w as [[? ? ? []] ?]; simpl; auto.
  - intros [= <-]. revert HI. apply closing_same;
      destruct w as [[? [[|]] ? []] ?]; simpl; auto.
  - destruct (running (session (self w))); intros [= <-]; [|exact HI].
    revert HI. apply closing_same; destruct w as [[? [] ? []] ?]; simpl; auto.
  - intros [= <-]. apply trigger_stretch_closing. exact HI.
  - intros [= <-]. destruct w as [a f]. cbn [self on_app] in *.
    replace a with (with_root (set_timers (timers (root a))) a) at 1
      by (destruct a as [? ? ? []]; reflexivity).
    destruct HI as [Hp H].
    apply close_popup_closing; [discriminate|exact Hp|]. auto.
  - intros [= <-]. revert HI. apply closing_same;
      destruct w as [a ?]; unfold toggle_theme; open_app a; simpl;
      split_ifs; simpl; auto.
  - intros [= <-]. revert HI. apply closing_same;
      destruct w as [[[] ? ? []] ?]; simpl; auto.
  - intros [= <-]. exact HI.
  - intros [= <-]. revert HI. apply closing_same;
      destruct w as [[[] ? ? []] ?]; simpl; auto.
  - intros [= <-]. revert HI. apply closing_same;
      destruct w as [[[] ? ? []] ?]; simpl; auto.
  - intros [= <-]. revert HI. apply closing_same;
      destruct w as [[[] ? ? []] ?]; simpl; auto.
  - intros [= <-]. revert HI. apply closing_same;
      destruct w as [[[] ? ? []] ?]; simpl; auto.
  - intros [= <-]. destruct b; [discriminate|].
    destruct HI as [Hp H]. revert H. destruct w as [[[] ? ? []] ?].
    simpl in *. intros H. split; [reflexivity|exact H].
  - intros [= <-]. revert HI. apply closing_same;
      destruct w as [[[] ? ? []] ?]; simpl; auto.
  - intros [= <-]. exact HI.
Qed.

(** X22: while the persistent mode stays off, no popup is left on screen
    for good. From a startup that finds the mode off, through any events
    that do not turn it on, every popup on screen has its auto-close
    pending in the toolkit's queue. *)
Theorem shown_popups_await_close (f : settings_file) (app : App)
    (evs : list Event) (w : World) :
  init f = Ok app ->
  popup_persistent (settings app) = false ->
  forallb leaves_persistent_off evs = true ->
  run pf evs (mkWorld app f) = Ok w ->
  closing (self w).
Proof.
  intros Hinit Hp Hevs Hrun.
  assert (closing (self (mkWorld app f))) as H0.
  { split; [exact Hp|]. apply init_fresh in Hinit as [_ Hr].
    cbn [self]. rewrite Hr. intros p []. }
  clear Hinit Hp. revert Hevs Hrun H0. generalize (mkWorld app f).
  induction evs as [|ev evs IH]; intros w0 Hevs Hrun H0.
  - injection Hrun as <-. exact H0.
  - cbn [forallb] in Hevs. apply andb_prop in Hevs as [Hev Hevs].
    apply run_cons in Hrun as (w1 & H1 & Hrun).
    apply (IH w1 Hevs Hrun). exact (step_closing ev w0 w1 Hev H0 H1).
Qed.

(** X23: the Done button closes its own popup and nothing else. In every
    state reached from startup, a click on the Done button of window
    [id] leaves the settings, the session, the pending callbacks and the
    settings file as they are, and every window as it is but the one at
    position [id], which leaves the screen as dismissed if it was on
    it. *)
Theorem done_closes_its_popup (f : settings_file) (app : App)
    (evs : list Event) (w : World) (id : nat) :
  init f = Ok app ->
  run pf evs (mkWorld app f) = Ok w ->
  exists w',
    step pf (EvDone id) w = Ok w' /\
    settings (self w') = settings (self w) /\
    session (self w') = session (self w) /\
    timers (root (self w')) = timers (root (self w)) /\
    file w' = file w /\
    length (toplevels (root (self w'))) =
      length (toplevels (root (self w))) /\
    forall (i : nat) (p : Popup),
      toplevels (root (self w)) !! i = Some p ->
      toplevels (root (self w')) !! i =
      Some (if Nat.eqb i id then dismissed p else p).
Proof.
  intros Hinit Hrun.
  pose proof (reachable_tk_ok pf f app evs w Hinit Hrun) as (Hid & _ & _).
  eexists. split; [reflexivity|].
  destruct w as [a fl]. cbn [self on_app file] in *.
  destruct a as [st ss cl [tl tm ck lg]]. cbn in *.
  repeat split; [apply length_map|].
  intros i p Hi. rewrite lookup_map, Hi. cbn.
  rewrite (Hid i p Hi). reflexivity.
Qed.

End AutoClose.

Lemma untouched_popup_times_out_witness :
  exists w',
    run no_plyer [EvNow (mkDraws 0 0); EvElapse 180000; EvIdle (mkDraws 0 0)]
        (mkWorld fresh_app NoFile) = Ok w' /\
    toplevels (root (self w')) !! 0%nat =
    Some (set_popup_state TimedOut (popup_of (mkDraws 0 0) fresh_app)).
Proof.
  apply (untouched_popup_times_out no_plyer (mkDraws 0 0) (mkDraws 0 0)
           180000 (mkWorld fresh_app NoFile)).
  - reflexivity.
  - reflexivity.
  - lia.
Defined.

Lemma shown_popups_await_close_witness :
  closing
    (self (mkWorld
             (trigger_stretch no_plyer (mkDraws 1 1)
                (trigger_stretch no_plyer (mkDraws 0 0) fresh_app))
             NoFile)).
Proof.
  apply (shown_popups_await_close no_plyer NoFile fresh_app
           [EvNow (mkDraws 0 0); EvNow (mkDraws 1 1)]).
  - reflexivity.
  - reflexivity.
  - reflexivity.
  - vm_compute. reflexivity.
Defined.

Lemma done_closes_its_popup_witness :
  exists w',
    step no_plyer (EvDone 0)
      (mkWorld (trigger_stretch no_plyer (mkDraws 0 0) fresh_app) NoFile)
    = Ok w' /\
    toplevels (root (self w')) !! 0%nat =
    Some (dismissed (popup_of (mkDraws 0 0) fresh_app)).
Proof.
  destruct (done_closes_its_popup no_plyer NoFile fresh_app
              [EvNow (mkDraws 0 0)]
              (mkWorld (trigger_stretch no_plyer (mkDraws 0 0) fresh_app)
                       NoFile)
              0%nat) as (w' & Hs & _ & _ & _ & _ & _ & Hl).
  - reflexivity.
  - reflexivity.
  - exists w'. split; [exact Hs|].
    apply (Hl 0%nat (popup_of (mkDraws 0 0) fresh_app)). reflexivity.
Defined.

(** ** Settings files that hold no record *)

Section NoRecord.

Lemma load_field_no_record (key : string) (v : jvalue)
    (apply : jvalue -> App -> result App) (a : App) :
  (forall m, v <> JObj m) ->
  load_field key v apply a =
  match py_contains key v with
  | Ok true => Raise TypeError
  | Ok false => Ok a
  | Raise e => Raise e
  | Unmodelled => Unmodelled
  end.
Proof.
  intros Hv. unfold load_field.
  destruct v as [|b|n|s|l|m]; try reflexivity.
  destruct (Hv m). reflexivity.
Qed.

(** X24: settings files from which no record comes. If [json.load]
    returns a value that is no record, then: a number, a truth value or
    [None] makes [load_settings] raise [TypeError]; an array or a string
    is taken silently, and nothing is loaded from it, unless one of the
    nine key names is an element of the array, or occurs in the string:
    then [TypeError] is raised as well. If [json.load] raises, its
    exception leaves [load_settings] unless it is of one of the two
    classes caught, and then nothing is loaded: so text nested too
    deeply raises [RecursionError] and an integer literal of too many
    digits raises [ValueError], wherever in the text they stand. *)
Theorem load_settings_no_record (f : settings_file) (a : App) :
  (forall v,
     json_load f = Ok v -> (forall m, v <> JObj m) ->
     load_settings f a = if trips_lookup v then Raise TypeError else Ok a) /\
  (forall e,
     json_load f = Raise e ->
     load_settings f a =
     if existsb (isinstance e) [JSONDecodeError; IOError]
     then Ok a else Raise e).
Proof.
  split.
  - intros v Hf Hv. destruct f; try discriminate Hf. injection Hf as ->.
    unfold load_settings. cbn [path_exists json_load].
    cbn [mbind result_bind].
    destruct v as [|b|n|s|l|m]; try reflexivity.
    + unfold trips_lookup, SETTINGS_KEYS. cbn [existsb].
      repeat (rewrite (load_field_no_record _ (JStr s)) by discriminate;
              cbn [py_contains];
              destruct (contains_str _ s); cbn [orb mbind result_bind];
              [reflexivity|]).
      reflexivity.
    + unfold trips_lookup, SETTINGS_KEYS. cbn [existsb].
      repeat (rewrite (load_field_no_record _ (JArr l)) by discriminate;
              cbn [py_contains];
              match goal with
              | |- context [existsb ?g l] => destruct (existsb g l)
              end;
              cbn [orb mbind result_bind]; [reflexivity|]).
      reflexivity.
    + destruct (Hv m). reflexivity.
  - intros e Hf. destruct f; try discriminate Hf;
      injection Hf as <-; reflexivity.
Qed.

End NoRecord.

Lemma load_settings_no_record_witness :
  load_settings (Json (JArr [JStr "theme"])) fresh_app = Raise TypeError /\
  load_settings (Json (JArr [JStr "blue"])) fresh_app = Ok fresh_app /\
  load_settings TooDeep fresh_app = Raise RecursionError /\
  load_settings HugeNumber fresh_app = Raise ValueError.
Proof.
  split; [|split; [|split]].
  - apply (proj1 (load_settings_no_record (Json (JArr [JStr "theme"]))
                    fresh_app) (JArr [JStr "theme"])).
    + reflexivity.
    + discriminate.
  - apply (proj1 (load_settings_no_record (Json (JArr [JStr "blue"]))
                    fresh_app) (JArr [JStr "blue"])).
    + reflexivity.
    + discriminate.
  - apply (proj2 (load_settings_no_record TooDeep fresh_app) RecursionError).
    reflexivity.
  - apply (proj2 (load_settings_no_record HugeNumber fresh_app) ValueError).
    reflexivity.
Defined.

(** ** Countdown threads *)

Section Threads.

Variable pf : Platform.

Lemma thread_run_app (l1 l2 : list Event) (t : Threaded) :
  thread_run pf (l1 ++ l2) t = thread_run pf l1 t ≫= thread_run pf l2.
Proof.
  revert t. induction l1 as [|ev l1 IH]; intros t; [reflexivity|].
  cbn [app thread_run]. destruct (thread_step pf ev t) as [t'| |];
    [apply IH|reflexivity..].
Qed.

Lemma restart_once (now : Z) (t : Threaded) :
  running (session (self (world t))) = true ->
  exists t',
    thread_run pf [EvToggleTimer now; EvToggleTimer now] t = Ok t' /\
    loops t' = S (loops t) /\
    restarted (interval_minutes (settings (self (world t)))) t'.
Proof.
  intros Hr. destruct t as [[a f] n]. cbn in Hr.
  open_app a. cbn in Hr. subst. eexists. split; [reflexivity|].
  cbn. repeat split.
Qed.

Lemma restarts_threads (i : Z) (ts : list Z) (t : Threaded) :
  restarted i t ->
  exists t',
    thread_run pf (restarts ts) t = Ok t' /\
    loops t' = (loops t + length ts)%nat /\
    restarted i t'.
Proof.
  revert t. induction ts as [|now ts IH]; intros t H.
  - exists t. repeat split; try apply H. cbn. lia.
  - destruct H as (Hr & Hp & Hi & Hrem).
    destruct (restart_once now t Hr) as (t1 & H1 & Hl1 & H1r).
    rewrite Hi in H1r.
    destruct (IH t1 H1r) as (t' & H' & Hl' & Hr').
    exists t'. split; [|split; [|exact Hr']].
    + change (restarts (now :: ts))
        with ([EvToggleTimer now; EvToggleTimer now] ++ restarts ts)%list.
      rewrite thread_run_app, H1. exact H'.
    + rewrite Hl', Hl1. cbn [length]. lia.
Qed.

Lemma thread_run_ticks (nows : list time) (t : Threaded) :
  running (session (self (world t))) = true ->
  paused (session (self (world t))) = false ->
  loops t <> 0%nat ->
  Z.of_nat (length nows) <= remaining_seconds (session (self (world t))) ->
  exists t',
    thread_run pf (map EvTick nows) t = Ok t' /\
    loops t' = loops t /\
    running (session (self (world t'))) = true /\
    remaining_seconds (session (self (world t'))) =
      remaining_seconds (session (self (world t)))
      - Z.of_nat (length nows).
Proof.
  revert t. induction nows as [|now nows IH]; intros t Hr Hp Hl Hn.
  - exists t. cbn. repeat split; auto. lia.
  - cbn [length] in Hn.
    destruct t as [[a f] n]. cbn [world self loops] in *.
    destruct n as [|n]; [congruence|].
    assert (0 < remaining_seconds (session a)) as Hpos by lia.
    pose proof (timer_loop_body_decrement now a Hr Hp Hpos) as Hb.
    set (a1 := with_remaining_seconds (remaining_seconds (session a) - 1) a)
      in *.
    destruct (IH (mkThreaded (mkWorld a1 f) (S n))) as (t' & H' & Hl' & Hr' & Hrem').
    + unfold a1. destruct a as [? [] ? ?]. exact Hr.
    + unfold a1. destruct a as [? [] ? ?]. exact Hp.
    + discriminate.
    + cbn [world self]. unfold a1. destruct a as [? [] ? ?]. cbn in *. lia.
    + exists t'. split; [|split; [exact Hl'|split; [exact Hr'|]]].
      * cbn [map thread_run thread_step loops world self step].
        rewrite Hr, Hb. exact H'.
      * rewrite Hrem'. cbn [world self length]. unfold a1.
        destruct a as [? [] ? ?]. cbn. lia.
Qed.

(** X25: Stop and Start in quick succession leave the old countdown
    thread running beside the new one. [stop_timer] only clears
    [running], and a thread of [timer_loop] looks at it once per second;
    when Start is clicked again before that, [start_timer] sets it back
    and starts one more thread. After [k] such restarts of a running
    timer there are [k] more threads in the loop, and one turn of each of
    them takes as many seconds off the countdown as there are threads. *)
Theorem restart_leaves_threads (t : Threaded) (ts : list Z)
    (nows : list time) :
  running (session (self (world t))) = true ->
  loops t <> 0%nat ->
  ts <> [] ->
  length nows = (loops t + length ts)%nat ->
  Z.of_nat (length nows) <= interval_minutes (settings (self (world t))) * 60 ->
  exists t',
    thread_run pf (restarts ts ++ map EvTick nows) t = Ok t' /\
    loops t' = (loops t + length ts)%nat /\
    running (session (self (world t'))) = true /\
    remaining_seconds (session (self (world t'))) =
      interval_minutes (settings (self (world t))) * 60
      - Z.of_nat (loops t + length ts).
Proof.
  intros Hr Hl Hts Hn Hlen. destruct ts as [|now ts]; [congruence|].
  destruct (restart_once now t Hr) as (t1 & H1 & Hl1 & H1r).
  destruct (restarts_threads _ ts t1 H1r) as (t2 & H2 & Hl2 & Hr2 & Hp2 & Hi2 & Hrem2).
  destruct (thread_run_ticks nows t2 Hr2 Hp2) as (t' & H' & Hl' & Hr' & Hrem').
  - lia.
  - rewrite Hrem2. exact Hlen.
  - exists t'. split; [|split; [|split; [exact Hr'|]]].
    + change (restarts (now :: ts))
        with ([EvToggleTimer now; EvToggleTimer now] ++ restarts ts)%list.
      rewrite !thread_run_app, H1. cbn [mbind result_bind]. rewrite H2.
      exact H'.
    + rewrite Hl', Hl2, Hl1. cbn [length]. lia.
    + rewrite Hrem', Hrem2, Hn. reflexivity.
Qed.

End Threads.

Lemma restart_leaves_threads_witness :
  exists t',
    thread_run no_plyer
      (restarts [5] ++ map EvTick [noon; noon])
      (mkThreaded (mkWorld one_minute_app NoFile) 1) = Ok t' /\
    loops t' = 2%nat /\
    running (session (self (world t'))) = true /\
    remaining_seconds (session (self (world t'))) = 58.
Proof.
  apply (restart_leaves_threads no_plyer
           (mkThreaded (mkWorld one_minute_app NoFile) 1) [5] [noon; noon]).
  - reflexivity.
  - discriminate.
  - discriminate.
  - reflexivity.
  - vm_compute. discriminate.
Defined.
